(** * The MoleCave: identifier resolution and catalog deduplication

    A shallow embedding of [gui_app/normalize_compound.py],
    [gui_app/app.py] (the [upload] route) and [remove_duplicates.py].

    Conventions of the embedding.
    - A Python [str] is a Stdlib [string]; its characters are read as the
      code points 0..255, and the character classes below are CPython's
      for that range.
    - A Python value that comes out of [response.json()] or out of RDKit is
      a [value] (JSON shaped); [JNull] is [None].
    - A Python call that may raise is a [result]: [Raise e] or [Ret v].
    - The external world (the web services and the RDKit / MolVS library)
      is a record of functions, [World]; one [World] is the behaviour of
      the services during one resolution. *)

From Stdlib Require Import String Ascii List ZArith Bool Lia Arith.
From Stdlib Require Import Sorting.Sorted Sorting.Permutation.
Import ListNotations.
Open Scope string_scope.
Open Scope Z_scope.

Set Implicit Arguments.
Set Warnings "-register-all".

(* ================================================================== *)
(** ** Python strings *)

Module PyStr.

Definition code (c : ascii) : Z := Z.of_nat (nat_of_ascii c).

(** [str.isspace] on one character, code points below 256. *)
Definition isspace (c : ascii) : bool :=
  let n := code c in
  ((9 <=? n) && (n <=? 13)) || ((28 <=? n) && (n <=? 32))
  || (n =? 133) || (n =? 160).

(** [str.isdigit] on one character, code points below 256: the decimal
    digits and the superscripts two, three and one. *)
Definition isdigit_char (c : ascii) : bool :=
  let n := code c in
  ((48 <=? n) && (n <=? 57)) || (n =? 178) || (n =? 179) || (n =? 185).

(** The regular-expression class [[A-Z]]. *)
Definition is_AZ (c : ascii) : bool :=
  let n := code c in (65 <=? n) && (n <=? 90).

Definition is_empty (s : string) : bool :=
  match s with EmptyString => true | String _ _ => false end.

Fixpoint all_chars (p : ascii -> bool) (s : string) : bool :=
  match s with
  | EmptyString => true
  | String c r => p c && all_chars p r
  end.

(** [text.isdigit()]: at least one character and every character a digit. *)
Definition isdigit (s : string) : bool :=
  negb (is_empty s) && all_chars isdigit_char s.

Fixpoint lstrip (s : string) : string :=
  match s with
  | EmptyString => EmptyString
  | String c r => if isspace c then lstrip r else s
  end.

Fixpoint rstrip (s : string) : string :=
  match s with
  | EmptyString => EmptyString
  | String c r =>
      let r' := rstrip r in
      if isspace c && is_empty r' then EmptyString else String c r'
  end.

(** [text.strip()] *)
Definition strip (s : string) : string := rstrip (lstrip s).

(** ASCII-only case folding, as SQLite's NOCASE collation does it. *)
Definition lower_char (c : ascii) : ascii :=
  if is_AZ c then ascii_of_nat (nat_of_ascii c + 32) else c.

Fixpoint lower (s : string) : string :=
  match s with
  | EmptyString => EmptyString
  | String c r => String (lower_char c) (lower r)
  end.

(** [needle in haystack] for two strings. *)
Fixpoint contains (needle haystack : string) : bool :=
  String.prefix needle haystack
  || match haystack with
     | EmptyString => false
     | String _ r => contains needle r
     end.

End PyStr.

(* ================================================================== *)
(** ** The identifier detectors (normalize_compound.py, lines 21-28) *)

Module Regex.

(** [[A-Z]{n}]: consume exactly [n] upper-case letters. *)
Fixpoint upper_run (n : nat) (s : string) : option string :=
  match n with
  | O => Some s
  | S k =>
      match s with
      | String c r => if PyStr.is_AZ c then upper_run k r else None
      | EmptyString => None
      end
  end.

Definition hyphen (s : string) : option string :=
  match s with
  | String c r => if Ascii.eqb c "-" then Some r else None
  | EmptyString => None
  end.

(** [$] without MULTILINE: the end of the text, or just before a newline
    that ends the text. *)
Definition dollar (s : string) : bool :=
  match s with
  | EmptyString => true
  | String c EmptyString => Ascii.eqb c "010"
  | _ => false
  end.

Definition and_then (o : option string) (f : string -> option string) :=
  match o with Some r => f r | None => None end.

(** [[A-Z]{14}-[A-Z]{10}-[A-Z]]: what follows the three groups, when the
    text begins with them. *)
Definition key_groups (s : string) : option string :=
  and_then (upper_run 14 s) (fun r1 =>
  and_then (hyphen r1) (fun r2 =>
  and_then (upper_run 10 r2) (fun r3 =>
  and_then (hyphen r3) (fun r4 =>
  upper_run 1 r4)))).

End Regex.

(** [INCHIKEY_REGEX.match(s)], as a truth value. *)
Definition INCHIKEY_REGEX (s : string) : bool :=
  match Regex.key_groups s with
  | Some rest => Regex.dollar rest
  | None => false
  end.

Definition looks_like_inchikey (text : string) : bool :=
  INCHIKEY_REGEX (PyStr.strip text).

Definition looks_like_pubchem_cid (text : string) : bool :=
  PyStr.isdigit text.

Inductive IdentifierKind :=
| StandardizedKey
| RegistryNumber
| FreeTextOrStructure.

(** The classification [get_compound_data] performs on its argument
    (lines 310 and 314): the registry-number test comes first, the key test
    is made only when the first one did not give a registry id. *)
Definition classify (text : string) : IdentifierKind :=
  if looks_like_pubchem_cid text then RegistryNumber
  else if looks_like_inchikey text then StandardizedKey
  else FreeTextOrStructure.

(* ================================================================== *)
(** ** Python values and exceptions *)

(** What [json.loads] can give back, which is also what the record of a
    resolution holds.  A float is kept as its binary64 bit pattern. *)
Inductive value :=
| JNull
| JBool (b : bool)
| JNum (n : Z)
| JFloat (bits : Z)
| JStr (s : string)
| JList (items : list value)
| JObj (fields : list (string * value)).

Inductive exn :=
| ConnectionError          (* requests.exceptions.RequestException family *)
| RequestsJSONDecodeError  (* requests >= 2.27: RequestException and ValueError *)
| JSONDecodeError          (* json.JSONDecodeError: a ValueError only *)
| KeyError
| IndexError
| TypeError
| AttributeError
| OtherException.

Definition is_RequestException (e : exn) : bool :=
  match e with ConnectionError | RequestsJSONDecodeError => true | _ => false end.

Definition is_KeyError (e : exn) : bool :=
  match e with KeyError => true | _ => false end.

Inductive result (A : Type) :=
| Raise (e : exn)
| Ret (a : A).
Arguments Raise {A} e.
Arguments Ret {A} a.

Definition bind {A B} (m : result A) (k : A -> result B) : result B :=
  match m with
  | Raise e => Raise e
  | Ret a => k a
  end.

Declare Scope py_scope.
Delimit Scope py_scope with py.
Notation "x <- m ;; k" := (bind m (fun x => k))
  (at level 61, m at next level, right associativity) : py_scope.
Open Scope py_scope.

(** [try: body  except (C1, ...): pass] followed by [fallback]: an
    exception of a listed class is swallowed and control falls through. *)
Definition try_except {A} (caught : exn -> bool) (body : result A)
    (fallback : A) : result A :=
  match body with
  | Raise e => if caught e then Ret fallback else Raise e
  | Ret a => Ret a
  end.

(** [except Exception] *)
Definition any_exception (_ : exn) : bool := true.

Module Py.

(** [bool(v)] *)
Definition truthy (v : value) : bool :=
  match v with
  | JNull => false
  | JBool b => b
  | JNum n => negb (n =? 0)
  | JFloat bits => negb ((bits =? 0) || (bits =? 2 ^ 63))
  | JStr s => negb (PyStr.is_empty s)
  | JList l => match l with [] => false | _ => true end
  | JObj f => match f with [] => false | _ => true end
  end.

Fixpoint assoc (k : string) (f : list (string * value)) : option value :=
  match f with
  | [] => None
  | (k', v) :: r => if String.eqb k k' then Some v else assoc k r
  end.

(** [v[k]] for a string key. *)
Definition getitem (v : value) (k : string) : result value :=
  match v with
  | JObj f => match assoc k f with Some x => Ret x | None => Raise KeyError end
  | _ => Raise TypeError
  end.

(** [v[0]].  The keys of a decoded JSON object are strings, so the
    integer key is never present. *)
Definition getitem0 (v : value) : result value :=
  match v with
  | JList (x :: _) => Ret x
  | JList [] => Raise IndexError
  | JStr (String c _) => Ret (JStr (String c EmptyString))
  | JStr EmptyString => Raise IndexError
  | JObj _ => Raise KeyError
  | _ => Raise TypeError
  end.

Definition value_is_str (s : string) (v : value) : bool :=
  match v with JStr s' => String.eqb s s' | _ => false end.

(** [k in v] for a string [k]. *)
Definition contains (k : string) (v : value) : result bool :=
  match v with
  | JObj f => Ret (match assoc k f with Some _ => true | None => false end)
  | JList l => Ret (existsb (value_is_str k) l)
  | JStr s => Ret (PyStr.contains k s)
  | _ => Raise TypeError
  end.

(** [v.get(k)] *)
Definition dict_get (v : value) (k : string) : result value :=
  match v with
  | JObj f => Ret (match assoc k f with Some x => x | None => JNull end)
  | _ => Raise AttributeError
  end.

(** [len(v)] *)
Definition len (v : value) : result Z :=
  match v with
  | JObj f => Ret (Z.of_nat (List.length f))
  | JList l => Ret (Z.of_nat (List.length l))
  | JStr s => Ret (Z.of_nat (String.length s))
  | _ => Raise TypeError
  end.

Definition is_None (v : value) : bool :=
  match v with JNull => true | _ => false end.

End Py.

(* ================================================================== *)
(** ** The external world *)

(** What [requests.get] does: it raises, or it gives a response whose
    [status_code] is a number and whose [json()] raises or decodes. *)
Inductive http :=
| GetRaises (e : exn)
| Response (status_code : Z) (json : result value).

(** An RDKit molecule object; it is always truthy. *)
Inductive Mol := MolHandle (n : nat).

Record World := {
  (* PubChem PUG REST, one field per URL template, keyed by the formatted
     argument *)
  pubchem_name_cids : string -> http;
  pubchem_inchikey_cids : value -> http;
  pubchem_cid_smiles : value -> http;
  pubchem_cid_inchikey : value -> http;
  pubchem_cid_synonyms : value -> http;
  pubchem_cid_iupac : value -> http;
  (* ChEMBL molecule search by synonym *)
  chembl_molecule_search : string -> http;
  (* the DrugBank cross-reference lookups, taken as calls *)
  get_drugbank_url_from_inchikey : value -> result value;
  get_drugbank_url_from_pubchem_cid : value -> result value;
  (* RDKit and MolVS *)
  MolFromSmiles : value -> result (option Mol);
  MolToInchi : Mol -> result value;
  InchiToInchiKey : value -> result value;
  DrawMoleculeSVG : Mol -> result value;
  CalcMolFormula : Mol -> result value;
  CalcExactMolWt : Mol -> result value;
  standardize_smiles : value -> result value;
  GetMorganFingerprintAsBitVect : Mol -> Z -> Z -> result value
}.

Definition requests_get (h : http) : result (Z * result value) :=
  match h with
  | GetRaises e => Raise e
  | Response sc j => Ret (sc, j)
  end.

(** The [except (requests.exceptions.RequestException, KeyError)] clause. *)
Definition caught_by_adapter (e : exn) : bool :=
  is_RequestException e || is_KeyError e.

(* ================================================================== *)
(** ** Source adapters (normalize_compound.py, lines 32-125, 249-269) *)

Section Adapters.
Variable w : World.

(** The body shared by [get_cid_from_pubchem] and [get_cid_from_inchikey]:
    [data['IdentifierList']['CID'][0]] on status 200. *)
Definition first_cid (h : http) : result value :=
  try_except caught_by_adapter
    (resp <- requests_get h ;;
     if fst resp =? 200 then
       data <- snd resp ;;
       il <- Py.getitem data "IdentifierList" ;;
       cids <- Py.getitem il "CID" ;;
       Py.getitem0 cids
     else Ret JNull)
    JNull.

Definition get_cid_from_pubchem (identifier : string) : result value :=
  first_cid (pubchem_name_cids w identifier).

Definition get_cid_from_inchikey (inchikey : value) : result value :=
  first_cid (pubchem_inchikey_cids w inchikey).

Definition get_smiles_from_pubchem (cid : value) : result value :=
  try_except caught_by_adapter
    (resp <- requests_get (pubchem_cid_smiles w cid) ;;
     if fst resp =? 200 then
       data <- snd resp ;;
       pt <- Py.getitem data "PropertyTable" ;;
       ps <- Py.getitem pt "Properties" ;;
       properties <- Py.getitem0 ps ;;
       has_canonical <- Py.contains "CanonicalSMILES" properties ;;
       if has_canonical then Py.getitem properties "CanonicalSMILES"
       else
         has_connectivity <- Py.contains "ConnectivitySMILES" properties ;;
         if has_connectivity then Py.getitem properties "ConnectivitySMILES"
         else Ret JNull
     else Ret JNull)
    JNull.

Definition get_inchikey_from_pubchem (cid : value) : result value :=
  try_except caught_by_adapter
    (resp <- requests_get (pubchem_cid_inchikey w cid) ;;
     if fst resp =? 200 then
       data <- snd resp ;;
       pt <- Py.getitem data "PropertyTable" ;;
       ps <- Py.getitem pt "Properties" ;;
       properties <- Py.getitem0 ps ;;
       Py.dict_get properties "InChIKey"
     else Ret JNull)
    JNull.

(** The dictionary [get_names_from_pubchem] returns. *)
Record Names := { names_iupac_name : value; names_common_name : value }.

(** First half of the [try] block: the synonyms request.  It gives the
    value of [common_name] when it completes. *)
Definition names_synonyms_part (cid : value) : result value :=
  resp <- requests_get (pubchem_cid_synonyms w cid) ;;
  if fst resp =? 200 then
    data <- snd resp ;;
    il <- Py.getitem data "InformationList" ;;
    info <- Py.getitem il "Information" ;;
    info0 <- Py.getitem0 info ;;
    synonyms <- Py.getitem info0 "Synonym" ;;
    if Py.truthy synonyms then Py.getitem0 synonyms else Ret JNull
  else Ret JNull.

(** Second half: the IUPAC name request; it gives [iupac_name]. *)
Definition names_iupac_part (cid : value) : result value :=
  resp <- requests_get (pubchem_cid_iupac w cid) ;;
  if fst resp =? 200 then
    data <- snd resp ;;
    pt <- Py.getitem data "PropertyTable" ;;
    ps <- Py.getitem pt "Properties" ;;
    p0 <- Py.getitem0 ps ;;
    Py.getitem p0 "IUPACName"
  else Ret JNull.

(** Both requests sit in one [try]: an exception in the first half skips
    the second, a caught exception in the second keeps the common name
    already assigned. *)
Definition get_names_from_pubchem (cid : value) : result Names :=
  match names_synonyms_part cid with
  | Raise e =>
      if caught_by_adapter e
      then Ret {| names_iupac_name := JNull; names_common_name := JNull |}
      else Raise e
  | Ret common_name =>
      match names_iupac_part cid with
      | Raise e =>
          if caught_by_adapter e
          then Ret {| names_iupac_name := JNull;
                      names_common_name := common_name |}
          else Raise e
      | Ret iupac_name =>
          Ret {| names_iupac_name := iupac_name;
                 names_common_name := common_name |}
      end
  end.

Definition get_smiles_from_chembl (identifier : string) : result value :=
  try_except caught_by_adapter
    (resp <- requests_get (chembl_molecule_search w identifier) ;;
     if fst resp =? 200 then
       data <- snd resp ;;
       (* data and 'molecules' in data and len(data['molecules']) > 0 *)
       cond <-
         (if Py.truthy data then
            has <- Py.contains "molecules" data ;;
            if (has : bool) then
              ms <- Py.getitem data "molecules" ;;
              n <- Py.len ms ;;
              Ret (0 <? n)
            else Ret false
          else Ret false) ;;
       if (cond : bool) then
         ms <- Py.getitem data "molecules" ;;
         molecule <- Py.getitem0 ms ;;
         (* 'molecule_structures' in molecule and ... is not None and
            'canonical_smiles' in molecule['molecule_structures'] *)
         cond2 <-
           (has <- Py.contains "molecule_structures" molecule ;;
            if (has : bool) then
              st <- Py.getitem molecule "molecule_structures" ;;
              if Py.is_None st then Ret false
              else Py.contains "canonical_smiles" st
            else Ret false) ;;
         if (cond2 : bool) then
           st <- Py.getitem molecule "molecule_structures" ;;
           Py.getitem st "canonical_smiles"
         else Ret JNull
       else Ret JNull
     else Ret JNull)
    JNull.

(** [generate_2d_structure_svg], lines 127-139. *)
Definition generate_2d_structure_svg (smiles : value) : value :=
  match MolFromSmiles w smiles with
  | Ret (Some mol) =>
      match DrawMoleculeSVG w mol with
      | Ret svg => svg
      | Raise _ => JNull
      end
  | _ => JNull
  end.

End Adapters.

(* ================================================================== *)
(** ** The orchestrator's state (normalize_compound.py, lines 279-295) *)

(** The text of a link.  An f-string is kept as its literal prefix and the
    value formatted into it. *)
Inductive url_text :=
| UrlLiteral (s : string)
| UrlFormat (prefix : string) (v : value)
| UrlQuoted (prefix : string) (s : string)   (* urllib.parse.quote(s) *)
| UrlValue (v : value).

(** One entry of [sources]: [{'db_name': ..., 'url': ...}]. *)
Record Source := { db_name : string; url : url_text }.

(** [add_source], lines 292-295: append unless an entry of that name is
    already there. *)
Definition add_source (db_name0 : string) (url0 : url_text)
    (sources : list Source) : list Source :=
  if negb (existsb (fun s => String.eqb (db_name s) db_name0) sources)
  then sources ++ [{| db_name := db_name0; url := url0 |}]
  else sources.

(** The local variables of [get_compound_data]. *)
Module Locals.
Record t := {
  smiles : value;
  iupac_name : value;
  common_name : value;
  sources : list Source;
  pubchem_cid : value;
  inchi : value;
  inchi_key : value;
  structure_2d_svg : value;
  molecular_formula : value;
  molecular_weight : value;
  smiles_normalized : value;
  fingerprint : value;
  current_pubchem_cid : value
}.

Definition init : t :=
  {| smiles := JNull; iupac_name := JNull; common_name := JNull;
     sources := []; pubchem_cid := JNull; inchi := JNull;
     inchi_key := JNull; structure_2d_svg := JNull;
     molecular_formula := JNull; molecular_weight := JNull;
     smiles_normalized := JNull; fingerprint := JNull;
     current_pubchem_cid := JNull |}.

(** One function per assignment [name = x]. *)
Definition set_smiles (x : value) (st : t) : t :=
  {| smiles := x; iupac_name := iupac_name st;
     common_name := common_name st; sources := sources st;
     pubchem_cid := pubchem_cid st; inchi := inchi st;
     inchi_key := inchi_key st; structure_2d_svg := structure_2d_svg st;
     molecular_formula := molecular_formula st;
     molecular_weight := molecular_weight st;
     smiles_normalized := smiles_normalized st;
     fingerprint := fingerprint st;
     current_pubchem_cid := current_pubchem_cid st |}.

Definition set_iupac_name (x : value) (st : t) : t :=
  {| smiles := smiles st; iupac_name := x; common_name := common_name st;
     sources := sources st; pubchem_cid := pubchem_cid st;
     inchi := inchi st; inchi_key := inchi_key st;
     structure_2d_svg := structure_2d_svg st;
     molecular_formula := molecular_formula st;
     molecular_weight := molecular_weight st;
     smiles_normalized := smiles_normalized st;
     fingerprint := fingerprint st;
     current_pubchem_cid := current_pubchem_cid st |}.

Definition set_common_name (x : value) (st : t) : t :=
  {| smiles := smiles st; iupac_name := iupac_name st; common_name := x;
     sources := sources st; pubchem_cid := pubchem_cid st;
     inchi := inchi st; inchi_key := inchi_key st;
     structure_2d_svg := structure_2d_svg st;
     molecular_formula := molecular_formula st;
     molecular_weight := molecular_weight st;
     smiles_normalized := smiles_normalized st;
     fingerprint := fingerprint st;
     current_pubchem_cid := current_pubchem_cid st |}.

Definition set_sources (x : list Source) (st : t) : t :=
  {| smiles := smiles st; iupac_name := iupac_name st;
     common_name := common_name st; sources := x;
     pubchem_cid := pubchem_cid st; inchi := inchi st;
     inchi_key := inchi_key st; structure_2d_svg := structure_2d_svg st;
     molecular_formula := molecular_formula st;
     molecular_weight := molecular_weight st;
     smiles_normalized := smiles_normalized st;
     fingerprint := fingerprint st;
     current_pubchem_cid := current_pubchem_cid st |}.

Definition set_pubchem_cid (x : value) (st : t) : t :=
  {| smiles := smiles st; iupac_name := iupac_name st;
     common_name := common_name st; sources := sources st;
     pubchem_cid := x; inchi := inchi st; inchi_key := inchi_key st;
     structure_2d_svg := structure_2d_svg st;
     molecular_formula := molecular_formula st;
     molecular_weight := molecular_weight st;
     smiles_normalized := smiles_normalized st;
     fingerprint := fingerprint st;
     current_pubchem_cid := current_pubchem_cid st |}.

Definition set_inchi (x : value) (st : t) : t :=
  {| smiles := smiles st; iupac_name := iupac_name st;
     common_name := common_name st; sources := sources st;
     pubchem_cid := pubchem_cid st; inchi := x;
     inchi_key := inchi_key st; structure_2d_svg := structure_2d_svg st;
     molecular_formula := molecular_formula st;
     molecular_weight := molecular_weight st;
     smiles_normalized := smiles_normalized st;
     fingerprint := fingerprint st;
     current_pubchem_cid := current_pubchem_cid st |}.

Definition set_inchi_key (x : value) (st : t) : t :=
  {| smiles := smiles st; iupac_name := iupac_name st;
     common_name := common_name st; sources := sources st;
     pubchem_cid := pubchem_cid st; inchi := inchi st; inchi_key := x;
     structure_2d_svg := structure_2d_svg st;
     molecular_formula := molecular_formula st;
     molecular_weight := molecular_weight st;
     smiles_normalized := smiles_normalized st;
     fingerprint := fingerprint st;
     current_pubchem_cid := current_pubchem_cid st |}.

Definition set_structure_2d_svg (x : value) (st : t) : t :=
  {| smiles := smiles st; iupac_name := iupac_name st;
     common_name := common_name st; sources := sources st;
     pubchem_cid := pubchem_cid st; inchi := inchi st;
     inchi_key := inchi_key st; structure_2d_svg := x;
     molecular_formula := molecular_formula st;
     molecular_weight := molecular_weight st;
     smiles_normalized := smiles_normalized st;
     fingerprint := fingerprint st;
     current_pubchem_cid := current_pubchem_cid st |}.

Definition set_molecular_formula (x : value) (st : t) : t :=
  {| smiles := smiles st; iupac_name := iupac_name st;
     common_name := common_name st; sources := sources st;
     pubchem_cid := pubchem_cid st; inchi := inchi st;
     inchi_key := inchi_key st; structure_2d_svg := structure_2d_svg st;
     molecular_formula := x; molecular_weight := molecular_weight st;
     smiles_normalized := smiles_normalized st;
     fingerprint := fingerprint st;
     current_pubchem_cid := current_pubchem_cid st |}.

Definition set_molecular_weight (x : value) (st : t) : t :=
  {| smiles := smiles st; iupac_name := iupac_name st;
     common_name := common_name st; sources := sources st;
     pubchem_cid := pubchem_cid st; inchi := inchi st;
     inchi_key := inchi_key st; structure_2d_svg := structure_2d_svg st;
     molecular_formula := molecular_formula st; molecular_weight := x;
     smiles_normalized := smiles_normalized st;
     fingerprint := fingerprint st;
     current_pubchem_cid := current_pubchem_cid st |}.

Definition set_smiles_normalized (x : value) (st : t) : t :=
  {| smiles := smiles st; iupac_name := iupac_name st;
     common_name := common_name st; sources := sources st;
     pubchem_cid := pubchem_cid st; inchi := inchi st;
     inchi_key := inchi_key st; structure_2d_svg := structure_2d_svg st;
     molecular_formula := molecular_formula st;
     molecular_weight := molecular_weight st; smiles_normalized := x;
     fingerprint := fingerprint st;
     current_pubchem_cid := current_pubchem_cid st |}.

Definition set_fingerprint (x : value) (st : t) : t :=
  {| smiles := smiles st; iupac_name := iupac_name st;
     common_name := common_name st; sources := sources st;
     pubchem_cid := pubchem_cid st; inchi := inchi st;
     inchi_key := inchi_key st; structure_2d_svg := structure_2d_svg st;
     molecular_formula := molecular_formula st;
     molecular_weight := molecular_weight st;
     smiles_normalized := smiles_normalized st; fingerprint := x;
     current_pubchem_cid := current_pubchem_cid st |}.

Definition set_current_pubchem_cid (x : value) (st : t) : t :=
  {| smiles := smiles st; iupac_name := iupac_name st;
     common_name := common_name st; sources := sources st;
     pubchem_cid := pubchem_cid st; inchi := inchi st;
     inchi_key := inchi_key st; structure_2d_svg := structure_2d_svg st;
     molecular_formula := molecular_formula st;
     molecular_weight := molecular_weight st;
     smiles_normalized := smiles_normalized st;
     fingerprint := fingerprint st; current_pubchem_cid := x |}.

End Locals.

(* ================================================================== *)
(** ** The orchestrator (normalize_compound.py, lines 273-435) *)

(** The dictionary returned on success. *)
Record Compound := {
  smiles_raw : value;
  smiles_normalized : value;
  iupac_name : value;
  common_name : value;
  sources : list Source;
  pubchem_cid : value;
  structure_2d_svg : value;
  inchi : value;
  inchi_key : value;
  molecular_formula : value;
  molecular_weight : value;
  fingerprint : value
}.

(** What [get_compound_data] returns: [{"error": msg}] or the full
    dictionary. *)
Inductive Data :=
| ErrorDict (error : string)
| CompoundDict (c : Compound).

Section Orchestrator.
Variable w : World.
Variable identifier : string.

Definition add_source_st (n : string) (u : url_text) (st : Locals.t) :=
  Locals.set_sources (add_source n u (Locals.sources st)) st.

(** Lines 297-305: the identifier taken as a structure notation. *)
Definition parse_identifier_as_smiles (st : Locals.t) : Locals.t :=
  match MolFromSmiles w (JStr identifier) with
  | Ret (Some _) =>
      add_source_st "User-provided" (UrlLiteral "#")
        (Locals.set_smiles (JStr identifier) st)
  | _ => st
  end.

(** Lines 310-311. *)
Definition cid_from_digits (st : Locals.t) : Locals.t :=
  if looks_like_pubchem_cid identifier
  then Locals.set_current_pubchem_cid (JStr identifier) st
  else st.

(** Lines 314-319. *)
Definition cid_from_given_inchikey (st : Locals.t) : Locals.t :=
  if negb (Py.truthy (Locals.current_pubchem_cid st))
     && looks_like_inchikey identifier
  then
    let st1 := Locals.set_inchi_key (JStr identifier) st in
    match get_cid_from_inchikey w (Locals.inchi_key st1) with
    | Ret cid => Locals.set_current_pubchem_cid cid st1
    | Raise _ => st1
    end
  else st.

(** Lines 321-330: every assignment made before an exception stays. *)
Definition cid_from_smiles_inchikey (st : Locals.t) : Locals.t :=
  if Py.truthy (Locals.smiles st) then
    match MolFromSmiles w (Locals.smiles st) with
    | Ret (Some mol) =>
        match MolToInchi w mol with
        | Ret i =>
            let st1 := Locals.set_inchi i st in
            match InchiToInchiKey w i with
            | Ret k =>
                let st2 := Locals.set_inchi_key k st1 in
                match get_cid_from_inchikey w k with
                | Ret cid => Locals.set_current_pubchem_cid cid st2
                | Raise _ => st2
                end
            | Raise _ => st1
            end
        | Raise _ => st
        end
    | _ => st
    end
  else st.

(** Lines 332-333: this call is not inside a [try]. *)
Definition cid_from_name (st : Locals.t) : result Locals.t :=
  if negb (Py.truthy (Locals.current_pubchem_cid st)) then
    cid <- get_cid_from_pubchem w identifier ;;
    Ret (Locals.set_current_pubchem_cid cid st)
  else Ret st.

(** Lines 342-345. *)
Definition fetch_inchikey_by_cid (st : Locals.t) : result Locals.t :=
  if negb (Py.truthy (Locals.inchi_key st)) then
    fetched_inchi_key <- get_inchikey_from_pubchem w (Locals.pubchem_cid st) ;;
    if Py.truthy fetched_inchi_key
    then Ret (Locals.set_inchi_key fetched_inchi_key st)
    else Ret st
  else Ret st.

(** Lines 348-360: the names are requested inside the branch taken when
    the structure request gave something. *)
Definition fetch_smiles_and_names_by_cid (st : Locals.t) : result Locals.t :=
  pubchem_smiles <- get_smiles_from_pubchem w (Locals.pubchem_cid st) ;;
  if Py.truthy pubchem_smiles then
    let st1 :=
      if negb (Py.truthy (Locals.smiles st))
      then Locals.set_smiles pubchem_smiles st else st in
    names <- get_names_from_pubchem w (Locals.pubchem_cid st1) ;;
    let st2 :=
      if Py.truthy (names_iupac_name names)
      then Locals.set_iupac_name (names_iupac_name names) st1 else st1 in
    let st3 :=
      if Py.truthy (names_common_name names)
      then Locals.set_common_name (names_common_name names) st2 else st2 in
    Ret st3
  else Ret st.

(** Lines 335-360. *)
Definition pubchem_by_cid (st : Locals.t) : result Locals.t :=
  if Py.truthy (Locals.current_pubchem_cid st) then
    let st1 := Locals.set_pubchem_cid (Locals.current_pubchem_cid st) st in
    let st2 :=
      add_source_st "PubChem"
        (UrlFormat "https://pubchem.ncbi.nlm.nih.gov/compound/"
           (Locals.pubchem_cid st1)) st1 in
    st3 <- fetch_inchikey_by_cid st2 ;;
    fetch_smiles_and_names_by_cid st3
  else Ret st.

(** Lines 362-367. *)
Definition chembl_by_name (st : Locals.t) : result Locals.t :=
  chembl_smiles <- get_smiles_from_chembl w identifier ;;
  if Py.truthy chembl_smiles then
    let st1 :=
      if negb (Py.truthy (Locals.smiles st))
      then Locals.set_smiles chembl_smiles st else st in
    Ret (add_source_st "ChEMBL"
           (UrlQuoted
              "https://www.ebi.ac.uk/chembl/g/#search_results/all/query="
              identifier) st1)
  else Ret st.

(** Lines 369-379. *)
Definition depict_and_derive_inchi (st : Locals.t) : Locals.t :=
  if Py.truthy (Locals.smiles st) then
    let st1 :=
      Locals.set_structure_2d_svg
        (generate_2d_structure_svg w (Locals.smiles st)) st in
    match MolFromSmiles w (Locals.smiles st1) with
    | Ret (Some mol) =>
        match MolToInchi w mol with
        | Ret i =>
            let st2 := Locals.set_inchi i st1 in
            match InchiToInchiKey w i with
            | Ret k => Locals.set_inchi_key k st2
            | Raise _ => st2
            end
        | Raise _ => st1
        end
    | _ => st1
    end
  else st.

(** Lines 381-391. *)
Definition drugbank_via_unichem (st : Locals.t) : result Locals.t :=
  if Py.truthy (Locals.inchi_key st) then
    drugbank_url <- get_drugbank_url_from_inchikey w (Locals.inchi_key st) ;;
    if Py.truthy drugbank_url
    then Ret (add_source_st "DrugBank" (UrlValue drugbank_url) st)
    else Ret st
  else Ret st.

(** Lines 393-398. *)
Definition drugbank_via_pubchem (st : Locals.t) : result Locals.t :=
  if negb (existsb (fun s => String.eqb (db_name s) "DrugBank")
             (Locals.sources st))
     && Py.truthy (Locals.pubchem_cid st)
  then
    db_url_from_pubchem <-
      get_drugbank_url_from_pubchem_cid w (Locals.pubchem_cid st) ;;
    if Py.truthy db_url_from_pubchem
    then Ret (add_source_st "DrugBank" (UrlValue db_url_from_pubchem) st)
    else Ret st
  else Ret st.

(** Lines 400-408. *)
Definition formula_and_weight (st : Locals.t) : Locals.t :=
  if Py.truthy (Locals.smiles st) then
    match MolFromSmiles w (Locals.smiles st) with
    | Ret (Some mol) =>
        match CalcMolFormula w mol with
        | Ret f =>
            let st1 := Locals.set_molecular_formula f st in
            match CalcExactMolWt w mol with
            | Ret m => Locals.set_molecular_weight m st1
            | Raise _ => st1
            end
        | Raise _ => st
        end
    | _ => st
    end
  else st.

(** Lines 410-420: the molecule that is fingerprinted is parsed from the
    standardized notation. *)
Definition normalize_and_fingerprint (st : Locals.t) : Locals.t :=
  let st0 := Locals.set_fingerprint JNull
               (Locals.set_smiles_normalized JNull st) in
  if Py.truthy (Locals.smiles st0) then
    match standardize_smiles w (Locals.smiles st0) with
    | Ret n =>
        let st1 := Locals.set_smiles_normalized n st0 in
        match MolFromSmiles w (Locals.smiles_normalized st1) with
        | Ret (Some mol) =>
            match GetMorganFingerprintAsBitVect w mol 2 2048 with
            | Ret bits => Locals.set_fingerprint bits st1
            | Raise _ => st1
            end
        | _ => st1
        end
    | Raise _ => st0
    end
  else st0.

(** Lines 422-435. *)
Definition to_dict (st : Locals.t) : Compound :=
  {| smiles_raw := Locals.smiles st;
     smiles_normalized := Locals.smiles_normalized st;
     iupac_name := Locals.iupac_name st;
     common_name := Locals.common_name st;
     sources := Locals.sources st;
     pubchem_cid := Locals.pubchem_cid st;
     structure_2d_svg := Locals.structure_2d_svg st;
     inchi := Locals.inchi st;
     inchi_key := Locals.inchi_key st;
     molecular_formula := Locals.molecular_formula st;
     molecular_weight := Locals.molecular_weight st;
     fingerprint := Locals.fingerprint st |}.

(** The state once a working registry id has been looked for
    (lines 279-333). *)
Definition resolve_cid : result Locals.t :=
  cid_from_name
    (cid_from_smiles_inchikey
       (cid_from_given_inchikey
          (cid_from_digits
             (parse_identifier_as_smiles Locals.init)))).

(** Lines 279-420. *)
Definition run_pipeline : result Locals.t :=
  st2 <- resolve_cid ;;
  st4 <- pubchem_by_cid st2 ;;
  st5 <- chembl_by_name st4 ;;
  st7 <- drugbank_via_unichem (depict_and_derive_inchi st5) ;;
  st7b <- drugbank_via_pubchem st7 ;;
  Ret (normalize_and_fingerprint (formula_and_weight st7b)).

Definition get_compound_data : result Data :=
  if PyStr.is_empty identifier
  then Ret (ErrorDict "Identifier cannot be empty.")
  else
    st <- run_pipeline ;;
    Ret (CompoundDict (to_dict st)).

End Orchestrator.

(* ================================================================== *)
(** ** The catalog: the [compounds] table *)

(** A stored SQLite value.  The schema file is not among the sources:
    values are kept in the storage class they were bound with. *)
Inductive sqlval :=
| SqlNull
| SqlInteger (n : Z)
| SqlReal (bits : Z)
| SqlText (s : string).

Definition sqlval_eqb (a b : sqlval) : bool :=
  match a, b with
  | SqlNull, SqlNull => true
  | SqlInteger x, SqlInteger y => x =? y
  | SqlReal x, SqlReal y => x =? y
  | SqlText x, SqlText y => String.eqb x y
  | _, _ => false
  end.

Definition sql_is_null (a : sqlval) : bool :=
  match a with SqlNull => true | _ => false end.

(** [column = ?]: never true on NULL. *)
Definition sql_eq (column param : sqlval) : bool :=
  negb (sql_is_null column) && sqlval_eqb column param.

(** [column = ? COLLATE NOCASE]: text compared after folding A-Z. *)
Definition sql_eq_nocase (column param : sqlval) : bool :=
  match column, param with
  | SqlText x, SqlText y => String.eqb (PyStr.lower x) (PyStr.lower y)
  | _, _ => sql_eq column param
  end.

Record Row := {
  compound_id : Z;
  row_iupac_name : sqlval;
  row_common_name : sqlval;
  row_smiles_raw : sqlval;
  row_smiles_normalized : sqlval;
  row_inchi : sqlval;
  row_inchi_key : sqlval;
  row_molecular_formula : sqlval;
  row_molecular_weight : sqlval;
  row_fingerprint : sqlval;
  row_structure_2d_svg : sqlval;
  (* the [metadata] column holds json.dumps(sources); the list is kept *)
  row_metadata : list Source
}.

(** The table, in the order a scan visits it. *)
Definition Catalog := list Row.

(** Errors of the [sqlite3] module.  [SqliteError] stands for the
    subclasses of [sqlite3.Error]; binding an integer that does not fit 64
    bits raises the built-in [OverflowError], which is not one of them. *)
Inductive db_exn := SqliteError | OverflowError.

Inductive db_result (A : Type) :=
| DbRaise (e : db_exn)
| DbRet (a : A).
Arguments DbRaise {A} e.
Arguments DbRet {A} a.

Definition db_bind {A B} (m : db_result A) (k : A -> db_result B) :=
  match m with
  | DbRaise e => DbRaise e
  | DbRet a => k a
  end.

Notation "x <-- m ;; k" := (db_bind m (fun x => k))
  (at level 61, m at next level, right associativity) : py_scope.

(** How [sqlite3] adapts a Python value passed as a parameter. *)
Definition bind_param (v : value) : db_result sqlval :=
  match v with
  | JNull => DbRet SqlNull
  | JBool b => DbRet (SqlInteger (if b then 1 else 0))
  | JNum n =>
      if (- 2 ^ 63 <=? n) && (n <? 2 ^ 63) then DbRet (SqlInteger n)
      else DbRaise OverflowError
  | JFloat bits => DbRet (SqlReal bits)
  | JStr s => DbRet (SqlText s)
  | JList _ | JObj _ => DbRaise SqliteError
  end.

(** [cursor.execute("SELECT compound_id FROM compounds WHERE col = ?",
    (v,))] followed by [cursor.fetchone()]. *)
Definition select_one (eq : sqlval -> sqlval -> bool) (col : Row -> sqlval)
    (v : value) (catalog : Catalog) : db_result (option Row) :=
  p <-- bind_param v ;;
  DbRet (find (fun r => eq (col r) p) catalog).

(** [data.get(key)] on what [get_compound_data] returned. *)
Module Get.
Definition field (f : Compound -> value) (data : Data) : value :=
  match data with
  | ErrorDict _ => JNull
  | CompoundDict c => f c
  end.
Definition sources_of (data : Data) : list Source :=
  match data with
  | ErrorDict _ => []
  | CompoundDict c => sources c
  end.
Definition has_error (data : Data) : bool :=
  match data with
  | ErrorDict _ => true
  | CompoundDict _ => false
  end.
End Get.

Definition list_truthy {A} (l : list A) : bool :=
  match l with [] => false | _ => true end.

(* ================================================================== *)
(** ** The duplicate check and the insert (app.py, lines 89-152) *)

Inductive DedupStep := ByInchiKey | ByNormalizedSmiles | ByRawSmiles | ByCommonName.

Definition is_some {A} (o : option A) : bool :=
  match o with Some _ => true | None => false end.

(** One numbered block of the check: guarded by [not existing_compound and
    data.get(key)], it runs its query and returns from the route on a hit. *)
Definition dedup_block (step : DedupStep) (eq : sqlval -> sqlval -> bool)
    (col : Row -> sqlval) (v : value) (catalog : Catalog)
    (next : db_result (option (DedupStep * Row)))
    : db_result (option (DedupStep * Row)) :=
  if Py.truthy v then
    existing_compound <-- select_one eq col v catalog ;;
    match existing_compound with
    | Some r => DbRet (Some (step, r))
    | None => next
    end
  else next.

(** Lines 91-123. *)
Definition find_existing (data : Data) (catalog : Catalog)
    : db_result (option (DedupStep * Row)) :=
  dedup_block ByInchiKey sql_eq row_inchi_key
    (Get.field inchi_key data) catalog
  (dedup_block ByNormalizedSmiles sql_eq row_smiles_normalized
    (Get.field smiles_normalized data) catalog
  (dedup_block ByRawSmiles sql_eq row_smiles_raw
    (Get.field smiles_raw data) catalog
  (dedup_block ByCommonName sql_eq_nocase row_common_name
    (Get.field common_name data) catalog
  (DbRet None)))).

(** A key ([compound_id], the rowid of the table) is a signed 64-bit
    integer. *)
Definition is_rowid (n : Z) : bool := (- 2 ^ 63 <=? n) && (n <? 2 ^ 63).

(** The key SQLite gives a row inserted without one: 1 in an empty table,
    otherwise one more than the largest key present. *)
Definition next_id (catalog : Catalog) : Z :=
  match map compound_id catalog with
  | [] => 1
  | id :: ids => 1 + fold_right Z.max id ids
  end.

(** Lines 125-146.  The values are bound first; the key is chosen when the
    statement runs.  When the largest key is 2^63-1 there is no next key:
    a table declared AUTOINCREMENT fails with SQLITE_FULL (an
    [sqlite3.OperationalError]); another table tries keys at random and
    fails in the same way when it finds none unused.  The random search is
    not modelled: the insert fails there. *)
Definition insert_compound (data : Data) (catalog : Catalog)
    : db_result Catalog :=
  a <-- bind_param (Get.field iupac_name data) ;;
  b <-- bind_param (Get.field common_name data) ;;
  c <-- bind_param (Get.field smiles_raw data) ;;
  d <-- bind_param (Get.field smiles_normalized data) ;;
  e <-- bind_param (Get.field inchi data) ;;
  f <-- bind_param (Get.field inchi_key data) ;;
  g <-- bind_param (Get.field molecular_formula data) ;;
  h <-- bind_param (Get.field molecular_weight data) ;;
  i <-- bind_param (Get.field fingerprint data) ;;
  j <-- bind_param (Get.field structure_2d_svg data) ;;
  if is_rowid (next_id catalog) then
    DbRet (catalog ++
           [{| compound_id := next_id catalog;
               row_iupac_name := a; row_common_name := b;
               row_smiles_raw := c; row_smiles_normalized := d;
               row_inchi := e; row_inchi_key := f;
               row_molecular_formula := g; row_molecular_weight := h;
               row_fingerprint := i; row_structure_2d_svg := j;
               row_metadata := Get.sources_of data |}])%list
  else DbRaise SqliteError.

(** How a POST to [/upload] ends, up to the end of the [try] block of
    lines 89-152 (the redirect chosen after an insert is not modelled).
    The database connection is taken to succeed. *)
Inductive Outcome :=
| IdentifierRequired                             (* lines 58-60 *)
| ProcessingFailed (e : exn)                     (* lines 65-68 *)
| IdentifierError (msg : string)                 (* lines 74-76 *)
| Unresolvable                                   (* lines 79-82 *)
| AlreadyExists (step : DedupStep) (id : Z)      (* lines 99, 107, 115, 123 *)
| Added                                          (* line 147 *)
| DatabaseError                                  (* lines 148-149 *)
| Unhandled (e : db_exn).

(** Lines 89-152. *)
Definition check_and_insert (data : Data) (catalog : Catalog)
    : Outcome * Catalog :=
  match
    (existing <-- find_existing data catalog ;;
     match existing with
     | Some (step, r) => DbRet (AlreadyExists step (compound_id r), catalog)
     | None =>
         catalog' <-- insert_compound data catalog ;;
         DbRet (Added, catalog')
     end)
  with
  | DbRet x => x
  | DbRaise SqliteError => (DatabaseError, catalog)
  | DbRaise OverflowError => (Unhandled OverflowError, catalog)
  end.

(** Lines 55-152 of [upload], for a POST whose form field is
    [form_identifier]. *)
Definition upload (w : World) (catalog : Catalog) (form_identifier : string)
    : Outcome * Catalog :=
  let identifier := PyStr.strip form_identifier in
  if PyStr.is_empty identifier then (IdentifierRequired, catalog)
  else
    match get_compound_data w identifier with
    | Raise e => (ProcessingFailed e, catalog)
    | Ret data =>
        if Get.has_error data
           && negb (Py.truthy (Get.field smiles_raw data))
           && negb (list_truthy (Get.sources_of data))
        then
          (IdentifierError
             match data with ErrorDict m => m | _ => "" end, catalog)
        else if negb (Py.truthy (Get.field smiles_raw data))
                && negb (list_truthy (Get.sources_of data))
        then (Unresolvable, catalog)
        else check_and_insert data catalog
    end.

(* ================================================================== *)
(** ** The maintenance script (remove_duplicates.py) *)

Fixpoint insert_sorted (x : Z) (l : list Z) : list Z :=
  match l with
  | [] => [x]
  | y :: r => if x <=? y then x :: l else y :: insert_sorted x r
  end.

(** [ORDER BY compound_id] *)
Definition order_by_id (l : list Z) : list Z :=
  fold_right insert_sorted [] l.

(** The keys of the groups, one per distinct value of the column. *)
Fixpoint group_keys (l : list sqlval) : list sqlval :=
  match l with
  | [] => []
  | k :: r => k :: filter (fun k' => negb (sqlval_eqb k k')) (group_keys r)
  end.

(** [COUNT(inchi_key)] within the group of [k]: NULL is not counted. *)
Definition count_key (k : sqlval) (catalog : Catalog) : Z :=
  Z.of_nat (List.length
    (filter (fun r => negb (sql_is_null (row_inchi_key r))
                      && sqlval_eqb (row_inchi_key r) k) catalog)).

(** Lines 8-14: [GROUP BY inchi_key HAVING COUNT(inchi_key) > 1]. *)
Definition duplicate_keys (catalog : Catalog) : list sqlval :=
  filter (fun k => 1 <? count_key k catalog)
    (group_keys (map row_inchi_key catalog)).

(** Lines 24-47, the body of the loop for one key. *)
Definition delete_extra_rows (catalog : Catalog) (key : sqlval) : Catalog :=
  let compound_ids :=
    order_by_id
      (map compound_id
         (filter (fun r => sql_eq (row_inchi_key r) key) catalog)) in
  let ids_to_delete := tl compound_ids in
  if list_truthy ids_to_delete then
    filter (fun r => negb (existsb (Z.eqb (compound_id r)) ids_to_delete))
      catalog
  else catalog.

Definition remove_duplicates (catalog : Catalog) : Catalog :=
  let keys := duplicate_keys catalog in
  if negb (list_truthy keys) then catalog
  else fold_left delete_extra_rows keys catalog.

(* ================================================================== *)
(** ** Definitions used by the statements *)

(** The shape of a standardized key, in the words of the specification:
    three groups of upper-case letters of lengths 14, 10 and 1, separated
    by hyphens. *)
Definition KeyShape (s : string) : Prop :=
  exists g1 g2 g3 : string,
    s = g1 ++ "-" ++ g2 ++ "-" ++ g3
    /\ String.length g1 = 14%nat /\ String.length g2 = 10%nat
    /\ String.length g3 = 1%nat
    /\ PyStr.all_chars PyStr.is_AZ g1 = true
    /\ PyStr.all_chars PyStr.is_AZ g2 = true
    /\ PyStr.all_chars PyStr.is_AZ g3 = true.

(** A decimal digit, "0" to "9". *)
Definition is_09 (c : ascii) : bool :=
  let n := PyStr.code c in (48 <=? n) && (n <=? 57).

(** A superscript two, three or one: a character that is no decimal digit
    and that [str.isdigit] accepts all the same. *)
Definition is_superscript_digit (c : ascii) : bool :=
  let n := PyStr.code c in (n =? 178) || (n =? 179) || (n =? 185).

(** A string that consists only of digits, in the words of the
    specification: it has a character and all its characters are decimal
    digits. *)
Definition OnlyDigits (s : string) : Prop :=
  s <> "" /\ PyStr.all_chars is_09 s = true.

Definition only_digitsb (s : string) : bool :=
  negb (PyStr.is_empty s) && PyStr.all_chars is_09 s.

(** A string of decimal and superscript digits that has a superscript
    digit in it. *)
Definition SuperscriptDigits (s : string) : Prop :=
  PyStr.all_chars (fun c => is_09 c || is_superscript_digit c) s = true
  /\ PyStr.all_chars is_09 s = false.

(** The superscript two, as a text. *)
Definition superscript_two : string := String (ascii_of_nat 178) "".

(** The three groups and two hyphens, with nothing after them. *)
Definition key_shapeb (s : string) : bool :=
  match Regex.key_groups s with
  | Some rest => PyStr.is_empty rest
  | None => false
  end.

(** The classifier as the specification words it: key shape first, then
    digits, then everything else. *)
Definition classify_as_specified (text : string) : IdentifierKind :=
  if key_shapeb text then StandardizedKey
  else if only_digitsb text then RegistryNumber
  else FreeTextOrStructure.

(** A key with a blank in front of it. *)
Definition padded_key : string := " BSYNRYMUTXBXSQ-UHFFFAOYSA-N".

(** The fields that are computed from the structure notation. *)
Definition Derived_null (st : Locals.t) : Prop :=
  Locals.inchi st = JNull /\ Locals.structure_2d_svg st = JNull
  /\ Locals.molecular_formula st = JNull /\ Locals.molecular_weight st = JNull
  /\ Locals.fingerprint st = JNull /\ Locals.smiles_normalized st = JNull.

(** Where the short key of a record without a structure notation comes
    from: there is none; or the identifier has the key shape once the white
    space around it is stripped, and the key is the identifier as it was
    given; or the record has the registry id [cid], and the key is the one
    PubChem returns for that id. *)
Definition Key_origin (w : World) (identifier : string) (cid k : value)
    : Prop :=
  k = JNull
  \/ (KeyShape (PyStr.strip identifier) /\ k = JStr identifier)
  \/ (Py.truthy cid = true /\ Py.truthy k = true
      /\ get_inchikey_from_pubchem w cid = Ret k).

(** A step that ends without a structure notation began without one and
    keeps the derived fields empty. *)
Definition keeps_null (st st' : Locals.t) : Prop :=
  Locals.smiles st' = JNull ->
  Locals.smiles st = JNull /\ (Derived_null st -> Derived_null st').

(** The key and the registry id before the step that queries PubChem by
    registry id: no registry id is stored yet, and the key is missing or
    is the identifier, which then looks like a key. *)
Definition Key_given (identifier : string) (st : Locals.t) : Prop :=
  Locals.pubchem_cid st = JNull
  /\ (Locals.inchi_key st = JNull
      \/ (looks_like_inchikey identifier = true
          /\ Locals.inchi_key st = JStr identifier)).

(** A step after that one changes the key and the registry id only when
    there is a structure notation. *)
Definition same_key (st st' : Locals.t) : Prop :=
  Locals.smiles st' = JNull ->
  Locals.pubchem_cid st' = Locals.pubchem_cid st
  /\ Locals.inchi_key st' = Locals.inchi_key st.

(** The first candidate that is truthy, in the order given. *)
Definition first_truthy (candidates : list value) : value :=
  match find Py.truthy candidates with
  | Some v => v
  | None => JNull
  end.

(** What each of the three places gives for the structure notation.
    Step 1: the identifier itself, when RDKit parses it as a structure
    notation. *)
Definition structure_from_user (w : World) (identifier : string) : value :=
  match MolFromSmiles w (JStr identifier) with
  | Ret (Some _) => JStr identifier
  | _ => JNull
  end.

Definition structure_by_registry_id (w : World) (identifier : string)
    : result value :=
  bind (resolve_cid w identifier) (fun st =>
  if Py.truthy (Locals.current_pubchem_cid st)
  then get_smiles_from_pubchem w (Locals.current_pubchem_cid st)
  else Ret JNull).

Definition structure_from_secondary (w : World) (identifier : string)
    : result value :=
  get_smiles_from_chembl w identifier.

(** The normalized notation and the fingerprint as the specification has
    them: the structure notation is standardized; the standardized
    notation is parsed and the 2048-bit Morgan fingerprint of radius 2 of
    that molecule is taken.  Where a step fails, nothing is produced from
    there on. *)
Definition normalized_form (w : World) (smiles : value) : value :=
  match standardize_smiles w smiles with
  | Ret n => n
  | Raise _ => JNull
  end.

Definition fingerprint_of_normalized (w : World) (smiles : value) : value :=
  match standardize_smiles w smiles with
  | Ret n =>
      match MolFromSmiles w n with
      | Ret (Some mol) =>
          match GetMorganFingerprintAsBitVect w mol 2 2048 with
          | Ret fp => fp
          | Raise _ => JNull
          end
      | _ => JNull
      end
  | Raise _ => JNull
  end.

(** A sequence of calls of [add_source]. *)
Definition add_all (calls : list (string * url_text)) (l : list Source)
    : list Source :=
  fold_left (fun acc call => add_source (fst call) (snd call) acc) calls l.

Definition names_of (l : list Source) : list string := map db_name l.

(** The links carry pairwise different names. *)
Definition links_ok (st : Locals.t) : Prop :=
  NoDup (names_of (Locals.sources st)).

(* ================================================================== *)
(** ** Sample worlds *)

(** No service answers and nothing parses as a structure. *)
Definition offline : World :=
  {| pubchem_name_cids := fun _ => GetRaises ConnectionError;
     pubchem_inchikey_cids := fun _ => GetRaises ConnectionError;
     pubchem_cid_smiles := fun _ => GetRaises ConnectionError;
     pubchem_cid_inchikey := fun _ => GetRaises ConnectionError;
     pubchem_cid_synonyms := fun _ => GetRaises ConnectionError;
     pubchem_cid_iupac := fun _ => GetRaises ConnectionError;
     chembl_molecule_search := fun _ => GetRaises ConnectionError;
     get_drugbank_url_from_inchikey := fun _ => Ret JNull;
     get_drugbank_url_from_pubchem_cid := fun _ => Ret JNull;
     MolFromSmiles := fun _ => Ret None;
     MolToInchi := fun _ => Raise OtherException;
     InchiToInchiKey := fun _ => Raise OtherException;
     DrawMoleculeSVG := fun _ => Raise OtherException;
     CalcMolFormula := fun _ => Raise OtherException;
     CalcExactMolWt := fun _ => Raise OtherException;
     standardize_smiles := fun _ => Raise OtherException;
     GetMorganFingerprintAsBitVect := fun _ _ _ => Raise OtherException |}.

(** [offline] with the PubChem endpoints replaced. *)
Definition with_pubchem (name_cids : string -> http)
    (cid_smiles cid_inchikey cid_synonyms cid_iupac : value -> http)
    : World :=
  {| pubchem_name_cids := name_cids;
     pubchem_inchikey_cids := pubchem_inchikey_cids offline;
     pubchem_cid_smiles := cid_smiles;
     pubchem_cid_inchikey := cid_inchikey;
     pubchem_cid_synonyms := cid_synonyms;
     pubchem_cid_iupac := cid_iupac;
     chembl_molecule_search := chembl_molecule_search offline;
     get_drugbank_url_from_inchikey := get_drugbank_url_from_inchikey offline;
     get_drugbank_url_from_pubchem_cid :=
       get_drugbank_url_from_pubchem_cid offline;
     MolFromSmiles := MolFromSmiles offline;
     MolToInchi := MolToInchi offline;
     InchiToInchiKey := InchiToInchiKey offline;
     DrawMoleculeSVG := DrawMoleculeSVG offline;
     CalcMolFormula := CalcMolFormula offline;
     CalcExactMolWt := CalcExactMolWt offline;
     standardize_smiles := standardize_smiles offline;
     GetMorganFingerprintAsBitVect := GetMorganFingerprintAsBitVect offline |}.

Definition unavailable (_ : value) : http := GetRaises ConnectionError.
Definition ok (body : value) : http := Response 200 (Ret body).

(** PubChem answers the name search with status 200 and an empty list of
    ids: [{"IdentifierList": {"CID": []}}]. *)
Definition empty_cid_list_world : World :=
  with_pubchem
    (fun _ => ok (JObj [("IdentifierList", JObj [("CID", JList [])])]))
    unavailable unavailable unavailable unavailable.

(** PubChem answers the name search with status 200 and a body that is a
    JSON list: [[]]. *)
Definition list_body_world : World :=
  with_pubchem (fun _ => ok (JList []))
    unavailable unavailable unavailable unavailable.

(** PubChem answers the synonyms request with status 200 and no
    information entry: [{"InformationList": {"Information": []}}]. *)
Definition empty_information_world : World :=
  with_pubchem (fun _ => GetRaises ConnectionError)
    unavailable unavailable
    (fun _ => ok (JObj [("InformationList", JObj [("Information", JList [])])]))
    unavailable.

(** PubChem gives the names of compound 2244; the requests for its
    structure and for its key fail in transport. *)
Definition names_without_structure_world : World :=
  with_pubchem (fun _ => GetRaises ConnectionError)
    unavailable unavailable
    (fun _ => ok (JObj [("InformationList",
                    JObj [("Information",
                      JList [JObj [("CID", JNum 2244);
                                   ("Synonym", JList [JStr "aspirin"])]])])]))
    (fun _ => ok (JObj [("PropertyTable",
                    JObj [("Properties",
                      JList [JObj [("CID", JNum 2244);
                                   ("IUPACName",
                                    JStr "2-acetyloxybenzoic acid")]])])])).

Fixpoint zero_bits (n : nat) : string :=
  match n with
  | O => EmptyString
  | S k => String "0" (zero_bits k)
  end.

(** Three ways of writing ethanol parse; PubChem knows the compound as
    702 and writes it "CCO", ChEMBL writes it "C(O)C". *)
Definition ethanol_world : World :=
  {| pubchem_name_cids := fun _ => Response 404 (Ret (JObj []));
     pubchem_inchikey_cids := fun _ =>
       ok (JObj [("IdentifierList", JObj [("CID", JList [JNum 702])])]);
     pubchem_cid_smiles := fun _ =>
       ok (JObj [("PropertyTable",
             JObj [("Properties",
               JList [JObj [("CID", JNum 702);
                            ("ConnectivitySMILES", JStr "CCO")]])])]);
     pubchem_cid_inchikey := fun _ =>
       ok (JObj [("PropertyTable",
             JObj [("Properties",
               JList [JObj [("CID", JNum 702);
                            ("InChIKey",
                             JStr "LFQSCWFLJHTTHZ-UHFFFAOYSA-N")]])])]);
     pubchem_cid_synonyms := fun _ =>
       ok (JObj [("InformationList",
             JObj [("Information",
               JList [JObj [("CID", JNum 702);
                            ("Synonym",
                             JList [JStr "ethanol";
                                    JStr "ethyl alcohol"])]])])]);
     pubchem_cid_iupac := fun _ =>
       ok (JObj [("PropertyTable",
             JObj [("Properties",
               JList [JObj [("CID", JNum 702);
                            ("IUPACName", JStr "ethanol")]])])]);
     chembl_molecule_search := fun _ =>
       ok (JObj [("molecules",
             JList [JObj [("molecule_chembl_id", JStr "CHEMBL545");
                          ("molecule_structures",
                           JObj [("canonical_smiles", JStr "C(O)C")])]])]);
     get_drugbank_url_from_inchikey := fun _ =>
       Ret (JStr "https://go.drugbank.com/drugs/DB00898");
     get_drugbank_url_from_pubchem_cid := fun _ => Ret JNull;
     MolFromSmiles := fun v =>
       if Py.value_is_str "CCO" v then Ret (Some (MolHandle 1))
       else if Py.value_is_str "OCC" v then Ret (Some (MolHandle 2))
       else if Py.value_is_str "C(O)C" v then Ret (Some (MolHandle 3))
       else Ret None;
     MolToInchi := fun _ => Ret (JStr "InChI=1S/C2H6O/c1-2-3/h3H,2H2,1H3");
     InchiToInchiKey := fun _ => Ret (JStr "LFQSCWFLJHTTHZ-UHFFFAOYSA-N");
     DrawMoleculeSVG := fun _ => Ret (JStr "<svg></svg>");
     CalcMolFormula := fun _ => Ret (JStr "C2H6O");
     CalcExactMolWt := fun _ => Ret (JFloat 4631676633722195091);
     standardize_smiles := fun _ => Ret (JStr "CCO");
     GetMorganFingerprintAsBitVect := fun _ _ nBits =>
       Ret (JStr (zero_bits (Z.to_nat nBits))) |}.

(** The record a resolution returns, when it returns one. *)
Definition resolved (w : World) (identifier : string) : Compound :=
  match get_compound_data w identifier with
  | Ret (CompoundDict c) => c
  | _ =>
      {| smiles_raw := JNull; smiles_normalized := JNull;
         iupac_name := JNull; common_name := JNull; sources := [];
         pubchem_cid := JNull; structure_2d_svg := JNull; inchi := JNull;
         inchi_key := JNull; molecular_formula := JNull;
         molecular_weight := JNull; fingerprint := JNull |}
  end.

(** The record returned for a key when no service answers. *)
Definition key_only_record : Compound :=
  {| smiles_raw := JNull; smiles_normalized := JNull;
     iupac_name := JNull; common_name := JNull; sources := [];
     pubchem_cid := JNull; structure_2d_svg := JNull; inchi := JNull;
     inchi_key := JStr "BSYNRYMUTXBXSQ-UHFFFAOYSA-N";
     molecular_formula := JNull; molecular_weight := JNull;
     fingerprint := JNull |}.

(** The record returned for the registry id 2244 when PubChem has names
    and no structure for it. *)
Definition link_only_record : Compound :=
  {| smiles_raw := JNull; smiles_normalized := JNull;
     iupac_name := JNull; common_name := JNull;
     sources :=
       [{| db_name := "PubChem";
           url := UrlFormat "https://pubchem.ncbi.nlm.nih.gov/compound/"
                    (JStr "2244") |}];
     pubchem_cid := JStr "2244"; structure_2d_svg := JNull; inchi := JNull;
     inchi_key := JNull; molecular_formula := JNull;
     molecular_weight := JNull; fingerprint := JNull |}.

(** The state in which the registry id 702 has just been obtained. *)
Definition with_cid_702 : Locals.t :=
  Locals.set_current_pubchem_cid (JNum 702) Locals.init.

(* ================================================================== *)
(** ** The duplicate check as specified *)

(** What one step of the cascade does. *)
Inductive StepResult :=
| Skipped                (* the field of the new record is null or empty *)
| Missed                 (* the query found no row *)
| Hit (r : Row)          (* the query found this row *)
| Failed (e : db_exn).   (* the value could not be bound *)

(** One exact-match predicate: how it compares, the column and the field. *)
Record Predicate := {
  p_step : DedupStep;
  p_eq : sqlval -> sqlval -> bool;
  p_column : Row -> sqlval;
  p_field : Compound -> value
}.

(** The four predicates, in the order of the specification. *)
Definition cascade_order : list Predicate :=
  [ {| p_step := ByInchiKey; p_eq := sql_eq;
       p_column := row_inchi_key; p_field := inchi_key |};
    {| p_step := ByNormalizedSmiles; p_eq := sql_eq;
       p_column := row_smiles_normalized; p_field := smiles_normalized |};
    {| p_step := ByRawSmiles; p_eq := sql_eq;
       p_column := row_smiles_raw; p_field := smiles_raw |};
    {| p_step := ByCommonName; p_eq := sql_eq_nocase;
       p_column := row_common_name; p_field := common_name |} ].

Definition run_step (data : Data) (catalog : Catalog) (p : Predicate)
    : StepResult :=
  if Py.truthy (Get.field (p_field p) data) then
    match bind_param (Get.field (p_field p) data) with
    | DbRaise e => Failed e
    | DbRet v =>
        match find (fun r => p_eq p (p_column p r) v) catalog with
        | Some r => Hit r
        | None => Missed
        end
    end
  else Skipped.

(** First match wins; a step that is skipped or misses passes on. *)
Fixpoint first_match (steps : list (DedupStep * StepResult))
    : db_result (option (DedupStep * Row)) :=
  match steps with
  | [] => DbRet None
  | (s, Hit r) :: _ => DbRet (Some (s, r))
  | (_, Failed e) :: _ => DbRaise e
  | (_, Skipped) :: rest | (_, Missed) :: rest => first_match rest
  end.

Definition cascade (data : Data) (catalog : Catalog)
    : db_result (option (DedupStep * Row)) :=
  first_match (map (fun p => (p_step p, run_step data catalog p)) cascade_order).

Definition passes_on (r : StepResult) : Prop := r = Skipped \/ r = Missed.

Definition nth_step (n : nat) (data : Data) (catalog : Catalog) : StepResult :=
  match nth_error cascade_order n with
  | Some p => run_step data catalog p
  | None => Skipped
  end.

(** A row with the five columns the examples look at. *)
Definition sample_row (id : Z) (name raw normalized key : sqlval) : Row :=
  {| compound_id := id; row_iupac_name := SqlNull; row_common_name := name;
     row_smiles_raw := raw; row_smiles_normalized := normalized;
     row_inchi := SqlNull; row_inchi_key := key;
     row_molecular_formula := SqlNull; row_molecular_weight := SqlNull;
     row_fingerprint := SqlNull; row_structure_2d_svg := SqlNull;
     row_metadata := [] |}.

(** A new resolution: ethanol written "CCO", key LFQSCWFLJHTTHZ-UHFFFAOYSA-N. *)
Definition new_ethanol : Data :=
  CompoundDict
    {| smiles_raw := JStr "CCO"; smiles_normalized := JStr "CCO";
       iupac_name := JStr "ethanol"; common_name := JStr "ethanol";
       sources := [{| db_name := "User-provided"; url := UrlLiteral "#" |}];
       pubchem_cid := JNum 702; structure_2d_svg := JNull;
       inchi := JStr "InChI=1S/C2H6O/c1-2-3/h3H,2H2,1H3";
       inchi_key := JStr "LFQSCWFLJHTTHZ-UHFFFAOYSA-N";
       molecular_formula := JStr "C2H6O"; molecular_weight := JNull;
       fingerprint := JNull |}.

(** Row 1 has the same raw notation under another key and another
    normalized form; row 2 has the same name (in capitals) and the same
    key, with the notation written the other way round. *)
Definition raw_match_row : Row :=
  sample_row 1 (SqlText "alcohol") (SqlText "CCO") (SqlText "C-C-O")
    (SqlText "AAAAAAAAAAAAAA-UHFFFAOYSA-N").
Definition name_match_row : Row :=
  sample_row 2 (SqlText "ETHANOL") (SqlText "OCC") (SqlText "OCC")
    (SqlText "LFQSCWFLJHTTHZ-UHFFFAOYSA-N").

(** Row 3 has the raw notation and the key of the new record; row 4 has
    its name only. *)
Definition raw_and_key_row : Row :=
  sample_row 3 (SqlText "alcohol") (SqlText "CCO") (SqlText "CCO")
    (SqlText "LFQSCWFLJHTTHZ-UHFFFAOYSA-N").
Definition name_only_row : Row :=
  sample_row 4 (SqlText "ETHANOL") (SqlText "OCC") (SqlText "OCC")
    (SqlText "AAAAAAAAAAAAAA-UHFFFAOYSA-N").

(** The same new resolution without the key and the normalized form. *)
Definition new_ethanol_raw_only : Data :=
  CompoundDict
    {| smiles_raw := JStr "CCO"; smiles_normalized := JNull;
       iupac_name := JNull; common_name := JStr "ethanol";
       sources := [{| db_name := "User-provided"; url := UrlLiteral "#" |}];
       pubchem_cid := JNull; structure_2d_svg := JNull;
       inchi := JNull; inchi_key := JNull;
       molecular_formula := JNull; molecular_weight := JNull;
       fingerprint := JNull |}.

(* ================================================================== *)
(** ** What the maintenance script is to achieve *)

(** The surrogate key identifies a row. *)
Definition unique_ids (catalog : Catalog) : Prop :=
  NoDup (map compound_id catalog).

(** [r'] belongs to the group of [r]: its key is not null and is the key
    of [r]. *)
Definition shares_key (r r' : Row) : bool :=
  sql_eq (row_inchi_key r') (row_inchi_key r).

(** No row of the group of [r] has a smaller id than [r]. *)
Definition is_oldest (catalog : Catalog) (r : Row) : bool :=
  forallb (fun r' => negb (shares_key r r')
                     || (compound_id r <=? compound_id r')) catalog.

(** The rows left once the keys of [done] have been handled. *)
Definition after_keys (catalog : Catalog) (done : list sqlval) : Catalog :=
  filter (fun r => negb (existsb (sql_eq (row_inchi_key r)) done)
                   || is_oldest catalog r) catalog.

(** The ids of the rows under one key. *)
Definition group_ids (catalog : Catalog) (key : sqlval) : list Z :=
  map compound_id (filter (fun r => sql_eq (row_inchi_key r) key) catalog).

(** Three rows under one key, one row under a key of its own, one row
    without a key. *)
Definition crowded_catalog : Catalog :=
  [ sample_row 5 (SqlText "ethanol") (SqlText "CCO") (SqlText "CCO")
      (SqlText "LFQSCWFLJHTTHZ-UHFFFAOYSA-N");
    sample_row 2 (SqlText "alcohol") (SqlText "OCC") (SqlText "CCO")
      (SqlText "LFQSCWFLJHTTHZ-UHFFFAOYSA-N");
    sample_row 3 (SqlText "water") (SqlText "O") (SqlText "O")
      (SqlText "XLYOFNOQVPJJNP-UHFFFAOYSA-N");
    sample_row 4 (SqlText "unknown") SqlNull SqlNull SqlNull;
    sample_row 7 (SqlText "EtOH") (SqlText "C(O)C") (SqlText "CCO")
      (SqlText "LFQSCWFLJHTTHZ-UHFFFAOYSA-N");
    sample_row 8 (SqlText "mystery") SqlNull SqlNull SqlNull ].

(* ================================================================== *)
(** ** Further definitions for the statements about the pipeline *)

(** The names under which [get_compound_data] records links, in the order
    in which its code reaches the calls of [add_source]. *)
Definition link_order : list string :=
  ["User-provided"; "PubChem"; "ChEMBL"; "DrugBank"].

(** [l] is [order] with some entries left out. *)
Fixpoint is_subsequence (l order : list string) : bool :=
  match l, order with
  | [], _ => true
  | _ :: _, [] => false
  | x :: l', y :: order' =>
      if String.eqb x y then is_subsequence l' order'
      else is_subsequence l order'
  end.

(** The link [get_compound_data] records for a registry id. *)
Definition pubchem_link (cid : value) : Source :=
  {| db_name := "PubChem";
     url := UrlFormat "https://pubchem.ncbi.nlm.nih.gov/compound/" cid |}.

(** The state from which the two DrugBank steps start. *)
Definition no_drugbank_link (st : Locals.t) : Prop :=
  ~ In "DrugBank" (names_of (Locals.sources st)).

(** [w] with another fallback lookup of the DrugBank link. *)
Definition with_fallback (w : World)
    (fallback : value -> result value) : World :=
  {| pubchem_name_cids := pubchem_name_cids w;
     pubchem_inchikey_cids := pubchem_inchikey_cids w;
     pubchem_cid_smiles := pubchem_cid_smiles w;
     pubchem_cid_inchikey := pubchem_cid_inchikey w;
     pubchem_cid_synonyms := pubchem_cid_synonyms w;
     pubchem_cid_iupac := pubchem_cid_iupac w;
     chembl_molecule_search := chembl_molecule_search w;
     get_drugbank_url_from_inchikey := get_drugbank_url_from_inchikey w;
     get_drugbank_url_from_pubchem_cid := fallback;
     MolFromSmiles := MolFromSmiles w;
     MolToInchi := MolToInchi w;
     InchiToInchiKey := InchiToInchiKey w;
     DrawMoleculeSVG := DrawMoleculeSVG w;
     CalcMolFormula := CalcMolFormula w;
     CalcExactMolWt := CalcExactMolWt w;
     standardize_smiles := standardize_smiles w;
     GetMorganFingerprintAsBitVect := GetMorganFingerprintAsBitVect w |}.

(** A request that fails in transport, or is answered with a status other
    than 200. *)
Definition service_down (h : http) : Prop :=
  (exists e, h = GetRaises e /\ is_RequestException e = true)
  \/ (exists sc j, h = Response sc j /\ sc <> 200).

(** The body of a PubChem property answer whose first entry is the
    dictionary [fields]. *)
Definition property_table (fields : list (string * value))
    (more : list value) : value :=
  JObj [("PropertyTable",
         JObj [("Properties", JList (JObj fields :: more))])].

(** The lists of names [get_compound_data] can hold after its first step,
    after the PubChem step, after the ChEMBL step and at the end. *)
Definition names_after_parse : list (list string) :=
  [[]; ["User-provided"]].

Definition names_after_pubchem : list (list string) :=
  (names_after_parse ++ map (fun l => (l ++ ["PubChem"])%list) names_after_parse)%list.

Definition names_after_chembl : list (list string) :=
  (names_after_pubchem ++ map (fun l => (l ++ ["ChEMBL"])%list) names_after_pubchem)%list.

Definition names_at_end : list (list string) :=
  (names_after_chembl ++ map (fun l => (l ++ ["DrugBank"])%list) names_after_chembl)%list.

(** A step leaves the links as they are or adds one under the name [n]. *)
Definition grows_by (n : string) (l l' : list Source) : Prop :=
  l' = l \/ exists u, l' = add_source n u l.

(** What links the registry id of a state to its PubChem link. *)
Definition cid_linked (st : Locals.t) : Prop :=
  (Locals.pubchem_cid st = JNull
   \/ Py.truthy (Locals.pubchem_cid st) = true)
  /\ (Py.truthy (Locals.pubchem_cid st) = true ->
      In (pubchem_link (Locals.pubchem_cid st)) (Locals.sources st))
  /\ (In "PubChem" (names_of (Locals.sources st)) ->
      Py.truthy (Locals.pubchem_cid st) = true).

(** Names are only known together with a structure from PubChem. *)
Definition names_from_pubchem (w : World) (st : Locals.t) : Prop :=
  (Locals.iupac_name st <> JNull \/ Locals.common_name st <> JNull) ->
  Py.truthy (Locals.pubchem_cid st) = true
  /\ exists p, get_smiles_from_pubchem w (Locals.pubchem_cid st) = Ret p
               /\ Py.truthy p = true.

(** A structure notation comes with a link. *)
Definition structure_has_link (st : Locals.t) : Prop :=
  Locals.smiles st <> JNull -> Locals.sources st <> [].

(** A step after the PubChem step keeps the registry id and the names, and
    leaves the links as they are or adds one under the name [n]. *)
Definition later_step (n : string) (st st' : Locals.t) : Prop :=
  Locals.pubchem_cid st' = Locals.pubchem_cid st
  /\ Locals.iupac_name st' = Locals.iupac_name st
  /\ Locals.common_name st' = Locals.common_name st
  /\ grows_by n (Locals.sources st) (Locals.sources st').

(* ================================================================== *)
(** ** The rest of the upload route and the details page (app.py) *)

(** What a route answers with. *)
Inductive Reply :=
| RenderUpload                                (* render_template('upload.html') *)
| RenderCompound (row : Row) (links : list Source)
| RedirectCompound (id : Z)                   (* url_for('compound_details') *)
| RedirectIndex
| InternalError (e : db_exn).                 (* the exception leaves the route *)

(** Lines 154-164: where the route sends the browser after the [try]
    block.  The query is outside the [try]. *)
Definition redirect_after_insert (data : Data) (catalog : Catalog) : Reply :=
  if Py.truthy (Get.field inchi_key data) then
    match select_one sql_eq row_inchi_key (Get.field inchi_key data) catalog
    with
    | DbRaise e => InternalError e
    | DbRet (Some new_compound) => RedirectCompound (compound_id new_compound)
    | DbRet None => RedirectIndex
    end
  else RedirectIndex.

(** The answer to a POST to [/upload], lines 55-164.  [upload] gives the
    outcome and the table but not the record [data]; the record is
    resolved again here, which gives the same record, the world being a
    function. *)
Definition upload_reply (w : World) (catalog : Catalog)
    (form_identifier : string) : Reply * Catalog :=
  match upload w catalog form_identifier with
  | (AlreadyExists _ id, catalog') => (RedirectCompound id, catalog')
  | (Added, catalog') | (DatabaseError, catalog') =>
      match get_compound_data w (PyStr.strip form_identifier) with
      | Ret data => (redirect_after_insert data catalog', catalog')
      | Raise _ => (RenderUpload, catalog')
      end
  | (Unhandled e, catalog') => (InternalError e, catalog')
  | (_, catalog') => (RenderUpload, catalog')
  end.

(** [compound_details], lines 225-264.  The [metadata] text of a row is
    kept as the list it encodes, so it always parses. *)
Definition compound_details (catalog : Catalog) (id : Z) : Reply :=
  match bind_param (JNum id) with
  | DbRaise e => InternalError e
  | DbRet p =>
      match find (fun r => sqlval_eqb (SqlInteger (compound_id r)) p) catalog
      with
      | None => RedirectIndex
      | Some compound => RenderCompound compound (row_metadata compound)
      end
  end.

(** No two rows share a key that is not NULL. *)
Definition keys_unique (catalog : Catalog) : Prop :=
  NoDup (filter (fun k => negb (sql_is_null k)) (map row_inchi_key catalog)).

(* ================================================================== *)
(** ** The seeding script (seed.py) *)

(** Lines 14-36. *)
Definition ANTIBIOTICS_TO_ADD : list string :=
  [ "Penicillin G"; "Amoxicillin"; "Tetracycline"; "Ciprofloxacin";
    "Azithromycin"; "Doxycycline"; "Metronidazole"; "Clindamycin";
    "Vancomycin"; "Streptomycin"; "Erythromycin"; "Cephalexin";
    "Sulfamethoxazole"; "Trimethoprim"; "Levofloxacin"; "Gentamicin";
    "Ampicillin"; "Chloramphenicol"; "Rifampicin"; "Isoniazid";
    "Cefazolin"; "Cefoxitin"; "Cefuroxime"; "Cefotaxime"; "Ceftriaxone";
    "Cefepime"; "Ceftaroline"; "Imipenem"; "Meropenem"; "Ertapenem";
    "Doripenem"; "Aztreonam"; "Polymyxin B"; "Colistin"; "Bacitracin";
    "Neomycin"; "Kanamycin"; "Tobramycin"; "Amikacin"; "Netilmicin";
    "Spectinomycin"; "Linezolid"; "Tedizolid"; "Daptomycin"; "Fidaxomicin";
    "Rifaximin"; "Telavancin"; "Dalbavancin"; "Oritavancin"; "Fosfomycin";
    "Nitrofurantoin"; "Methenamine"; "Phenazopyridine"; "Mupirocin";
    "Retapamulin";
    "Fusidic acid"; "Gramicidin"; "Tyrocidine"; "Valinomycin"; "Nisin";
    "Polymyxin E"; "Capreomycin"; "Cycloserine"; "Ethambutol";
    "Pyrazinamide";
    "Dapsone"; "Clofazimine"; "Bedaquiline"; "Delamanid"; "Pretomanid";
    "Thiacetazone"; "Ethionamide"; "Prothionamide";
    "Para-aminosalicylic acid";
    "Viomycin"; "Kanamycin A"; "Amikacin"; "Arbekacin"; "Dibekacin";
    "Sisomicin"; "Isepamicin"; "Plazomicin"; "Apramycin"; "Hygromycin B";
    "Puromycin"; "Streptothricin"; "Bleomycin"; "Actinomycin D";
    "Mithramycin";
    "Doxorubicin"; "Daunorubicin"; "Epirubicin"; "Idarubicin";
    "Mitoxantrone";
    "Bleomycin A2"; "Bleomycin B2"; "Plicamycin"; "Valrubicin";
    "Zorubicin" ].

(** The loop of [fetch_compounds_by_name_list], lines 76-87; [compounds] is
    the list collected so far.  The call of [get_compound_data] is not in a
    [try]. *)
Fixpoint fetch_loop (w : World) (compound_names : list string) (limit : Z)
    (compounds : list Compound) : result (list Compound) :=
  match compound_names with
  | [] => Ret compounds
  | name :: rest =>
      if Z.of_nat (List.length compounds) >=? limit then Ret compounds
      else
        compound_data <- get_compound_data w name ;;
        match compound_data with
        | CompoundDict c =>
            if Py.truthy (inchi_key c)
            then fetch_loop w rest limit (compounds ++ [c])%list
            else fetch_loop w rest limit compounds
        | ErrorDict _ => fetch_loop w rest limit compounds
        end
  end.

(** Lines 72-90. *)
Definition fetch_compounds_by_name_list (w : World)
    (compound_names : list string) (limit : Z) : result (list Compound) :=
  fetch_loop w compound_names limit [].

(** The state of the loop of [seed_database]: the table as the open
    transaction sees it, and the two counters. *)
Record SeedState := {
  seed_table : Catalog;
  inserted_count : Z;
  skipped_count : Z
}.

(** Lines 109-144: the loop stops at the first statement that raises, with
    the counters as they are then. *)
Fixpoint seed_loop (compounds_to_insert : list Compound) (s : SeedState)
    : SeedState * option db_exn :=
  match compounds_to_insert with
  | [] => (s, None)
  | data :: rest =>
      match select_one sql_eq row_inchi_key (inchi_key data) (seed_table s)
      with
      | DbRaise e => (s, Some e)
      | DbRet (Some _) =>
          seed_loop rest
            {| seed_table := seed_table s;
               inserted_count := inserted_count s;
               skipped_count := skipped_count s + 1 |}
      | DbRet None =>
          match insert_compound (CompoundDict data) (seed_table s) with
          | DbRaise e => (s, Some e)
          | DbRet table' =>
              seed_loop rest
                {| seed_table := table';
                   inserted_count := inserted_count s + 1;
                   skipped_count := skipped_count s |}
          end
      end
  end.

(** How a run of [seed_database] ends. *)
Inductive SeedEnd :=
| Committed                  (* line 146 *)
| RolledBack                 (* lines 148-150 *)
| Escaped (e : db_exn).      (* not an sqlite3.Error: it leaves the function *)

(** [seed_database], lines 92-155, for a list of names; the table it
    returns is the one left in the database file.  A resolution that
    raises leaves the function before any statement is executed. *)
Definition seed_database (w : World) (compound_names : list string)
    (catalog : Catalog) : result (SeedEnd * SeedState) :=
  compounds_to_insert <-
    fetch_compounds_by_name_list w compound_names 100 ;;
  let start := {| seed_table := catalog; inserted_count := 0;
                  skipped_count := 0 |} in
  match seed_loop compounds_to_insert start with
  | (s, None) => Ret (Committed, s)
  | (s, Some SqliteError) =>
      Ret (RolledBack,
           {| seed_table := catalog; inserted_count := inserted_count s;
              skipped_count := skipped_count s |})
  | (s, Some OverflowError) =>
      Ret (Escaped OverflowError,
           {| seed_table := catalog; inserted_count := inserted_count s;
              skipped_count := skipped_count s |})
  end.
(* ================================================================== *)
(** ** Notions used to state the properties of the routes and scripts *)

(** [v] is [None] or a [str]. *)
Definition text_or_null (v : value) : bool :=
  match v with
  | JNull | JStr _ => true
  | _ => false
  end.

(** [v] is [None] or a [str] that is not empty. *)
Definition key_or_null (v : value) : bool :=
  match v with
  | JNull => true
  | JStr s => negb (PyStr.is_empty s)
  | _ => false
  end.

(** The four fields the duplicate check looks at are [None] or [str]. *)
Definition text_fields (c : Compound) : bool :=
  text_or_null (inchi_key c) && text_or_null (smiles_normalized c)
  && text_or_null (smiles_raw c) && text_or_null (common_name c).

(** The first block of the duplicate check whose field is set. *)
Definition first_set_step (c : Compound) : option DedupStep :=
  if Py.truthy (inchi_key c) then Some ByInchiKey
  else if Py.truthy (smiles_normalized c) then Some ByNormalizedSmiles
  else if Py.truthy (smiles_raw c) then Some ByRawSmiles
  else if Py.truthy (common_name c) then Some ByCommonName
  else None.

(** The key of the record resolved for [identifier], when there is one, is
    [None] or a [str] that is not empty. *)
Definition resolves_to_text_key (w : World) (identifier : string) : bool :=
  match get_compound_data w identifier with
  | Ret (CompoundDict c) => key_or_null (inchi_key c)
  | _ => true
  end.

(** A table with water in it. *)
Definition water_catalog : Catalog :=
  [ sample_row 3 (SqlText "water") (SqlText "O") (SqlText "O")
      (SqlText "XLYOFNOQVPJJNP-UHFFFAOYSA-N") ].


(** [w] with another answer to the PubChem search by name. *)
Definition with_name_search (w : World) (name_cids : string -> http)
    : World :=
  {| pubchem_name_cids := name_cids;
     pubchem_inchikey_cids := pubchem_inchikey_cids w;
     pubchem_cid_smiles := pubchem_cid_smiles w;
     pubchem_cid_inchikey := pubchem_cid_inchikey w;
     pubchem_cid_synonyms := pubchem_cid_synonyms w;
     pubchem_cid_iupac := pubchem_cid_iupac w;
     chembl_molecule_search := chembl_molecule_search w;
     get_drugbank_url_from_inchikey := get_drugbank_url_from_inchikey w;
     get_drugbank_url_from_pubchem_cid :=
       get_drugbank_url_from_pubchem_cid w;
     MolFromSmiles := MolFromSmiles w;
     MolToInchi := MolToInchi w;
     InchiToInchiKey := InchiToInchiKey w;
     DrawMoleculeSVG := DrawMoleculeSVG w;
     CalcMolFormula := CalcMolFormula w;
     CalcExactMolWt := CalcExactMolWt w;
     standardize_smiles := standardize_smiles w;
     GetMorganFingerprintAsBitVect := GetMorganFingerprintAsBitVect w |}.

(** [ethanol_world], except that PubChem answers the search for the name
    "aspirin" with an empty list of ids, on which [get_cid_from_pubchem]
    raises. *)
Definition aspirin_raises_world : World :=
  with_name_search ethanol_world
    (fun name =>
       if String.eqb name "aspirin"
       then ok (JObj [("IdentifierList", JObj [("CID", JList [])])])
       else pubchem_name_cids ethanol_world name).

(** The state a seeding run ends in, when it ends without raising. *)
Definition seeded (w : World) (compound_names : list string)
    (catalog : Catalog) : SeedState :=
  match seed_database w compound_names catalog with
  | Ret (_, s) => s
  | Raise _ =>
      {| seed_table := catalog; inserted_count := 0; skipped_count := 0 |}
  end.

(** Every key of the table is a rowid and the largest rowid, 2^63-1, is
    not taken: SQLite then gives the next row the key [next_id]. *)
Definition rowids_below_max (catalog : Catalog) : bool :=
  forallb (fun r => (- 2 ^ 63 <=? compound_id r)
                    && (compound_id r <? 2 ^ 63 - 1)) catalog.
(* ================================================================== *)
(** ** The DrugBank lookups (normalize_compound.py, lines 141-245) *)

(** The resolution takes the two DrugBank lookups as calls (the fields
    [get_drugbank_url_from_inchikey] and [get_drugbank_url_from_pubchem_cid]
    of a [World]).  Here are the functions themselves, over the four
    requests they make. *)
Record Xrefs := {
  (* https://www.ebi.ac.uk/unichem/rest/sources *)
  unichem_sources : http;
  (* https://www.ebi.ac.uk/unichem/rest/inchikey/{inchikey} *)
  unichem_inchikey : value -> http;
  (* .../rest/pug/compound/cid/{cid}/xrefs/DrugBank/JSON *)
  pubchem_xrefs_drugbank : value -> http;
  (* .../rest/pug/compound/cid/{cid}/xrefs/RegistryID/JSON?source=DrugBank *)
  pubchem_xrefs_registry : value -> http
}.

Definition is_ValueError (e : exn) : bool :=
  match e with RequestsJSONDecodeError | JSONDecodeError => true | _ => false end.

(** [except (requests.exceptions.RequestException, ValueError)] *)
Definition caught_by_unichem (e : exn) : bool :=
  is_RequestException e || is_ValueError e.

(** [except (requests.exceptions.RequestException, ValueError, KeyError)] *)
Definition caught_by_xrefs (e : exn) : bool :=
  is_RequestException e || is_ValueError e || is_KeyError e.

Definition DRUGBANK_URL : string := "https://go.drugbank.com/drugs/".

Module PyLatin1.

(** [str.lower] on one character, code points below 256: the letters
    A-Z, and the letters from 192 to 222 except the sign at 215. *)
Definition lower_char (c : ascii) : ascii :=
  let n := PyStr.code c in
  if ((65 <=? n) && (n <=? 90))
     || ((192 <=? n) && (n <=? 222) && negb (n =? 215))
  then ascii_of_nat (nat_of_ascii c + 32) else c.

Fixpoint lower (s : string) : string :=
  match s with
  | EmptyString => EmptyString
  | String c r => String (lower_char c) (lower r)
  end.

(** [reg.upper().startswith('DB')].  Upper-casing works character by
    character, and only "d" and "D" give "D", only "b" and "B" give
    "B". *)
Definition upper_startswith_DB (reg : string) : bool :=
  match reg with
  | String c1 (String c2 _) =>
      (Ascii.eqb c1 "d" || Ascii.eqb c1 "D")
      && (Ascii.eqb c2 "b" || Ascii.eqb c2 "B")
  | _ => false
  end.

End PyLatin1.

(** [v.get(k, default)] *)
Definition dict_get_or (v : value) (k : string) (default : value)
    : result value :=
  match v with
  | JObj f => Ret (match Py.assoc k f with Some x => x | None => default end)
  | _ => Raise AttributeError
  end.

(** The values [for x in v] goes through. *)
Definition iterate (v : value) : result (list value) :=
  match v with
  | JList l => Ret l
  | JStr s =>
      Ret (map (fun c => JStr (String c EmptyString)) (list_ascii_of_string s))
  | JObj f => Ret (map (fun kv => JStr (fst kv)) f)
  | _ => Raise TypeError
  end.

(** [x or []] *)
Definition or_empty_list (x : value) : value :=
  if Py.truthy x then x else JList [].

Section DrugBankLookups.

(** [str(v)] for a number, a list or a dictionary. *)
Variable repr : value -> string.

(** [str(v)], which is also what an f-string puts for [{v}]. *)
Definition py_str (v : value) : string :=
  match v with
  | JStr s => s
  | JNull => "None"
  | JBool true => "True"
  | JBool false => "False"
  | _ => repr v
  end.

Variable x : Xrefs.

(** Lines 157-162: the loop over the sources, up to its [break]. *)
Fixpoint find_drugbank_source (sources : list value)
    : result (option string) :=
  match sources with
  | [] => Ret None
  | src :: rest =>
      n <- dict_get_or src "name" (JStr "") ;;
      let name := PyLatin1.lower (py_str n) in
      if PyStr.contains "drugbank" name then
        src_id <- Py.dict_get src "src_id" ;;
        Ret (Some (py_str src_id))
      else find_drugbank_source rest
  end.

(** [_get_unichem_drugbank_src_id], lines 145-168, called with the global
    [_unichem_drugbank_src_id_cache] holding [cache].  When the call
    returns, the global holds what was returned; when it raises, the
    global is as it was. *)
Definition _get_unichem_drugbank_src_id (cache : option string)
    : result (option string) :=
  match cache with
  | Some src_id => Ret (Some src_id)
  | None =>
      try_except is_RequestException
        (resp <- requests_get (unichem_sources x) ;;
         if negb (fst resp =? 200) then Ret None
         else
           sources <- snd resp ;;
           items <- iterate sources ;;
           find_drugbank_source items)
        None
  end.

(** Lines 188-194: the loop over the mappings; [db_id] is what the
    variable holds when the loop is entered. *)
Fixpoint find_mapping (src_id : string) (mappings : list value)
    (db_id : value) : result value :=
  match mappings with
  | [] => Ret db_id
  | m :: rest =>
      sid <- Py.dict_get m "src_id" ;;
      if String.eqb (py_str sid) src_id then
        got <- Py.dict_get m "src_compound_id" ;;
        if Py.truthy got then Ret got
        else find_mapping src_id rest got
      else find_mapping src_id rest db_id
  end.

Definition str_truthy (s : option string) : bool :=
  match s with
  | Some s => negb (PyStr.is_empty s)
  | None => false
  end.

(** [get_drugbank_url_from_inchikey], lines 171-204: what is returned or
    raised, and what the global cache holds afterwards. *)
Definition drugbank_url_from_inchikey (cache : option string)
    (inchikey : value) : result value * option string :=
  match _get_unichem_drugbank_src_id cache with
  | Raise e => (if caught_by_unichem e then Ret JNull else Raise e, cache)
  | Ret src_id =>
      (try_except caught_by_unichem
         (if negb (str_truthy src_id) then Ret JNull
          else
            resp <- requests_get (unichem_inchikey x inchikey) ;;
            if negb (fst resp =? 200) then Ret JNull
            else
              body <- snd resp ;;
              items <- iterate (or_empty_list body) ;;
              db_id <-
                find_mapping
                  (match src_id with Some s => s | None => "" end)
                  items JNull ;;
              if negb (Py.truthy db_id) then Ret JNull
              else Ret (JStr (DRUGBANK_URL ++ py_str db_id)))
         JNull,
       src_id)
  end.

(** [data.get('InformationList', {}).get('Information', [])] *)
Definition information_list (data : value) : result value :=
  il <- dict_get_or data "InformationList" (JObj []) ;;
  dict_get_or il "Information" (JList []).

(** Lines 209-224: the first [try] block; [None] when control falls
    through to the second one. *)
Definition xrefs_drugbank_block (cid : value) : result value :=
  try_except caught_by_xrefs
    (resp <- requests_get (pubchem_xrefs_drugbank x cid) ;;
     if fst resp =? 200 then
       data <- snd resp ;;
       info_list <- information_list data ;;
       if Py.truthy info_list then
         first <- Py.getitem0 info_list ;;
         got <- Py.dict_get first "DrugBank" ;;
         let db_ids := or_empty_list got in
         if Py.truthy db_ids then
           id0 <- Py.getitem0 db_ids ;;
           Ret (JStr (DRUGBANK_URL ++ py_str id0))
         else Ret JNull
       else Ret JNull
     else Ret JNull)
    JNull.

(** Lines 239-241: the first id that is a [str] beginning with "DB" in
    any case. *)
Fixpoint first_accession (ids : list value) : option string :=
  match ids with
  | [] => None
  | JStr reg :: rest =>
      if PyLatin1.upper_startswith_DB reg then Some reg
      else first_accession rest
  | _ :: rest => first_accession rest
  end.

(** Lines 227-243: the second [try] block. *)
Definition xrefs_registry_block (cid : value) : result value :=
  try_except caught_by_xrefs
    (resp <- requests_get (pubchem_xrefs_registry x cid) ;;
     if fst resp =? 200 then
       data <- snd resp ;;
       info_list <- information_list data ;;
       if Py.truthy info_list then
         first <- Py.getitem0 info_list ;;
         got <- Py.dict_get first "RegistryID" ;;
         ids <- iterate (or_empty_list got) ;;
         match first_accession ids with
         | Some reg => Ret (JStr (DRUGBANK_URL ++ reg))
         | None => Ret JNull
         end
       else Ret JNull
     else Ret JNull)
    JNull.

(** [get_drugbank_url_from_pubchem_cid], lines 206-245. *)
Definition drugbank_url_from_pubchem_cid (cid : value) : result value :=
  first <- xrefs_drugbank_block cid ;;
  if Py.is_None first then xrefs_registry_block cid
  else Ret first.

(** A world whose two DrugBank lookups are the functions above, the
    cache holding [cache] when the resolution starts. *)
Definition with_drugbank_lookups (w : World) (cache : option string)
    : World :=
  {| pubchem_name_cids := pubchem_name_cids w;
     pubchem_inchikey_cids := pubchem_inchikey_cids w;
     pubchem_cid_smiles := pubchem_cid_smiles w;
     pubchem_cid_inchikey := pubchem_cid_inchikey w;
     pubchem_cid_synonyms := pubchem_cid_synonyms w;
     pubchem_cid_iupac := pubchem_cid_iupac w;
     chembl_molecule_search := chembl_molecule_search w;
     get_drugbank_url_from_inchikey := fun inchikey =>
       fst (drugbank_url_from_inchikey cache inchikey);
     get_drugbank_url_from_pubchem_cid := drugbank_url_from_pubchem_cid;
     MolFromSmiles := MolFromSmiles w;
     MolToInchi := MolToInchi w;
     InchiToInchiKey := InchiToInchiKey w;
     DrawMoleculeSVG := DrawMoleculeSVG w;
     CalcMolFormula := CalcMolFormula w;
     CalcExactMolWt := CalcExactMolWt w;
     standardize_smiles := standardize_smiles w;
     GetMorganFingerprintAsBitVect := GetMorganFingerprintAsBitVect w |}.

End DrugBankLookups.

(** A DrugBank link as the lookups build it. *)
Definition is_drugbank_url (v : value) : Prop :=
  exists id, v = JStr (DRUGBANK_URL ++ id).

(** The body of a PubChem cross-reference answer whose first entry is the
    dictionary [fields]. *)
Definition information (fields : list (string * value)) (more : list value)
    : value :=
  JObj [("InformationList",
         JObj [("Information", JList (JObj fields :: more))])].

(** The links named "DrugBank" hold the DrugBank address and an id. *)
Definition drugbank_links_ok (l : list Source) : Prop :=
  forall s, In s l -> db_name s = "DrugBank" ->
    exists id, url s = UrlValue (JStr (DRUGBANK_URL ++ id)).

(** UniChem lists DrugBank as source 2 and maps every key to DB00898;
    PubChem has no cross references but a list of registry ids. *)
Definition sample_xrefs : Xrefs :=
  {| unichem_sources :=
       ok (JList [JObj [("src_id", JStr "1"); ("name", JStr "chembl")];
                  JObj [("src_id", JStr "2"); ("name", JStr "DrugBank")]]);
     unichem_inchikey := fun _ =>
       ok (JList [JObj [("src_id", JStr "1");
                        ("src_compound_id", JStr "CHEMBL545")];
                  JObj [("src_id", JStr "2");
                        ("src_compound_id", JStr "DB00898")]]);
     pubchem_xrefs_drugbank := fun _ => Response 404 (Ret (JObj []));
     pubchem_xrefs_registry := fun _ =>
       ok (information
             [("CID", JNum 702);
              ("RegistryID",
               JList [JStr "64-17-5"; JNum 702; JStr "db00898";
                      JStr "DB99999"])] []) |}.

(** [sample_xrefs] with the UniChem services down. *)
Definition sample_xrefs_without_unichem : Xrefs :=
  {| unichem_sources := GetRaises ConnectionError;
     unichem_inchikey := fun _ => GetRaises ConnectionError;
     pubchem_xrefs_drugbank := pubchem_xrefs_drugbank sample_xrefs;
     pubchem_xrefs_registry := pubchem_xrefs_registry sample_xrefs |}.

(** [str] of a number, for the examples, which format none. *)
Definition no_numbers (_ : value) : string := "".

(* ================================================================== *)
(** * Proofs *)

Unset Implicit Arguments.

Ltac break_match :=
  match goal with
  | H : context [match ?x with _ => _ end] |- _ => destruct x eqn:?
  | |- context [match ?x with _ => _ end] => destruct x eqn:?
  end.

Ltac inv_ret :=
  repeat match goal with
  | H : Ret _ = Ret _ |- _ => injection H as H; try subst
  | H : Raise _ = Ret _ |- _ => discriminate H
  | H : Ret _ = Raise _ |- _ => discriminate H
  end.

(** Open a step of the pipeline into its branches. *)
Ltac step_cases :=
  unfold bind, try_except in *;
  repeat (break_match; inv_ret; try discriminate);
  inv_ret; cbn in *.

Ltac norm_bool :=
  repeat match goal with
  | H : negb _ = true |- _ => apply negb_true_iff in H
  | H : negb _ = false |- _ => apply negb_false_iff in H
  end.

Ltac rewrite_truthy :=
  repeat match goal with
  | H : Py.truthy ?v = _ |- context [Py.truthy ?v] => rewrite H
  end.

(* ================================================================== *)
(** ** The classifier *)

Lemma upper_run_spec n s r :
  Regex.upper_run n s = Some r <->
  exists g, s = g ++ r /\ String.length g = n
            /\ PyStr.all_chars PyStr.is_AZ g = true.
Proof.
  revert s. induction n as [|n IH]; intros s; simpl.
  - split.
    + intros [= ->]. exists "". auto.
    + intros (g & -> & Hl & _). destruct g; [reflexivity | discriminate].
  - destruct s as [|c s].
    + split; [discriminate|].
      intros (g & Hg & Hl & _). destruct g; discriminate.
    + destruct (PyStr.is_AZ c) eqn:Hc.
      * rewrite IH. split.
        -- intros (g & -> & Hl & Hu). exists (String c g). simpl.
           rewrite Hc, Hu, Hl. auto.
        -- intros (g & Hg & Hl & Hu). destruct g as [|c' g]; [discriminate|].
           simpl in *. injection Hg as -> ->. injection Hl as Hl.
           rewrite Hc in Hu. exists g. auto.
      * split; [discriminate|].
        intros (g & Hg & Hl & Hu). destruct g as [|c' g]; [discriminate|].
        simpl in *. injection Hg as -> ->. rewrite Hc in Hu. discriminate.
Qed.

Lemma hyphen_spec s r : Regex.hyphen s = Some r <-> s = String "-" r.
Proof.
  unfold Regex.hyphen. destruct s as [|c s].
  - split; discriminate.
  - destruct (Ascii.eqb_spec c "-") as [->|Hn].
    + split; [intros [= ->]; reflexivity | intros [= ->]; reflexivity].
    + split; [discriminate | intros [= Hc _]; contradiction].
Qed.

Lemma app_assoc_str (a b c : string) : (a ++ b) ++ c = a ++ (b ++ c).
Proof. induction a; simpl; congruence. Qed.

Lemma key_groups_spec s rest :
  Regex.key_groups s = Some rest <->
  exists g1 g2 g3,
    s = g1 ++ "-" ++ g2 ++ "-" ++ g3 ++ rest
    /\ String.length g1 = 14%nat /\ String.length g2 = 10%nat
    /\ String.length g3 = 1%nat
    /\ PyStr.all_chars PyStr.is_AZ g1 = true
    /\ PyStr.all_chars PyStr.is_AZ g2 = true
    /\ PyStr.all_chars PyStr.is_AZ g3 = true.
Proof.
  unfold Regex.key_groups, Regex.and_then. split.
  - destruct (Regex.upper_run 14 s) as [r1|] eqn:H1; [|discriminate].
    destruct (Regex.hyphen r1) as [r2|] eqn:H2; [|discriminate].
    destruct (Regex.upper_run 10 r2) as [r3|] eqn:H3; [|discriminate].
    destruct (Regex.hyphen r3) as [r4|] eqn:H4; [|discriminate].
    intros H5.
    apply upper_run_spec in H1 as (g1 & -> & L1 & U1).
    apply hyphen_spec in H2 as ->.
    apply upper_run_spec in H3 as (g2 & -> & L2 & U2).
    apply hyphen_spec in H4 as ->.
    apply upper_run_spec in H5 as (g3 & -> & L3 & U3).
    exists g1, g2, g3. repeat split; auto.
  - intros (g1 & g2 & g3 & -> & L1 & L2 & L3 & U1 & U2 & U3).
    assert (E1 : Regex.upper_run 14 (g1 ++ "-" ++ g2 ++ "-" ++ g3 ++ rest)
                 = Some ("-" ++ g2 ++ "-" ++ g3 ++ rest)).
    { apply upper_run_spec. exists g1. auto. }
    rewrite E1.
    assert (E2 : Regex.upper_run 10 (g2 ++ "-" ++ g3 ++ rest)
                 = Some ("-" ++ g3 ++ rest)).
    { apply upper_run_spec. exists g2. auto. }
    change (Regex.hyphen ("-" ++ g2 ++ "-" ++ g3 ++ rest))
      with (Some (g2 ++ "-" ++ g3 ++ rest)).
    cbv beta iota. rewrite E2.
    change (Regex.hyphen ("-" ++ g3 ++ rest)) with (Some (g3 ++ rest)).
    cbv beta iota.
    apply upper_run_spec. exists g3. auto.
Qed.

Lemma key_shapeb_spec s : key_shapeb s = true <-> KeyShape s.
Proof.
  unfold key_shapeb. fold (Regex.key_groups s). split.
  - destruct (Regex.key_groups s) as [rest|] eqn:Hc; [|discriminate].
    destruct rest; [|discriminate]. intros _.
    apply key_groups_spec in Hc as (g1 & g2 & g3 & -> & H).
    exists g1, g2, g3. split; [|exact H].
    assert (E : g3 ++ "" = g3) by (clear; induction g3; simpl; congruence).
    rewrite E. reflexivity.
  - intros (g1 & g2 & g3 & -> & H).
    assert (Hc : Regex.key_groups (g1 ++ "-" ++ g2 ++ "-" ++ g3) = Some "").
    { apply key_groups_spec. exists g1, g2, g3. split; [|exact H].
      assert (E : g3 ++ "" = g3) by (clear; induction g3; simpl; congruence).
      rewrite E. reflexivity. }
    rewrite Hc. reflexivity.
Qed.

Lemma rstrip_no_trailing_space s p c :
  PyStr.rstrip s = p ++ String c "" -> PyStr.isspace c = false.
Proof.
  revert p. induction s as [|a s IH]; intros p; simpl.
  - destruct p; discriminate.
  - destruct (PyStr.isspace a && PyStr.is_empty (PyStr.rstrip s)) eqn:Hg.
    + destruct p; discriminate.
    + destruct p as [|a' p]; simpl.
      * intros [= -> Hr]. rewrite Hr in Hg. simpl in Hg.
        rewrite andb_true_r in Hg. exact Hg.
      * intros [= _ Hr]. eapply IH; eauto.
Qed.

Lemma regex_on_stripped text :
  INCHIKEY_REGEX (PyStr.strip text) = key_shapeb (PyStr.strip text).
Proof.
  unfold INCHIKEY_REGEX, key_shapeb. fold (Regex.key_groups (PyStr.strip text)).
  destruct (Regex.key_groups (PyStr.strip text)) as [rest|] eqn:Hc; [|reflexivity].
  destruct rest as [|c rest]; [reflexivity|].
  destruct rest as [|c' rest]; [|reflexivity].
  simpl. apply key_groups_spec in Hc as (g1 & g2 & g3 & Hs & _).
  assert (Hsp : PyStr.isspace c = false).
  { apply (@rstrip_no_trailing_space (PyStr.lstrip text)
             (g1 ++ "-" ++ g2 ++ "-" ++ g3) c).
    unfold PyStr.strip in Hs. rewrite Hs.
    rewrite !app_assoc_str. reflexivity. }
  destruct (Ascii.eqb_spec c "010") as [->|]; [discriminate Hsp | reflexivity].
Qed.

Lemma digit_not_space c : PyStr.isdigit_char c = true -> PyStr.isspace c = false.
Proof.
  destruct c as [[] [] [] [] [] [] [] []]; vm_compute; congruence.
Qed.

Lemma digit_not_AZ c : PyStr.isdigit_char c = true -> PyStr.is_AZ c = false.
Proof.
  destruct c as [[] [] [] [] [] [] [] []]; vm_compute; congruence.
Qed.

Lemma digits_exclude_key text :
  PyStr.isdigit text = true -> key_shapeb (PyStr.strip text) = false.
Proof.
  unfold PyStr.isdigit. destruct text as [|c r]; [discriminate|]. simpl.
  intros H. apply andb_prop in H as [Hc _].
  unfold PyStr.strip. simpl. rewrite (digit_not_space _ Hc). simpl.
  rewrite (digit_not_space _ Hc). simpl.
  unfold key_shapeb, Regex.key_groups. simpl.
  rewrite (digit_not_AZ _ Hc). reflexivity.
Qed.

Lemma only_digits_spec s : only_digitsb s = true <-> OnlyDigits s.
Proof.
  unfold only_digitsb, OnlyDigits. destruct s; simpl.
  - split; [discriminate | intros [H _]; congruence].
  - split; [intros H; split; [discriminate | exact H] | intros [_ H]; exact H].
Qed.

Lemma decimal_is_digit c : is_09 c = true -> PyStr.isdigit_char c = true.
Proof.
  destruct c as [[] [] [] [] [] [] [] []]; vm_compute; congruence.
Qed.

Lemma digit_is_decimal_or_superscript c :
  PyStr.isdigit_char c = is_09 c || is_superscript_digit c.
Proof.
  destruct c as [[] [] [] [] [] [] [] []]; vm_compute; reflexivity.
Qed.

Lemma all_chars_ext (p q : ascii -> bool) s :
  (forall c, p c = q c) -> PyStr.all_chars p s = PyStr.all_chars q s.
Proof.
  intros H. induction s as [|c s IH]; simpl; [reflexivity|].
  rewrite H, IH. reflexivity.
Qed.

Lemma all_chars_weaken (p q : ascii -> bool) s :
  (forall c, p c = true -> q c = true) ->
  PyStr.all_chars p s = true -> PyStr.all_chars q s = true.
Proof.
  intros H. induction s as [|c s IH]; simpl; [reflexivity|].
  intros E. apply andb_prop in E as [E1 E2].
  rewrite (H c E1), (IH E2). reflexivity.
Qed.

(** The digit test of the code against the digits of the specification:
    they agree except on the texts with a superscript digit. *)
Lemma isdigit_decimal s :
  PyStr.isdigit s = true <-> OnlyDigits s \/ SuperscriptDigits s.
Proof.
  unfold PyStr.isdigit, OnlyDigits, SuperscriptDigits.
  rewrite (all_chars_ext _ _ s digit_is_decimal_or_superscript).
  destruct s as [|c s].
  - simpl. split; [discriminate|].
    intros [[H _] | [_ H]]; [congruence | discriminate].
  - cbn [PyStr.is_empty negb andb].
    destruct (PyStr.all_chars is_09 (String c s)) eqn:D.
    + split.
      * intros _. left. split; [discriminate | reflexivity].
      * intros _. apply (all_chars_weaken is_09); [|exact D].
        intros a Ha. rewrite Ha. reflexivity.
    + split.
      * intros H. right. split; [exact H | reflexivity].
      * intros [[_ H] | [H _]]; [discriminate | exact H].
Qed.

Lemma decimal_not_superscript s : OnlyDigits s -> ~ SuperscriptDigits s.
Proof. intros [_ H] [_ H']. congruence. Qed.

Lemma AZ_not_space c : PyStr.is_AZ c = true -> PyStr.isspace c = false.
Proof.
  destruct c as [[] [] [] [] [] [] [] []]; vm_compute; congruence.
Qed.

Lemma rstrip_fixed p c :
  PyStr.isspace c = false ->
  PyStr.rstrip (p ++ String c "") = p ++ String c "".
Proof.
  intros Hc. induction p as [|a p IH]; simpl.
  - rewrite Hc. reflexivity.
  - rewrite IH.
    assert (E : PyStr.is_empty (p ++ String c "") = false)
      by (destruct p; reflexivity).
    rewrite E, andb_false_r. reflexivity.
Qed.

Lemma key_shape_is_stripped s : KeyShape s -> PyStr.strip s = s.
Proof.
  intros (g1 & g2 & g3 & -> & L1 & L2 & L3 & U1 & U2 & U3).
  destruct g1 as [|c1 g1]; [discriminate|].
  destruct g3 as [|c3 g3]; [discriminate|].
  destruct g3; [|discriminate].
  simpl in U1, U3. apply andb_prop in U1 as [U1 _].
  rewrite andb_true_r in U3.
  unfold PyStr.strip.
  change (PyStr.lstrip (String c1 g1 ++ "-" ++ g2 ++ "-" ++ String c3 ""))
    with (if PyStr.isspace c1
          then PyStr.lstrip (g1 ++ "-" ++ g2 ++ "-" ++ String c3 "")
          else String c1 g1 ++ "-" ++ g2 ++ "-" ++ String c3 "").
  rewrite (AZ_not_space _ U1).
  replace (String c1 g1 ++ "-" ++ g2 ++ "-" ++ String c3 "")
    with ((String c1 g1 ++ "-" ++ g2 ++ "-") ++ String c3 "")
    by (rewrite !app_assoc_str; reflexivity).
  apply rstrip_fixed, AZ_not_space, U3.
Qed.

Lemma classify_equation text :
  classify text =
    (if key_shapeb (PyStr.strip text) then StandardizedKey
     else if PyStr.isdigit text then RegistryNumber
     else FreeTextOrStructure).
Proof.
  unfold classify, looks_like_pubchem_cid, looks_like_inchikey.
  rewrite regex_on_stripped.
  destruct (PyStr.isdigit text) eqn:Hd.
  - rewrite (digits_exclude_key _ Hd). reflexivity.
  - reflexivity.
Qed.

(** C7 (as amended).  The classifier is a total function.  It answers
    StandardizedKey exactly when the text, once the white space around it
    is stripped, has the key shape, so in particular when the text has the
    key shape as it stands; it answers RegistryNumber when the text is not
    empty and consists only of decimal digits; the two tests exclude each
    other, so the order in which they are made does not matter.  On a text
    that is not made of decimal and superscript digits with a superscript
    digit among them, it answers RegistryNumber only for decimal digits,
    and FreeTextOrStructure in every case that is left. *)
Theorem classify_by_stripped_shape (text : string) :
  (KeyShape text -> classify text = StandardizedKey)
  /\ (OnlyDigits text -> classify text = RegistryNumber)
  /\ (classify text = StandardizedKey <-> KeyShape (PyStr.strip text))
  /\ (OnlyDigits text -> ~ KeyShape (PyStr.strip text))
  /\ (~ SuperscriptDigits text ->
      (classify text = RegistryNumber <-> OnlyDigits text)
      /\ (classify text = FreeTextOrStructure <->
          ~ KeyShape (PyStr.strip text) /\ ~ OnlyDigits text)
      /\ classify text =
           (if key_shapeb (PyStr.strip text) then StandardizedKey
            else if only_digitsb text then RegistryNumber
            else FreeTextOrStructure)).
Proof.
  pose proof (classify_equation text) as E.
  pose proof (key_shapeb_spec (PyStr.strip text)) as K.
  pose proof (only_digits_spec text) as D.
  pose proof (isdigit_decimal text) as I.
  pose proof (digits_exclude_key text) as X.
  assert (NK : key_shapeb (PyStr.strip text) = false ->
               ~ KeyShape (PyStr.strip text))
    by (intros H1 H2; apply K in H2; congruence).
  split.
  { intros H. rewrite E, (key_shape_is_stripped _ H).
    apply key_shapeb_spec in H. rewrite H. reflexivity. }
  split.
  { intros H. rewrite E, X, (proj2 I (or_introl H)); [reflexivity|].
    apply I. left. exact H. }
  split.
  { rewrite E. destruct (key_shapeb (PyStr.strip text)) eqn:Hk.
    - split; [intros _; apply K; reflexivity | reflexivity].
    - specialize (NK eq_refl).
      destruct (PyStr.isdigit text); split; try discriminate; tauto. }
  split.
  { intros H. apply NK, X, I. left. exact H. }
  intros NS.
  assert (DI : PyStr.isdigit text = only_digitsb text).
  { destruct (only_digitsb text) eqn:Hd.
    - apply I. left. apply D. reflexivity.
    - apply not_true_is_false. intros Hi.
      apply I in Hi as [Hi|Hi]; [|contradiction].
      apply D in Hi. congruence. }
  rewrite E, DI.
  assert (ND : only_digitsb text = false -> ~ OnlyDigits text)
    by (intros H1 H2; apply D in H2; congruence).
  destruct (key_shapeb (PyStr.strip text)) eqn:Hk;
    destruct (only_digitsb text) eqn:Hd.
  - specialize (X DI). congruence.
  - specialize (ND eq_refl). pose proof (proj1 K eq_refl) as HK.
    intuition (try discriminate; try congruence).
  - specialize (NK eq_refl). pose proof (proj1 D eq_refl) as HD.
    intuition (try discriminate; try congruence).
  - specialize (NK eq_refl). specialize (ND eq_refl).
    intuition (try discriminate; try congruence).
Qed.

Lemma classify_by_stripped_shape_witness :
  classify "BSYNRYMUTXBXSQ-UHFFFAOYSA-N" = StandardizedKey
  /\ classify "2244" = RegistryNumber
  /\ classify "aspirin" = FreeTextOrStructure.
Proof.
  split; [|split].
  - apply (proj1 (classify_by_stripped_shape "BSYNRYMUTXBXSQ-UHFFFAOYSA-N")).
    apply key_shapeb_spec. vm_compute. reflexivity.
  - apply (proj1 (proj2 (classify_by_stripped_shape "2244"))).
    apply only_digits_spec. vm_compute. reflexivity.
  - destruct (classify_by_stripped_shape "aspirin") as (_ & _ & _ & _ & H).
    destruct H as (_ & _ & ->); [|vm_compute; reflexivity].
    intros [H _]. vm_compute in H. discriminate H.
Defined.

(** C7, counterexample.  A key preceded by a blank does not have the key
    shape and does not consist of digits, and yet it is classified as a
    StandardizedKey, where the rules as stated give FreeTextOrStructure. *)
Lemma classify_padded_key_counterexample :
  ~ KeyShape padded_key /\ ~ OnlyDigits padded_key
  /\ classify_as_specified padded_key = FreeTextOrStructure
  /\ classify padded_key = StandardizedKey.
Proof.
  split; [|split; [|split]].
  - intros H. apply key_shapeb_spec in H. vm_compute in H. discriminate.
  - intros H. apply only_digits_spec in H. vm_compute in H. discriminate.
  - vm_compute. reflexivity.
  - vm_compute. reflexivity.
Qed.

(** The digit test is [str.isdigit], which also accepts the superscript
    digits: a superscript two is no decimal digit and is taken for a
    registry number all the same. *)
Lemma superscript_taken_for_registry_number :
  ~ OnlyDigits superscript_two /\ SuperscriptDigits superscript_two
  /\ classify_as_specified superscript_two = FreeTextOrStructure
  /\ classify superscript_two = RegistryNumber.
Proof.
  split; [|split; [|split]].
  - intros H. apply only_digits_spec in H. vm_compute in H. discriminate.
  - split; vm_compute; reflexivity.
  - vm_compute. reflexivity.
  - vm_compute. reflexivity.
Qed.

(* ================================================================== *)
(** ** The structure notation through the pipeline *)

Section Structure.
Variable w : World.
Variable identifier : string.

Lemma digits_smiles st :
  Locals.smiles (cid_from_digits identifier st) = Locals.smiles st.
Proof. unfold cid_from_digits. step_cases; reflexivity. Qed.

Lemma given_key_smiles st :
  Locals.smiles (cid_from_given_inchikey w identifier st) = Locals.smiles st.
Proof. unfold cid_from_given_inchikey. step_cases; reflexivity. Qed.

Lemma smiles_key_smiles st :
  Locals.smiles (cid_from_smiles_inchikey w st) = Locals.smiles st.
Proof. unfold cid_from_smiles_inchikey. step_cases; reflexivity. Qed.

Lemma name_smiles st st' :
  cid_from_name w identifier st = Ret st' ->
  Locals.smiles st' = Locals.smiles st.
Proof. unfold cid_from_name. intros H. step_cases; reflexivity. Qed.

(** Lines 297-305: the identifier is adopted exactly when it parses. *)
Lemma parse_smiles :
  Locals.smiles (parse_identifier_as_smiles w identifier Locals.init)
  = structure_from_user w identifier.
Proof.
  unfold parse_identifier_as_smiles, structure_from_user.
  destruct (MolFromSmiles w (JStr identifier)) as [|[m|]]; reflexivity.
Qed.

Lemma resolve_cid_smiles st :
  resolve_cid w identifier = Ret st ->
  Locals.smiles st = structure_from_user w identifier.
Proof.
  unfold resolve_cid. intros H.
  rewrite (name_smiles _ _ H), smiles_key_smiles, given_key_smiles,
    digits_smiles. apply parse_smiles.
Qed.

Lemma depict_smiles st :
  Locals.smiles (depict_and_derive_inchi w st) = Locals.smiles st.
Proof. unfold depict_and_derive_inchi. step_cases; reflexivity. Qed.

Lemma unichem_smiles st st' :
  drugbank_via_unichem w st = Ret st' ->
  Locals.smiles st' = Locals.smiles st.
Proof.
  unfold drugbank_via_unichem. intros H. step_cases; reflexivity.
Qed.

Lemma xrefs_smiles st st' :
  drugbank_via_pubchem w st = Ret st' ->
  Locals.smiles st' = Locals.smiles st.
Proof.
  unfold drugbank_via_pubchem. intros H. step_cases; reflexivity.
Qed.

Lemma formula_smiles st :
  Locals.smiles (formula_and_weight w st) = Locals.smiles st.
Proof. unfold formula_and_weight. step_cases; reflexivity. Qed.

Lemma fingerprint_smiles st :
  Locals.smiles (normalize_and_fingerprint w st) = Locals.smiles st.
Proof. unfold normalize_and_fingerprint. step_cases; reflexivity. Qed.

(** Lines 348-351: the structure fetched by registry id is taken only
    when none is set. *)
Lemma pubchem_smiles st st' :
  pubchem_by_cid w st = Ret st' ->
  exists p,
    (if Py.truthy (Locals.current_pubchem_cid st)
     then get_smiles_from_pubchem w (Locals.current_pubchem_cid st)
     else Ret JNull) = Ret p
    /\ Locals.smiles st' =
       (if Py.truthy (Locals.smiles st) then Locals.smiles st
        else if Py.truthy p then p else Locals.smiles st).
Proof.
  unfold pubchem_by_cid, fetch_inchikey_by_cid,
    fetch_smiles_and_names_by_cid, add_source_st.
  intros H. step_cases; norm_bool; try congruence;
    (eexists; split; [first [eassumption | reflexivity]|]);
    rewrite_truthy; try reflexivity; try congruence.
Qed.

(** Lines 363-366: the same for the structure ChEMBL gives. *)
Lemma chembl_smiles st st' :
  chembl_by_name w identifier st = Ret st' ->
  exists s,
    get_smiles_from_chembl w identifier = Ret s
    /\ Locals.smiles st' =
       (if Py.truthy (Locals.smiles st) then Locals.smiles st
        else if Py.truthy s then s else Locals.smiles st).
Proof.
  unfold chembl_by_name, add_source_st.
  intros H. step_cases; norm_bool; try congruence;
    (eexists; split; [first [eassumption | reflexivity]|]);
    rewrite_truthy; try reflexivity; try congruence.
Qed.

Lemma smiles_null_or_truthy st :
  run_pipeline w identifier = Ret st ->
  PyStr.is_empty identifier = false ->
  structure_from_user w identifier = JNull
  \/ Py.truthy (structure_from_user w identifier) = true.
Proof.
  intros _ Hne. unfold structure_from_user.
  destruct (MolFromSmiles w (JStr identifier)) as [|[m|]]; cbn; auto.
  right. rewrite Hne. reflexivity.
Qed.

End Structure.

Lemma pipeline_smiles (w : World) (identifier : string) (st : Locals.t) :
  PyStr.is_empty identifier = false ->
  run_pipeline w identifier = Ret st ->
  exists p s,
    structure_by_registry_id w identifier = Ret p
    /\ structure_from_secondary w identifier = Ret s
    /\ Locals.smiles st =
       first_truthy [structure_from_user w identifier; p; s].
Proof.
  intros Hne E.
  pose proof (smiles_null_or_truthy _ _ _ E Hne) as Hu.
  unfold run_pipeline, bind in E.
  destruct (resolve_cid w identifier) as [|st2] eqn:E2; [discriminate|].
  destruct (pubchem_by_cid w st2) as [|st4] eqn:E4; [discriminate|].
  destruct (chembl_by_name w identifier st4) as [|st5] eqn:E5; [discriminate|].
  destruct (drugbank_via_unichem _ _) as [|st7] eqn:E7; [discriminate|].
  destruct (drugbank_via_pubchem _ _) as [|st7b] eqn:E7b; [discriminate|].
  injection E as <-.
  rewrite fingerprint_smiles, formula_smiles, (xrefs_smiles _ _ _ E7b),
    (unichem_smiles _ _ _ E7), depict_smiles.
  destruct (pubchem_smiles _ _ _ E4) as (p & Hp & S4).
  destruct (chembl_smiles _ _ _ _ E5) as (s & Hs & S5).
  pose proof (resolve_cid_smiles _ _ _ E2) as S2.
  exists p, s. split; [|split].
  - unfold structure_by_registry_id, bind. rewrite E2. exact Hp.
  - exact Hs.
  - rewrite S5, S4, S2. unfold first_truthy. cbn.
    destruct Hu as [Hu | Hu]; rewrite Hu; cbn.
    + destruct (Py.truthy p) eqn:Tp; cbn.
      * rewrite Tp. reflexivity.
      * destruct (Py.truthy s); reflexivity.
    + rewrite Hu. reflexivity.
Qed.

Lemma first_truthy_null_or_truthy (l : list value) :
  first_truthy l = JNull \/ Py.truthy (first_truthy l) = true.
Proof.
  unfold first_truthy. destruct (find Py.truthy l) as [v|] eqn:F; auto.
  right. apply find_some in F. tauto.
Qed.

(** The structure notation of a returned record is null or truthy: an
    empty text is never stored. *)
Lemma returned_smiles_null_or_truthy (w : World) (identifier : string)
    (c : Compound) :
  get_compound_data w identifier = Ret (CompoundDict c) ->
  smiles_raw c = JNull \/ Py.truthy (smiles_raw c) = true.
Proof.
  unfold get_compound_data. destruct (PyStr.is_empty identifier) eqn:Hne;
    [discriminate|].
  unfold bind. destruct (run_pipeline w identifier) as [|st] eqn:E;
    [discriminate|].
  intros [= <-]. cbn.
  destruct (pipeline_smiles _ _ _ Hne E) as (p & s & _ & _ & ->).
  apply first_truthy_null_or_truthy.
Qed.

(** C3.  The structure notation of the returned record is the first one
    obtained, in the order: the identifier, when RDKit parses it as a
    structure; the structure fetched from PubChem by registry id; the
    structure ChEMBL gives for the name.  A later one never replaces an
    earlier one: an identifier that parses is the structure of the record
    whatever the two services return; failing that, a structure from
    PubChem is the structure of the record whatever ChEMBL returns;
    failing both, the structure from ChEMBL is; and with none there is no
    structure. *)
Theorem first_writer_wins (w : World) (identifier : string) (c : Compound) :
  get_compound_data w identifier = Ret (CompoundDict c) ->
  exists p s,
    structure_by_registry_id w identifier = Ret p
    /\ structure_from_secondary w identifier = Ret s
    /\ smiles_raw c =
       first_truthy [structure_from_user w identifier; p; s]
    /\ (forall m, MolFromSmiles w (JStr identifier) = Ret (Some m) ->
        smiles_raw c = JStr identifier)
    /\ (structure_from_user w identifier = JNull ->
        Py.truthy p = true -> smiles_raw c = p)
    /\ (structure_from_user w identifier = JNull ->
        Py.truthy p = false -> Py.truthy s = true -> smiles_raw c = s)
    /\ (structure_from_user w identifier = JNull ->
        Py.truthy p = false -> Py.truthy s = false -> smiles_raw c = JNull).
Proof.
  unfold get_compound_data. destruct (PyStr.is_empty identifier) eqn:Hne;
    [discriminate|].
  unfold bind. destruct (run_pipeline w identifier) as [|st] eqn:E;
    [discriminate|].
  intros [= <-]. cbn [to_dict smiles_raw].
  destruct (pipeline_smiles _ _ _ Hne E) as (p & s & Hp & Hs & ->).
  exists p, s. split; [exact Hp|]. split; [exact Hs|].
  split; [reflexivity|]. unfold first_truthy, structure_from_user.
  cbn [find]. split; [|split; [|split]].
  - intros m ->. cbn [Py.truthy]. rewrite Hne. reflexivity.
  - intros -> ->. reflexivity.
  - intros -> -> ->. reflexivity.
  - intros -> -> ->. reflexivity.
Qed.

Lemma first_writer_wins_witness :
  structure_from_user ethanol_world "OCC" = JStr "OCC"
  /\ exists p s,
       structure_by_registry_id ethanol_world "OCC" = Ret p
       /\ structure_from_secondary ethanol_world "OCC" = Ret s
       /\ p = JStr "CCO" /\ s = JStr "C(O)C"
       /\ smiles_raw (resolved ethanol_world "OCC") = JStr "OCC".
Proof.
  split; [vm_compute; reflexivity|].
  destruct (first_writer_wins ethanol_world "OCC"
              (resolved ethanol_world "OCC"))
    as (p & s & Hp & Hs & _ & Hu & _).
  { vm_compute. reflexivity. }
  exists p, s. split; [exact Hp|]. split; [exact Hs|].
  split; [vm_compute in Hp; congruence|].
  split; [vm_compute in Hs; congruence|].
  apply (Hu (MolHandle 2)). vm_compute. reflexivity.
Defined.
(* ================================================================== *)
(** ** Records without a structure notation *)

Lemma truthy_not_None v : Py.truthy v = true -> v <> JNull.
Proof. intros H ->. discriminate. Qed.

Lemma looks_like_inchikey_spec text :
  looks_like_inchikey text = true <-> KeyShape (PyStr.strip text).
Proof.
  unfold looks_like_inchikey. rewrite regex_on_stripped.
  apply key_shapeb_spec.
Qed.

Section NoStructure.
Variable w : World.
Variable identifier : string.

Lemma keeps_null_refl st : keeps_null st st.
Proof. red. auto. Qed.

Lemma keeps_null_trans a b c :
  keeps_null a b -> keeps_null b c -> keeps_null a c.
Proof.
  unfold keeps_null. intros H1 H2 Hc.
  destruct (H2 Hc) as (Hb & D2).
  destruct (H1 Hb) as (Ha & D1). auto.
Qed.

Ltac solve_keeps :=
  unfold keeps_null, Derived_null; cbn; intros;
  try discriminate;
  repeat match goal with
  | H : Py.truthy ?v = true, E : ?v = JNull |- _ =>
      rewrite E in H; discriminate H
  end;
  try (split; [assumption | tauto]).

Lemma parse_keeps st :
  keeps_null st (parse_identifier_as_smiles w identifier st).
Proof.
  unfold parse_identifier_as_smiles, add_source_st. step_cases; solve_keeps.
Qed.

Lemma digits_keeps st : keeps_null st (cid_from_digits identifier st).
Proof. unfold cid_from_digits. step_cases; solve_keeps. Qed.

Lemma given_key_keeps st :
  keeps_null st (cid_from_given_inchikey w identifier st).
Proof. unfold cid_from_given_inchikey. step_cases; solve_keeps. Qed.

Lemma smiles_key_keeps st : keeps_null st (cid_from_smiles_inchikey w st).
Proof. unfold cid_from_smiles_inchikey. step_cases; solve_keeps. Qed.

Lemma name_keeps st st' :
  cid_from_name w identifier st = Ret st' -> keeps_null st st'.
Proof. unfold cid_from_name. intros H. step_cases; solve_keeps. Qed.

Lemma pubchem_keeps st st' :
  pubchem_by_cid w st = Ret st' -> keeps_null st st'.
Proof.
  unfold pubchem_by_cid, fetch_inchikey_by_cid,
    fetch_smiles_and_names_by_cid, add_source_st.
  intros H. step_cases; solve_keeps.
Qed.

Lemma chembl_keeps st st' :
  chembl_by_name w identifier st = Ret st' -> keeps_null st st'.
Proof.
  unfold chembl_by_name, add_source_st. intros H. step_cases; solve_keeps.
Qed.

Lemma depict_keeps st : keeps_null st (depict_and_derive_inchi w st).
Proof. unfold depict_and_derive_inchi. step_cases; solve_keeps. Qed.

Lemma unichem_keeps st st' :
  drugbank_via_unichem w st = Ret st' -> keeps_null st st'.
Proof.
  unfold drugbank_via_unichem, add_source_st. intros H.
  step_cases; solve_keeps.
Qed.

Lemma xrefs_keeps st st' :
  drugbank_via_pubchem w st = Ret st' -> keeps_null st st'.
Proof.
  unfold drugbank_via_pubchem, add_source_st. intros H.
  step_cases; solve_keeps.
Qed.

Lemma formula_keeps st : keeps_null st (formula_and_weight w st).
Proof. unfold formula_and_weight. step_cases; solve_keeps. Qed.

Lemma fingerprint_keeps st : keeps_null st (normalize_and_fingerprint w st).
Proof. unfold normalize_and_fingerprint. step_cases; solve_keeps. Qed.

Lemma pipeline_keeps st :
  run_pipeline w identifier = Ret st -> keeps_null Locals.init st.
Proof.
  unfold run_pipeline, resolve_cid, bind. intros H.
  destruct (cid_from_name _ _ _) as [|st2] eqn:E2; [discriminate|].
  destruct (pubchem_by_cid _ _) as [|st4] eqn:E4; [discriminate|].
  destruct (chembl_by_name _ _ _) as [|st5] eqn:E5; [discriminate|].
  destruct (drugbank_via_unichem _ _) as [|st7] eqn:E7; [discriminate|].
  destruct (drugbank_via_pubchem _ _) as [|st7b] eqn:E7b; [discriminate|].
  injection H as <-.
  repeat (eapply keeps_null_trans;
          [| first [ apply fingerprint_keeps | apply formula_keeps
                   | apply xrefs_keeps; eassumption
                   | apply unichem_keeps; eassumption
                   | apply depict_keeps
                   | apply chembl_keeps; eassumption
                   | apply pubchem_keeps; eassumption
                   | apply name_keeps; eassumption
                   | apply smiles_key_keeps | apply given_key_keeps
                   | apply digits_keeps | apply parse_keeps ] ]).
  apply keeps_null_refl.
Qed.

(** *** The key of a record without a structure notation *)

(** Lines 297-333, when no structure notation is adopted. *)
Lemma resolve_cid_key st :
  resolve_cid w identifier = Ret st ->
  Locals.smiles st = JNull -> Key_given identifier st.
Proof.
  unfold resolve_cid. intros H S.
  assert (S0 : Locals.smiles
                 (parse_identifier_as_smiles w identifier Locals.init)
               = JNull).
  { rewrite <- S, (name_smiles _ _ _ _ H), smiles_key_smiles,
      given_key_smiles, digits_smiles. reflexivity. }
  assert (P : parse_identifier_as_smiles w identifier Locals.init
              = Locals.init).
  { revert S0. unfold parse_identifier_as_smiles, add_source_st.
    destruct (MolFromSmiles w (JStr identifier)) as [|[m|]];
      [reflexivity | discriminate | reflexivity]. }
  rewrite P in H. revert H.
  unfold cid_from_name, cid_from_smiles_inchikey, cid_from_given_inchikey,
    cid_from_digits, Key_given.
  intros H. step_cases; auto;
    match goal with
    | B : _ && looks_like_inchikey identifier = true |- _ =>
        apply andb_prop in B as [_ B]; rewrite B; auto
    end.
Qed.

(** Lines 335-360. *)
Lemma pubchem_key st st' :
  pubchem_by_cid w st = Ret st' -> Key_given identifier st ->
  Key_origin w identifier (Locals.pubchem_cid st') (Locals.inchi_key st').
Proof.
  unfold Key_given, Key_origin. intros H (C & K).
  assert (G : Locals.inchi_key st = JNull
              \/ (KeyShape (PyStr.strip identifier)
                  /\ Locals.inchi_key st = JStr identifier
                  /\ Py.truthy (Locals.inchi_key st) = true)).
  { destruct K as [K | (L & K)]; [auto|]. right.
    split; [apply looks_like_inchikey_spec, L|]. split; [exact K|].
    rewrite K. cbn. destruct identifier; [discriminate L | reflexivity]. }
  clear K. revert H.
  unfold pubchem_by_cid, fetch_inchikey_by_cid,
    fetch_smiles_and_names_by_cid, add_source_st.
  intros H.
  destruct G as [G | (S & G & T)]; step_cases; norm_bool;
    try congruence; try (left; assumption);
    try (right; left; split; assumption);
    try (right; right; repeat split; assumption).
Qed.

Ltac solve_same :=
  unfold same_key; cbn; intros; try discriminate;
  repeat match goal with
  | H : Py.truthy ?v = true, E : ?v = JNull |- _ =>
      rewrite E in H; discriminate H
  end; auto.

Lemma chembl_same st st' :
  chembl_by_name w identifier st = Ret st' -> same_key st st'.
Proof.
  unfold chembl_by_name, add_source_st. intros H. step_cases; solve_same.
Qed.

Lemma depict_same st : same_key st (depict_and_derive_inchi w st).
Proof. unfold depict_and_derive_inchi. step_cases; solve_same. Qed.

Lemma unichem_same st st' :
  drugbank_via_unichem w st = Ret st' -> same_key st st'.
Proof.
  unfold drugbank_via_unichem, add_source_st. intros H.
  step_cases; solve_same.
Qed.

Lemma xrefs_same st st' :
  drugbank_via_pubchem w st = Ret st' -> same_key st st'.
Proof.
  unfold drugbank_via_pubchem, add_source_st. intros H.
  step_cases; solve_same.
Qed.

Lemma formula_same st : same_key st (formula_and_weight w st).
Proof. unfold formula_and_weight. step_cases; solve_same. Qed.

Lemma fingerprint_same st : same_key st (normalize_and_fingerprint w st).
Proof. unfold normalize_and_fingerprint. step_cases; solve_same. Qed.

Lemma pipeline_key st :
  run_pipeline w identifier = Ret st -> Locals.smiles st = JNull ->
  Key_origin w identifier (Locals.pubchem_cid st) (Locals.inchi_key st).
Proof.
  unfold run_pipeline, bind. intros H.
  destruct (resolve_cid w identifier) as [|st2] eqn:E2; [discriminate|].
  destruct (pubchem_by_cid _ _) as [|st4] eqn:E4; [discriminate|].
  destruct (chembl_by_name _ _ _) as [|st5] eqn:E5; [discriminate|].
  destruct (drugbank_via_unichem _ _) as [|st7] eqn:E7; [discriminate|].
  destruct (drugbank_via_pubchem _ _) as [|st7b] eqn:E7b; [discriminate|].
  injection H as <-. intros S9.
  destruct (fingerprint_same _ S9) as (C9 & K9).
  destruct (fingerprint_keeps _ S9) as (S8 & _).
  destruct (formula_same _ S8) as (C8 & K8).
  destruct (formula_keeps _ S8) as (S7b & _).
  destruct (xrefs_same _ _ E7b S7b) as (C7b & K7b).
  destruct (xrefs_keeps _ _ E7b S7b) as (S7 & _).
  destruct (unichem_same _ _ E7 S7) as (C7 & K7).
  destruct (unichem_keeps _ _ E7 S7) as (S6 & _).
  destruct (depict_same _ S6) as (C6 & K6).
  destruct (depict_keeps _ S6) as (S5 & _).
  destruct (chembl_same _ _ E5 S5) as (C5 & K5).
  destruct (chembl_keeps _ _ E5 S5) as (S4 & _).
  destruct (pubchem_keeps _ _ E4 S4) as (S2 & _).
  rewrite C9, K9, C8, K8, C7b, K7b, C7, K7, C6, K6, C5, K5.
  exact (pubchem_key _ _ E4 (resolve_cid_key _ E2 S2)).
Qed.

End NoStructure.

(** C2 (as amended).  When the structure notation of the returned record is
    null, the long-form identifier, the formula, the weight, the
    fingerprint, the depiction and the normalized notation are null.  The
    short key is then null; or it is the identifier as it was given, the
    identifier having the key shape once the white space around it is
    stripped; or it is the key PubChem returns for the registry id of the
    record. *)
Theorem derived_fields_null_without_structure
    (w : World) (identifier : string) (data : Data) :
  get_compound_data w identifier = Ret data ->
  Get.field smiles_raw data = JNull ->
  Get.field inchi data = JNull
  /\ Get.field molecular_formula data = JNull
  /\ Get.field molecular_weight data = JNull
  /\ Get.field fingerprint data = JNull
  /\ Get.field structure_2d_svg data = JNull
  /\ Get.field smiles_normalized data = JNull
  /\ Key_origin w identifier (Get.field pubchem_cid data)
       (Get.field inchi_key data).
Proof.
  unfold get_compound_data, bind. intros H Hs.
  destruct (PyStr.is_empty identifier).
  - injection H as <-. cbn. repeat split; auto. left. reflexivity.
  - destruct (run_pipeline w identifier) as [|st] eqn:E; [discriminate|].
    injection H as <-. cbn in *.
    destruct (pipeline_keeps _ _ _ E Hs) as (_ & D).
    destruct D as (D1 & D2 & D3 & D4 & D5 & D6).
    { cbv. repeat split. }
    repeat split; auto. exact (pipeline_key _ _ _ E Hs).
Qed.

Lemma derived_fields_null_without_structure_witness :
  Get.field inchi (CompoundDict key_only_record) = JNull
  /\ Get.field molecular_formula (CompoundDict key_only_record) = JNull
  /\ Get.field molecular_weight (CompoundDict key_only_record) = JNull
  /\ Get.field fingerprint (CompoundDict key_only_record) = JNull
  /\ Get.field structure_2d_svg (CompoundDict key_only_record) = JNull
  /\ Get.field smiles_normalized (CompoundDict key_only_record) = JNull
  /\ Key_origin offline "BSYNRYMUTXBXSQ-UHFFFAOYSA-N"
       (Get.field pubchem_cid (CompoundDict key_only_record))
       (Get.field inchi_key (CompoundDict key_only_record)).
Proof.
  apply (derived_fields_null_without_structure offline
           "BSYNRYMUTXBXSQ-UHFFFAOYSA-N" (CompoundDict key_only_record)).
  - vm_compute. reflexivity.
  - reflexivity.
Defined.

(* ================================================================== *)
(** ** Links, the registry-id step, the fingerprint *)

Lemma existsb_name_In n l :
  existsb (fun s => String.eqb (db_name s) n) l = true <-> In n (names_of l).
Proof.
  unfold names_of. rewrite existsb_exists, in_map_iff. split.
  - intros (s & Hs & He). apply String.eqb_eq in He. eauto.
  - intros (s & He & Hs). exists s. split; auto. apply String.eqb_eq. auto.
Qed.

Lemma add_source_present n u l : In n (names_of (add_source n u l)).
Proof.
  unfold add_source.
  destruct (existsb _ l) eqn:E; cbn.
  - apply existsb_name_In. exact E.
  - unfold names_of. rewrite map_app, in_app_iff. right. left. reflexivity.
Qed.

Lemma add_source_keeps n m u l :
  In m (names_of l) -> In m (names_of (add_source n u l)).
Proof.
  unfold add_source. destruct (existsb _ l); cbn; auto.
  unfold names_of. rewrite map_app, in_app_iff. auto.
Qed.

Lemma add_source_NoDup n u l :
  NoDup (names_of l) -> NoDup (names_of (add_source n u l)).
Proof.
  intros H. unfold add_source.
  destruct (existsb _ l) eqn:E; cbn; auto.
  unfold names_of. rewrite map_app. cbn.
  apply NoDup_app; auto.
  - constructor; [intros []|constructor].
  - intros x Hx [<-|[]].
    apply existsb_name_In in Hx. congruence.
Qed.

Lemma add_source_twice n u u' l :
  add_source n u' (add_source n u l) = add_source n u l.
Proof.
  pose proof (add_source_present n u l) as H.
  apply existsb_name_In in H.
  unfold add_source at 1. rewrite H. reflexivity.
Qed.

Lemma add_all_NoDup calls l :
  NoDup (names_of l) -> NoDup (names_of (add_all calls l)).
Proof.
  revert l. induction calls as [|c calls IH]; intros l H; cbn; auto.
  apply IH, add_source_NoDup, H.
Qed.

Section Links.
Variable w : World.
Variable identifier : string.

Ltac solve_links :=
  unfold links_ok in *; cbn in *;
  repeat apply add_source_NoDup; auto.

Lemma parse_links st :
  links_ok st -> links_ok (parse_identifier_as_smiles w identifier st).
Proof.
  unfold parse_identifier_as_smiles, add_source_st. intros H.
  step_cases; solve_links.
Qed.

Lemma resolve_cid_links st :
  resolve_cid w identifier = Ret st -> links_ok st.
Proof.
  unfold resolve_cid, cid_from_name, cid_from_smiles_inchikey,
    cid_from_given_inchikey, cid_from_digits.
  pose proof (parse_links Locals.init) as H0.
  assert (H1 : links_ok Locals.init) by (red; cbn; constructor).
  specialize (H0 H1). intros H.
  step_cases; solve_links.
Qed.

Lemma pubchem_links st st' :
  pubchem_by_cid w st = Ret st' -> links_ok st -> links_ok st'.
Proof.
  unfold pubchem_by_cid, fetch_inchikey_by_cid,
    fetch_smiles_and_names_by_cid, add_source_st.
  intros H H0. step_cases; solve_links.
Qed.

Lemma chembl_links st st' :
  chembl_by_name w identifier st = Ret st' -> links_ok st -> links_ok st'.
Proof.
  unfold chembl_by_name, add_source_st.
  intros H H0. step_cases; solve_links.
Qed.

Lemma depict_links st :
  links_ok st -> links_ok (depict_and_derive_inchi w st).
Proof.
  unfold depict_and_derive_inchi. intros H0. step_cases; solve_links.
Qed.

Lemma unichem_links st st' :
  drugbank_via_unichem w st = Ret st' -> links_ok st -> links_ok st'.
Proof.
  unfold drugbank_via_unichem, add_source_st.
  intros H H0. step_cases; solve_links.
Qed.

Lemma xrefs_links st st' :
  drugbank_via_pubchem w st = Ret st' -> links_ok st -> links_ok st'.
Proof.
  unfold drugbank_via_pubchem, add_source_st.
  intros H H0. step_cases; solve_links.
Qed.

Lemma formula_links st :
  links_ok st -> links_ok (formula_and_weight w st).
Proof.
  unfold formula_and_weight. intros H0. step_cases; solve_links.
Qed.

Lemma fingerprint_links st :
  links_ok st -> links_ok (normalize_and_fingerprint w st).
Proof.
  unfold normalize_and_fingerprint. intros H0. step_cases; solve_links.
Qed.

Lemma pipeline_links st :
  run_pipeline w identifier = Ret st -> links_ok st.
Proof.
  unfold run_pipeline, bind. intros E.
  destruct (resolve_cid w identifier) as [|st2] eqn:E2; [discriminate|].
  destruct (pubchem_by_cid w st2) as [|st4] eqn:E4; [discriminate|].
  destruct (chembl_by_name w identifier st4) as [|st5] eqn:E5;
    [discriminate|].
  destruct (drugbank_via_unichem _ _) as [|st7] eqn:E7; [discriminate|].
  destruct (drugbank_via_pubchem _ _) as [|st7b] eqn:E7b; [discriminate|].
  injection E as <-.
  apply fingerprint_links, formula_links.
  apply (xrefs_links _ _ E7b), (unichem_links _ _ E7), depict_links.
  apply (chembl_links _ _ E5), (pubchem_links _ _ E4).
  apply resolve_cid_links, E2.
Qed.

End Links.

(** C9.  Adding a link under a name that is already present changes
    nothing; whatever the sequence of additions to the empty list, no name
    occurs twice in the result; the links of a returned record carry
    pairwise different names. *)
Theorem add_source_once_per_name :
  (forall n u u' l, add_source n u' (add_source n u l) = add_source n u l)
  /\ (forall calls, NoDup (names_of (add_all calls [])))
  /\ (forall calls n,
        (count_occ string_dec (names_of (add_all calls [])) n <= 1)%nat)
  /\ (forall w identifier c,
        get_compound_data w identifier = Ret (CompoundDict c) ->
        NoDup (names_of (sources c))).
Proof.
  split; [exact add_source_twice|].
  assert (N : forall calls, NoDup (names_of (add_all calls []))).
  { intros calls. apply add_all_NoDup. constructor. }
  split; [exact N|]. split.
  - intros calls n. apply (proj1 (NoDup_count_occ string_dec _)), N.
  - intros w identifier c. unfold get_compound_data.
    destruct (PyStr.is_empty identifier); [discriminate|].
    unfold bind. destruct (run_pipeline w identifier) as [|st] eqn:E;
      [discriminate|].
    intros [= <-]. cbn. apply (pipeline_links _ _ _ E).
Qed.

Lemma add_source_once_per_name_witness :
  NoDup (names_of (sources (resolved ethanol_world "OCC"))).
Proof.
  apply (proj2 (proj2 (proj2 add_source_once_per_name))
           ethanol_world "OCC" (resolved ethanol_world "OCC")).
  vm_compute. reflexivity.
Defined.

(** Lines 335-360.  When a registry id was obtained, the step that queries
    PubChem by that id records the PubChem link; fetches the key by
    registry id if none is known and keeps a known one; fetches the
    structure by registry id and adopts it only if none is set; and fetches
    the two names by registry id only when that structure request gave a
    structure, leaving the names as they were otherwise. *)
Lemma registry_id_step (w : World) (st st' : Locals.t) :
  Py.truthy (Locals.current_pubchem_cid st) = true ->
  pubchem_by_cid w st = Ret st' ->
  Locals.pubchem_cid st' = Locals.current_pubchem_cid st
  /\ In "PubChem" (names_of (Locals.sources st'))
  /\ (exists k,
        (if Py.truthy (Locals.inchi_key st) then Ret JNull
         else get_inchikey_from_pubchem w (Locals.current_pubchem_cid st))
        = Ret k
        /\ Locals.inchi_key st' =
           (if Py.truthy (Locals.inchi_key st) then Locals.inchi_key st
            else if Py.truthy k then k else Locals.inchi_key st))
  /\ (exists p,
        get_smiles_from_pubchem w (Locals.current_pubchem_cid st) = Ret p
        /\ Locals.smiles st' =
           (if Py.truthy (Locals.smiles st) then Locals.smiles st
            else if Py.truthy p then p else Locals.smiles st)
        /\ (Py.truthy p = false ->
            Locals.iupac_name st' = Locals.iupac_name st
            /\ Locals.common_name st' = Locals.common_name st)
        /\ (Py.truthy p = true ->
            exists names,
              get_names_from_pubchem w (Locals.current_pubchem_cid st)
              = Ret names
              /\ Locals.iupac_name st' =
                 (if Py.truthy (names_iupac_name names)
                  then names_iupac_name names else Locals.iupac_name st)
              /\ Locals.common_name st' =
                 (if Py.truthy (names_common_name names)
                  then names_common_name names else Locals.common_name st))).
Proof.
  unfold pubchem_by_cid, fetch_inchikey_by_cid,
    fetch_smiles_and_names_by_cid, add_source_st.
  intros Hc H. rewrite Hc in H.
  step_cases; norm_bool; try congruence;
    (split; [reflexivity|]);
    (split; [apply add_source_present|]);
    (split; [eexists; split; [first [eassumption | reflexivity]|];
             rewrite_truthy; try reflexivity; try congruence|]);
    (eexists; split; [eassumption|]);
    (split; [rewrite_truthy; try reflexivity; try congruence|]);
    (split; [intros; try congruence; auto|]);
    intros; try congruence;
    (eexists; split; [eassumption|]); rewrite_truthy; auto.
Qed.

Lemma registry_id_step_on_ethanol :
  exists st',
    pubchem_by_cid ethanol_world with_cid_702 = Ret st'
    /\ Locals.pubchem_cid st' = JNum 702
    /\ In "PubChem" (names_of (Locals.sources st'))
    /\ Locals.smiles st' = JStr "CCO"
    /\ Locals.common_name st' = JStr "ethanol".
Proof.
  destruct (pubchem_by_cid ethanol_world with_cid_702) as [e|st'] eqn:E.
  - vm_compute in E. discriminate E.
  - exists st'. split; [reflexivity|].
    destruct (registry_id_step ethanol_world with_cid_702 st' eq_refl E)
      as (H1 & H2 & _ & _).
    vm_compute in E. injection E as <-.
    repeat split; auto.
Defined.

(** C6.  The fingerprint of a returned record is computed from the
    normalized notation.  For a record with a structure notation, the
    normalized notation is what standardizing the structure notation
    gives, and the fingerprint is the 2048-bit Morgan fingerprint of
    radius 2 of the molecule parsed from the normalized notation: it is
    produced whenever the three computations succeed, and it is absent
    otherwise.  Hence two records whose structure notations standardize to
    the same form carry the same normalized notation and the same
    fingerprint. *)
Theorem fingerprint_from_normalized_form
    (w : World) (id1 id2 : string) (c1 c2 : Compound) :
  get_compound_data w id1 = Ret (CompoundDict c1) ->
  get_compound_data w id2 = Ret (CompoundDict c2) ->
  Py.truthy (smiles_raw c1) = true ->
  Py.truthy (smiles_raw c2) = true ->
  standardize_smiles w (smiles_raw c1) = standardize_smiles w (smiles_raw c2) ->
  fingerprint c1 = fingerprint c2
  /\ smiles_normalized c1 = smiles_normalized c2
  /\ (fingerprint c1 <> JNull ->
      exists mol,
        standardize_smiles w (smiles_raw c1) = Ret (smiles_normalized c1)
        /\ MolFromSmiles w (smiles_normalized c1) = Ret (Some mol)
        /\ GetMorganFingerprintAsBitVect w mol 2 2048 = Ret (fingerprint c1))
  /\ smiles_normalized c1 = normalized_form w (smiles_raw c1)
  /\ fingerprint c1 = fingerprint_of_normalized w (smiles_raw c1)
  /\ (forall n mol fp,
        standardize_smiles w (smiles_raw c1) = Ret n ->
        MolFromSmiles w n = Ret (Some mol) ->
        GetMorganFingerprintAsBitVect w mol 2 2048 = Ret fp ->
        smiles_normalized c1 = n /\ fingerprint c1 = fp
        /\ smiles_normalized c2 = n /\ fingerprint c2 = fp).
Proof.
  unfold get_compound_data.
  destruct (PyStr.is_empty id1); [discriminate|].
  destruct (PyStr.is_empty id2); [discriminate|].
  unfold run_pipeline, bind.
  destruct (resolve_cid w id1) as [|a2]; [discriminate|].
  destruct (pubchem_by_cid w a2) as [|a4]; [discriminate|].
  destruct (chembl_by_name w id1 a4) as [|a5]; [discriminate|].
  destruct (drugbank_via_unichem w _) as [|a7]; [discriminate|].
  destruct (drugbank_via_pubchem w a7) as [|a7b]; [discriminate|].
  destruct (resolve_cid w id2) as [|b2]; [discriminate|].
  destruct (pubchem_by_cid w b2) as [|b4]; [discriminate|].
  destruct (chembl_by_name w id2 b4) as [|b5]; [discriminate|].
  destruct (drugbank_via_unichem w _) as [|b7]; [discriminate|].
  destruct (drugbank_via_pubchem w b7) as [|b7b]; [discriminate|].
  intros [= <-] [= <-]. cbn.
  rewrite !fingerprint_smiles.
  generalize (formula_and_weight w a7b) (formula_and_weight w b7b).
  intros sa sb. unfold normalize_and_fingerprint, normalized_form,
    fingerprint_of_normalized. cbn.
  intros Ta Tb E. rewrite Ta, Tb, <- E.
  destruct (standardize_smiles w (Locals.smiles sa)) as [|n]; cbn.
  - repeat split; auto; congruence.
  - destruct (MolFromSmiles w n) as [|[mol|]] eqn:Em; cbn;
      try (repeat split; auto; congruence).
    destruct (GetMorganFingerprintAsBitVect w mol 2 2048) eqn:Ef; cbn;
      try (repeat split; auto; congruence).
    repeat split; auto; try congruence. intros _. exists mol. auto.
Qed.

Lemma fingerprint_from_normalized_form_witness :
  smiles_raw (resolved ethanol_world "OCC") = JStr "OCC"
  /\ smiles_raw (resolved ethanol_world "CCO") = JStr "CCO"
  /\ smiles_normalized (resolved ethanol_world "OCC") = JStr "CCO"
  /\ fingerprint (resolved ethanol_world "OCC") = JStr (zero_bits 2048)
  /\ fingerprint (resolved ethanol_world "CCO") = JStr (zero_bits 2048).
Proof.
  split; [vm_compute; reflexivity|]. split; [vm_compute; reflexivity|].
  destruct (fingerprint_from_normalized_form ethanol_world "OCC" "CCO"
              (resolved ethanol_world "OCC") (resolved ethanol_world "CCO"))
    as (_ & _ & _ & _ & _ & H); try (vm_compute; reflexivity).
  destruct (H (JStr "CCO") (MolHandle 1) (JStr (zero_bits 2048)))
    as (H1 & H2 & _ & H4); try (vm_compute; reflexivity).
  split; [exact H1|]. split; [exact H2 | exact H4].
Defined.

(* ================================================================== *)
(** ** Adapters on malformed payloads; counterexamples *)

(** C5.  The name search of PubChem answers with status 200 and an empty
    list of ids: [get_cid_from_pubchem] raises IndexError, which its
    [except] clause does not list, and the exception leaves
    [get_compound_data] as well; the upload route reports it as a
    processing error.  A body that is a JSON list gives a TypeError in the
    same way, and [get_names_from_pubchem] raises IndexError on an empty
    information list. *)
Theorem adapter_raises_on_empty_list :
  get_cid_from_pubchem empty_cid_list_world "aspirin" = Raise IndexError
  /\ get_cid_from_pubchem list_body_world "aspirin" = Raise TypeError
  /\ get_names_from_pubchem empty_information_world (JNum 2244)
     = Raise IndexError
  /\ get_compound_data empty_cid_list_world "aspirin" = Raise IndexError
  /\ fst (upload empty_cid_list_world [] "aspirin")
     = ProcessingFailed IndexError.
Proof. repeat split; vm_compute; reflexivity. Qed.

(** What the [except] clause of an adapter does achieve: a transport error
    or a status other than 200 gives None. *)
Lemma first_cid_unavailable (h : http) :
  (forall e, h = GetRaises e -> is_RequestException e = true ->
             first_cid h = Ret JNull)
  /\ (forall sc j, h = Response sc j -> sc <> 200 -> first_cid h = Ret JNull).
Proof.
  split.
  - intros e -> He. unfold first_cid, caught_by_adapter. simpl.
    rewrite He. reflexivity.
  - intros sc j -> Hsc. unfold first_cid. simpl.
    destruct (Z.eqb_spec sc 200); [contradiction | reflexivity].
Qed.

(** C2, counterexample.  With no service reachable, a key given as the
    identifier comes back as [inchi_key] although no structure notation was
    found. *)
Lemma key_without_structure_counterexample :
  get_compound_data offline "BSYNRYMUTXBXSQ-UHFFFAOYSA-N"
    = Ret (CompoundDict key_only_record)
  /\ smiles_raw key_only_record = JNull
  /\ inchi_key key_only_record = JStr "BSYNRYMUTXBXSQ-UHFFFAOYSA-N"
  /\ inchi_key key_only_record <> JNull.
Proof.
  repeat split; try (vm_compute; reflexivity). discriminate.
Qed.

(** C8.  The registry id 2244 is obtained, no name is known yet and
    PubChem gives both names for that id, but its request for the structure
    of that id fails: [get_compound_data] records the PubChem link and
    returns a record without names, because the names are requested only
    inside [if pubchem_smiles:]. *)
Theorem names_not_fetched_without_structure :
  get_compound_data names_without_structure_world "2244"
    = Ret (CompoundDict link_only_record)
  /\ pubchem_cid link_only_record = JStr "2244"
  /\ In "PubChem" (names_of (sources link_only_record))
  /\ get_smiles_from_pubchem names_without_structure_world (JStr "2244")
     = Ret JNull
  /\ get_names_from_pubchem names_without_structure_world (JStr "2244")
     = Ret {| names_iupac_name := JStr "2-acetyloxybenzoic acid";
              names_common_name := JStr "aspirin" |}
  /\ iupac_name link_only_record = JNull
  /\ common_name link_only_record = JNull.
Proof.
  repeat split; try (vm_compute; reflexivity).
  left. reflexivity.
Qed.

(* ================================================================== *)
(** ** The duplicate check *)

Lemma dedup_block_as_step (data : Data) (catalog : Catalog) (p : Predicate)
    (next : db_result (option (DedupStep * Row))) :
  dedup_block (p_step p) (p_eq p) (p_column p)
    (Get.field (p_field p) data) catalog next
  = match run_step data catalog p with
    | Hit r => DbRet (Some (p_step p, r))
    | Failed e => DbRaise e
    | Skipped | Missed => next
    end.
Proof.
  unfold dedup_block, run_step, select_one, db_bind.
  destruct (Py.truthy _); [|reflexivity].
  destruct (bind_param _); [reflexivity|].
  destruct (find _ _); reflexivity.
Qed.

Lemma find_existing_is_cascade data catalog :
  find_existing data catalog = cascade data catalog.
Proof.
  unfold cascade, cascade_order. cbn [map first_match].
  set (p1 := {| p_step := ByInchiKey |}).
  set (p2 := {| p_step := ByNormalizedSmiles |}).
  set (p3 := {| p_step := ByRawSmiles |}).
  set (p4 := {| p_step := ByCommonName |}).
  change (find_existing data catalog) with
    (dedup_block (p_step p1) (p_eq p1) (p_column p1)
       (Get.field (p_field p1) data) catalog
    (dedup_block (p_step p2) (p_eq p2) (p_column p2)
       (Get.field (p_field p2) data) catalog
    (dedup_block (p_step p3) (p_eq p3) (p_column p3)
       (Get.field (p_field p3) data) catalog
    (dedup_block (p_step p4) (p_eq p4) (p_column p4)
       (Get.field (p_field p4) data) catalog (DbRet None))))).
  rewrite !dedup_block_as_step.
  destruct (run_step data catalog p1), (run_step data catalog p2),
    (run_step data catalog p3), (run_step data catalog p4); reflexivity.
Qed.

Lemma run_step_hit data catalog p r :
  run_step data catalog p = Hit r ->
  In r catalog
  /\ Py.truthy (Get.field (p_field p) data) = true
  /\ exists v, bind_param (Get.field (p_field p) data) = DbRet v
               /\ p_eq p (p_column p r) v = true.
Proof.
  unfold run_step. destruct (Py.truthy _); [|discriminate].
  destruct (bind_param _) as [|v]; [discriminate|].
  destruct (find _ catalog) as [r'|] eqn:F; [|discriminate].
  intros [= <-]. apply find_some in F as [Hin Heq]. eauto.
Qed.

Lemma run_step_missed data catalog p :
  run_step data catalog p = Missed ->
  forall v r, bind_param (Get.field (p_field p) data) = DbRet v ->
              In r catalog -> p_eq p (p_column p r) v = false.
Proof.
  unfold run_step. destruct (Py.truthy _); [|discriminate].
  destruct (bind_param _) as [|v']; [discriminate|].
  destruct (find _ catalog) as [r'|] eqn:F; [discriminate|].
  intros _ v r [= <-] Hin. exact (find_none _ _ F r Hin).
Qed.

Lemma find_existing_hit data catalog step r :
  find_existing data catalog = DbRet (Some (step, r)) ->
  exists p, In p cascade_order /\ p_step p = step
            /\ run_step data catalog p = Hit r.
Proof.
  rewrite find_existing_is_cascade.
  unfold cascade. unfold cascade_order. cbn [map first_match].
  set (p1 := {| p_step := ByInchiKey |}).
  set (p2 := {| p_step := ByNormalizedSmiles |}).
  set (p3 := {| p_step := ByRawSmiles |}).
  set (p4 := {| p_step := ByCommonName |}).
  destruct (run_step data catalog p1) eqn:E1;
  destruct (run_step data catalog p2) eqn:E2;
  destruct (run_step data catalog p3) eqn:E3;
  destruct (run_step data catalog p4) eqn:E4;
  cbn; intros H; try discriminate; injection H as <- <-;
  first [ exists p1; cbn; split; [tauto | split; [reflexivity | assumption]]
        | exists p2; cbn; split; [tauto | split; [reflexivity | assumption]]
        | exists p3; cbn; split; [tauto | split; [reflexivity | assumption]]
        | exists p4; cbn; split; [tauto | split; [reflexivity | assumption]] ].
Qed.

(** C1.  The check applies the four exact-match predicates in the order
    key, normalized notation, raw notation, name without regard to case; a
    step whose field is null or empty is skipped, the first hit is the
    answer.  Hence, whenever some row matches the raw notation of the new
    record, the check finds a row by one of the first three steps whatever
    row matches the name: the answer is the hit of the key step or of the
    normalized step if one of them hits, and otherwise the first row
    matching the raw notation, found by the raw step; it is never no match
    and never a row found by the name step.  The answer is no match
    exactly when every step is skipped or misses. *)
Theorem dedup_cascade_order (data : Data) (catalog : Catalog) :
  find_existing data catalog = cascade data catalog
  /\ (forall step r,
        find_existing data catalog = DbRet (Some (step, r)) ->
        exists p, In p cascade_order /\ p_step p = step
                  /\ run_step data catalog p = Hit r)
  /\ (forall v r_raw,
        Py.truthy (Get.field smiles_raw data) = true ->
        bind_param (Get.field smiles_raw data) = DbRet v ->
        In r_raw catalog -> sql_eq (row_smiles_raw r_raw) v = true ->
        exists r,
          find (fun x => sql_eq (row_smiles_raw x) v) catalog = Some r
          /\ In r catalog /\ sql_eq (row_smiles_raw r) v = true
          /\ find_existing data catalog
             = match nth_step 0 data catalog with
               | Hit r1 => DbRet (Some (ByInchiKey, r1))
               | Failed e => DbRaise e
               | Skipped | Missed =>
                   match nth_step 1 data catalog with
                   | Hit r2 => DbRet (Some (ByNormalizedSmiles, r2))
                   | Failed e => DbRaise e
                   | Skipped | Missed => DbRet (Some (ByRawSmiles, r))
                   end
               end
          /\ find_existing data catalog <> DbRet None
          /\ (forall r', find_existing data catalog
                         <> DbRet (Some (ByCommonName, r')))
          /\ (passes_on (nth_step 0 data catalog) ->
              passes_on (nth_step 1 data catalog) ->
              find_existing data catalog = DbRet (Some (ByRawSmiles, r))))
  /\ (find_existing data catalog = DbRet None <->
      forall p, In p cascade_order -> passes_on (run_step data catalog p)).
Proof.
  split; [apply find_existing_is_cascade|].
  split; [apply find_existing_hit|].
  rewrite find_existing_is_cascade.
  unfold cascade, nth_step, passes_on. unfold cascade_order.
  cbn [map first_match nth_error].
  set (p1 := {| p_step := ByInchiKey |}).
  set (p2 := {| p_step := ByNormalizedSmiles |}).
  set (p3 := {| p_step := ByRawSmiles |}).
  set (p4 := {| p_step := ByCommonName |}).
  split.
  - intros v r_raw Ht Hb Hin Heq.
    assert (H3 : exists r,
              run_step data catalog p3 = Hit r
              /\ find (fun x => sql_eq (row_smiles_raw x) v) catalog = Some r).
    { unfold run_step. cbn [p_field p_eq p_column p3]. rewrite Ht, Hb.
      destruct (find _ catalog) as [r|] eqn:F; [eauto|].
      pose proof (find_none _ _ F r_raw Hin) as N. cbn in N. congruence. }
    destruct H3 as (r & H3 & F3). exists r.
    destruct (run_step_hit _ _ _ _ H3) as (Hr & _ & v' & Hb' & Hm).
    cbn [p_field p_eq p_column p3] in Hb', Hm.
    rewrite Hb in Hb'. injection Hb' as <-.
    split; [exact F3|]. split; [exact Hr|]. split; [exact Hm|].
    rewrite H3.
    destruct (run_step data catalog p1) eqn:E1;
    destruct (run_step data catalog p2) eqn:E2;
    cbn [p_step p1 p2 p3];
    (split; [reflexivity|]); (split; [discriminate|]);
    (split; [intros r'; discriminate|]);
    intros [H1|H1] [H2|H2]; try discriminate; reflexivity.
  - split.
    + destruct (run_step data catalog p1) eqn:E1;
      destruct (run_step data catalog p2) eqn:E2;
      destruct (run_step data catalog p3) eqn:E3;
      destruct (run_step data catalog p4) eqn:E4;
      cbn; intros H; try discriminate;
      intros p [<-|[<-|[<-|[<-|[]]]]];
      match goal with
      | E : run_step data catalog ?q = _ |- context [run_step data catalog ?q] =>
          rewrite E
      end; auto.
    + intros H.
      destruct (H p1) as [-> | ->]; [cbn; tauto| |];
      (destruct (H p2) as [-> | ->]; [cbn; tauto| |]);
      (destruct (H p3) as [-> | ->]; [cbn; tauto| |]);
      (destruct (H p4) as [-> | ->]; [cbn; tauto| |]); reflexivity.
Qed.

Lemma dedup_cascade_order_witness :
  find_existing new_ethanol_raw_only [name_match_row; raw_match_row]
  = DbRet (Some (ByRawSmiles, raw_match_row))
  /\ find_existing new_ethanol [name_only_row; raw_and_key_row]
     = DbRet (Some (ByInchiKey, raw_and_key_row))
  /\ sql_eq_nocase (row_common_name name_only_row) (SqlText "ethanol") = true.
Proof.
  split; [|split; [|reflexivity]].
  - destruct (dedup_cascade_order new_ethanol_raw_only
                [name_match_row; raw_match_row]) as (_ & _ & H & _).
    destruct (H (SqlText "CCO") raw_match_row)
      as (r & F & _ & _ & _ & _ & _ & E);
      [reflexivity | reflexivity | right; left; reflexivity | reflexivity |].
    vm_compute in F. injection F as <-.
    apply E; left; reflexivity.
  - destruct (dedup_cascade_order new_ethanol
                [name_only_row; raw_and_key_row]) as (_ & _ & H & _).
    destruct (H (SqlText "CCO") raw_and_key_row)
      as (r & _ & _ & _ & E & _);
      [reflexivity | reflexivity | right; left; reflexivity | reflexivity |].
    rewrite E. vm_compute. reflexivity.
Defined.

(** The key step comes before the raw step.  The catalog holds a row that
    matches the raw notation of the new record and a different row that
    matches its name and carries its key: the check answers with the second
    row, found by the key step. *)
Lemma key_hit_precedes_raw_match :
  In raw_match_row [raw_match_row; name_match_row]
  /\ sql_eq (row_smiles_raw raw_match_row) (SqlText "CCO") = true
  /\ In name_match_row [raw_match_row; name_match_row]
  /\ raw_match_row <> name_match_row
  /\ sql_eq_nocase (row_common_name name_match_row) (SqlText "ethanol") = true
  /\ sql_eq (row_smiles_raw name_match_row) (SqlText "CCO") = false
  /\ find_existing new_ethanol [raw_match_row; name_match_row]
     = DbRet (Some (ByInchiKey, name_match_row)).
Proof.
  repeat split; try (vm_compute; reflexivity); try (cbn; tauto).
  intros H. discriminate H.
Qed.

(* ================================================================== *)
(** ** The upload route *)

Lemma check_and_insert_outcome data catalog :
  match check_and_insert data catalog with
  | (Added, catalog') =>
      find_existing data catalog = DbRet None
      /\ insert_compound data catalog = DbRet catalog'
  | (AlreadyExists step id, catalog') =>
      catalog' = catalog
      /\ exists r, find_existing data catalog = DbRet (Some (step, r))
                   /\ compound_id r = id
  | (DatabaseError, catalog') | (Unhandled _, catalog') => catalog' = catalog
  | _ => False
  end.
Proof.
  unfold check_and_insert, db_bind.
  destruct (find_existing data catalog) as [[]|[[step r]|]]; cbn; auto.
  - split; eauto.
  - destruct (insert_compound data catalog) as [[]|c']; cbn; auto.
Qed.

Lemma insert_compound_appends data catalog catalog' :
  insert_compound data catalog = DbRet catalog' ->
  exists row,
    catalog' = (catalog ++ [row])%list
    /\ compound_id row = next_id catalog
    /\ row_metadata row = Get.sources_of data
    /\ bind_param (Get.field smiles_raw data) = DbRet (row_smiles_raw row)
    /\ bind_param (Get.field inchi_key data) = DbRet (row_inchi_key row).
Proof.
  unfold insert_compound, db_bind.
  repeat match goal with
  | |- context [match bind_param ?v with _ => _ end] =>
      destruct (bind_param v); [discriminate|]
  end.
  destruct (is_rowid _); [|discriminate].
  intros [= <-]. eexists. split; [reflexivity|]. cbn. auto.
Qed.

(** C4.  A POST to the upload route ends as unresolvable exactly when the
    resolution returned a record with no structure notation and no link,
    and the catalog is then left as it was.  When the record has no
    structure notation and at least one link, the route goes on to the
    duplicate check and the insert: it ends with an existing row, or with
    the record added as a new row that carries the links and a null
    structure notation, or with a database error that leaves the catalog
    as it was. *)
Theorem unresolvable_iff_nothing_found
    (w : World) (catalog : Catalog) (form_identifier : string) :
  (fst (upload w catalog form_identifier) = Unresolvable <->
   exists c,
     PyStr.is_empty (PyStr.strip form_identifier) = false
     /\ get_compound_data w (PyStr.strip form_identifier)
        = Ret (CompoundDict c)
     /\ Py.truthy (smiles_raw c) = false
     /\ sources c = [])
  /\ (fst (upload w catalog form_identifier) = Unresolvable ->
      snd (upload w catalog form_identifier) = catalog)
  /\ (forall c,
        PyStr.is_empty (PyStr.strip form_identifier) = false ->
        get_compound_data w (PyStr.strip form_identifier)
        = Ret (CompoundDict c) ->
        Py.truthy (smiles_raw c) = false ->
        sources c <> [] ->
        upload w catalog form_identifier
        = check_and_insert (CompoundDict c) catalog
        /\ match upload w catalog form_identifier with
           | (Added, catalog') =>
               exists row,
                 catalog' = (catalog ++ [row])%list
                 /\ compound_id row = next_id catalog
                 /\ row_metadata row = sources c
                 /\ row_smiles_raw row = SqlNull
           | (AlreadyExists _ id, catalog') =>
               catalog' = catalog
               /\ exists r, In r catalog /\ compound_id r = id
           | (DatabaseError, catalog') | (Unhandled _, catalog') =>
               catalog' = catalog
           | _ => False
           end).
Proof.
  unfold upload.
  destruct (PyStr.is_empty (PyStr.strip form_identifier)) eqn:Hne.
  { split; [|split]; cbn.
    - split; [discriminate | intros (c & H & _); discriminate].
    - discriminate.
    - intros c H. discriminate. }
  destruct (get_compound_data w (PyStr.strip form_identifier))
    as [e|data] eqn:Hd.
  { split; [|split]; cbn.
    - split; [discriminate | intros (c & _ & H & _); discriminate].
    - discriminate.
    - intros c _ H. discriminate. }
  destruct data as [msg|c0]; cbn [Get.has_error Get.field Get.sources_of].
  { (* the error dictionary is returned for the empty identifier only *)
    exfalso. unfold get_compound_data in Hd. rewrite Hne in Hd.
    unfold bind in Hd. destruct (run_pipeline _ _); discriminate. }
  cbn [andb].
  destruct (Py.truthy (smiles_raw c0)) eqn:Ts; cbn [negb andb].
  - pose proof (check_and_insert_outcome (CompoundDict c0) catalog) as O.
    split; [|split].
    + split.
      * intros H. destruct (check_and_insert _ _) as [[] ?]; cbn in *;
          try discriminate; contradiction.
      * intros (c & _ & [= <-] & T & _). congruence.
    + intros H. destruct (check_and_insert _ _) as [[] ?]; cbn in *;
        try discriminate; contradiction.
    + intros c _ [= <-] T. congruence.
  - destruct (sources c0) as [|s0 rest] eqn:Hs; cbn [list_truthy negb].
    + split; [|split]; cbn.
      * split; [|reflexivity]. intros _. exists c0. auto.
      * reflexivity.
      * intros c _ [= <-] _ N. congruence.
    + pose proof (check_and_insert_outcome (CompoundDict c0) catalog) as O.
      split; [|split].
      * split.
        -- intros H. destruct (check_and_insert _ _) as [[] ?]; cbn in *;
             try discriminate; contradiction.
        -- intros (c & _ & [= <-] & _ & N). congruence.
      * intros H. destruct (check_and_insert _ _) as [[] ?]; cbn in *;
          try discriminate; contradiction.
      * intros c _ [= <-] _ _. split; [reflexivity|].
        destruct (check_and_insert (CompoundDict c0) catalog)
          as [[] catalog']; try contradiction; auto.
        -- destruct O as (-> & r & F & Hid). split; [reflexivity|].
           exists r. split; [|exact Hid].
           destruct (find_existing_hit _ _ _ _ F) as (p & _ & _ & Hr).
           apply (run_step_hit _ _ _ _ Hr).
        -- destruct O as (_ & I).
           apply insert_compound_appends in I
             as (row & -> & Hid & Hm & Hb & _).
           exists row. cbn in Hm, Hb.
           repeat split; auto; try congruence.
           destruct (returned_smiles_null_or_truthy _ _ _ Hd) as [N|N];
             [|congruence].
           rewrite N in Hb. cbn in Hb. congruence.
Qed.

Lemma unresolvable_iff_nothing_found_witness :
  fst (upload offline [] " xyz ") = Unresolvable
  /\ snd (upload offline [] " xyz ") = []
  /\ fst (upload names_without_structure_world [] "2244") = Added
  /\ map row_metadata (snd (upload names_without_structure_world [] "2244"))
     = [sources link_only_record].
Proof.
  destruct (unresolvable_iff_nothing_found offline [] " xyz ")
    as (H1 & H2 & _).
  assert (U : fst (upload offline [] " xyz ") = Unresolvable).
  { apply H1. exists (resolved offline "xyz").
    repeat split; vm_compute; reflexivity. }
  split; [exact U|]. split; [exact (H2 U)|].
  destruct (unresolvable_iff_nothing_found names_without_structure_world []
              "2244") as (_ & _ & H3).
  destruct (H3 link_only_record) as (E & _);
    try (vm_compute; reflexivity); try discriminate.
  rewrite E. split; vm_compute; reflexivity.
Defined.

(* ================================================================== *)
(** ** The maintenance script *)

Lemma sqlval_eqb_eq a b : sqlval_eqb a b = true <-> a = b.
Proof.
  destruct a, b; cbn; split; intros H; try discriminate; try reflexivity;
    try (apply Z.eqb_eq in H; congruence);
    try (apply String.eqb_eq in H; congruence);
    try (injection H as ->; apply Z.eqb_refl);
    try (injection H as ->; apply String.eqb_refl).
Qed.

Lemma sql_eq_spec a b : sql_eq a b = true <-> a <> SqlNull /\ a = b.
Proof.
  unfold sql_eq. rewrite andb_true_iff, sqlval_eqb_eq.
  destruct a; cbn; split; intros [H1 H2]; split; auto; try discriminate;
    congruence.
Qed.

Lemma insert_sorted_perm x l : Permutation (insert_sorted x l) (x :: l).
Proof.
  induction l as [|y l IH]; cbn; [reflexivity|].
  destruct (x <=? y); [reflexivity|].
  rewrite IH. apply perm_swap.
Qed.

Lemma order_by_id_perm l : Permutation (order_by_id l) l.
Proof.
  induction l as [|x l IH]; cbn; [reflexivity|].
  rewrite insert_sorted_perm. constructor. exact IH.
Qed.

Lemma insert_sorted_sorted x l :
  StronglySorted Z.le l -> StronglySorted Z.le (insert_sorted x l).
Proof.
  induction 1 as [|y l Hs IH Hy]; cbn.
  - repeat constructor.
  - destruct (Z.leb_spec x y).
    + constructor; [constructor; assumption|].
      constructor; [assumption|].
      eapply Forall_impl; [|exact Hy]. intros z Hz. cbn in Hz. lia.
    + constructor; [exact IH|].
      rewrite insert_sorted_perm.
      constructor; [lia | exact Hy].
Qed.

Lemma order_by_id_sorted l : StronglySorted Z.le (order_by_id l).
Proof.
  induction l; cbn; [constructor | apply insert_sorted_sorted; assumption].
Qed.

Lemma unique_ids_inj catalog r r' :
  unique_ids catalog -> In r catalog -> In r' catalog ->
  compound_id r = compound_id r' -> r = r'.
Proof.
  unfold unique_ids. induction catalog as [|a c IH]; cbn; [tauto|].
  intros N. inversion N as [|? ? Hn N']; subst.
  intros [<-|H1] [<-|H2] E; auto.
  - exfalso. apply Hn. rewrite E. apply in_map, H2.
  - exfalso. apply Hn. rewrite <- E. apply in_map, H1.
Qed.

Lemma unique_ids_filter p catalog :
  unique_ids catalog -> unique_ids (filter p catalog).
Proof.
  unfold unique_ids. induction catalog as [|a c IH]; cbn; auto.
  intros N. inversion N as [|? ? Hn N']; subst.
  destruct (p a); cbn; auto.
  constructor; auto. intros H. apply Hn.
  apply in_map_iff in H as (r & E & Hr). apply filter_In in Hr as [Hr _].
  rewrite <- E. apply in_map, Hr.
Qed.

Lemma filter_all (A : Type) (f : A -> bool) (l : list A) :
  (forall x, In x l -> f x = true) -> filter f l = l.
Proof.
  induction l as [|a l IH]; cbn; auto. intros H.
  rewrite (H a (or_introl eq_refl)). f_equal. apply IH. auto.
Qed.

Lemma filter_twice (A : Type) (f g : A -> bool) (l : list A) :
  filter g (filter f l) = filter (fun x => f x && g x) l.
Proof.
  induction l as [|a l IH]; cbn; auto.
  destruct (f a); cbn; [destruct (g a)|]; rewrite IH; reflexivity.
Qed.

Lemma existsb_eqb_In x l : existsb (Z.eqb x) l = true <-> In x l.
Proof.
  rewrite existsb_exists. split.
  - intros (y & Hy & E). apply Z.eqb_eq in E. congruence.
  - intros H. exists x. split; [assumption | apply Z.eqb_refl].
Qed.

Lemma not_oldest catalog r :
  is_oldest catalog r = false <->
  exists r', In r' catalog /\ shares_key r r' = true
             /\ compound_id r' < compound_id r.
Proof.
  unfold is_oldest. split.
  - intros H. induction catalog as [|a c IH]; cbn in H; [discriminate|].
    apply andb_false_iff in H as [H|H].
    + exists a. apply orb_false_iff in H as [H1 H2].
      apply negb_false_iff in H1. apply Z.leb_gt in H2. cbn. auto.
    + destruct (IH H) as (r' & Hin & Hr). exists r'. cbn. auto.
  - intros (r' & Hin & Hk & Hlt).
    destruct (forallb _ catalog) eqn:F; [|reflexivity].
    rewrite forallb_forall in F. specialize (F r' Hin).
    rewrite Hk in F. cbn in F. apply Z.leb_le in F. lia.
Qed.

Section OneKey.
Variable catalog : Catalog.
Variable key : sqlval.
Hypothesis U : unique_ids catalog.

Let ids := group_ids catalog key.

Lemma ids_spec x :
  In x (order_by_id ids) <->
  exists r, In r catalog /\ sql_eq (row_inchi_key r) key = true
            /\ compound_id r = x.
Proof.
  split.
  - intros H. apply (Permutation_in _ (order_by_id_perm ids)) in H.
    apply in_map_iff in H as (r & E & Hr).
    apply filter_In in Hr as [Hr Hk]. eauto.
  - intros (r & Hr & Hk & E).
    apply (Permutation_in _ (Permutation_sym (order_by_id_perm ids))).
    apply in_map_iff. exists r. split; auto. apply filter_In. auto.
Qed.

Lemma ids_head_smallest m rest x :
  order_by_id ids = m :: rest -> In x rest -> m < x.
Proof.
  intros E Hx.
  pose proof (order_by_id_sorted ids) as S. rewrite E in S.
  inversion S as [|? ? _ Hall]; subst.
  rewrite Forall_forall in Hall. specialize (Hall x Hx).
  assert (N : NoDup (m :: rest)).
  { rewrite <- E.
    apply (Permutation_NoDup (Permutation_sym (order_by_id_perm ids))).
    apply (unique_ids_filter _ _ U). }
  inversion N as [|? ? Hn _]; subst.
  assert (m <> x) by (intros ->; contradiction). lia.
Qed.

Lemma shares_key_of_group r r' :
  sql_eq (row_inchi_key r) key = true ->
  shares_key r r' = sql_eq (row_inchi_key r') key.
Proof.
  intros H. apply sql_eq_spec in H as [_ H]. unfold shares_key.
  rewrite H. reflexivity.
Qed.

(** Which rows the DELETE of one iteration removes. *)
Lemma deleted_ids_spec r :
  In r catalog ->
  negb (existsb (Z.eqb (compound_id r)) (tl (order_by_id ids)))
  = negb (sql_eq (row_inchi_key r) key) || is_oldest catalog r.
Proof.
  intros Hr.
  destruct (order_by_id ids) as [|m rest] eqn:E; cbn [tl existsb negb].
  - destruct (sql_eq (row_inchi_key r) key) eqn:K; [|reflexivity].
    exfalso. assert (H : In (compound_id r) (order_by_id ids))
      by (apply ids_spec; eauto).
    rewrite E in H. exact H.
  - destruct (sql_eq (row_inchi_key r) key) eqn:K; cbn [negb orb].
    + destruct (existsb (Z.eqb (compound_id r)) rest) eqn:X; cbn [negb].
      * symmetry. apply not_oldest.
        assert (Hm : In m (order_by_id ids)) by (rewrite E; left; reflexivity).
        apply ids_spec in Hm as (rm & Hrm & Km & Em).
        exists rm. split; [assumption|]. split.
        -- rewrite (shares_key_of_group _ _ K). exact Km.
        -- rewrite Em. apply (ids_head_smallest _ _ _ E).
           apply existsb_eqb_In, X.
      * symmetry. unfold is_oldest. apply forallb_forall. intros r' Hr'.
        rewrite (shares_key_of_group _ _ K).
        destruct (sql_eq (row_inchi_key r') key) eqn:K'; [|reflexivity].
        cbn. apply Z.leb_le.
        assert (H : In (compound_id r) (m :: rest))
          by (rewrite <- E; apply ids_spec; eauto).
        assert (H' : In (compound_id r') (m :: rest))
          by (rewrite <- E; apply ids_spec; eauto).
        destruct H as [H|H].
        -- destruct H' as [H'|H']; [lia|].
           pose proof (ids_head_smallest _ _ _ E H'). lia.
        -- apply existsb_eqb_In in H. congruence.
    + destruct (existsb (Z.eqb (compound_id r)) rest) eqn:X; [|reflexivity].
      exfalso. apply existsb_eqb_In in X.
      assert (H : In (compound_id r) (order_by_id ids))
        by (rewrite E; right; exact X).
      apply ids_spec in H as (r' & Hr' & K' & E').
      rewrite (unique_ids_inj _ _ _ U Hr' Hr E') in K'. congruence.
Qed.

Lemma delete_extra_rows_filter :
  delete_extra_rows catalog key
  = filter (fun r => negb (sql_eq (row_inchi_key r) key)
                     || is_oldest catalog r) catalog.
Proof.
  unfold delete_extra_rows. fold (group_ids catalog key). fold ids.
  destruct (list_truthy (tl (order_by_id ids))) eqn:T.
  - apply filter_ext_in. intros r Hr. apply deleted_ids_spec, Hr.
  - symmetry. apply filter_all. intros r Hr.
    rewrite <- (deleted_ids_spec _ Hr).
    destruct (tl (order_by_id ids)); [reflexivity | discriminate].
Qed.

(** The row that comes first in the ordered list of ids is the oldest
    of the group. *)
Lemma group_has_oldest r :
  In r catalog -> sql_eq (row_inchi_key r) key = true ->
  exists m, In m catalog /\ sql_eq (row_inchi_key m) key = true
            /\ compound_id m <= compound_id r
            /\ is_oldest catalog m = true.
Proof.
  intros Hr K.
  assert (H : In (compound_id r) (order_by_id ids))
    by (apply ids_spec; eauto).
  destruct (order_by_id ids) as [|m rest] eqn:E; [contradiction|].
  assert (Hm : In m (order_by_id ids)) by (rewrite E; left; reflexivity).
  apply ids_spec in Hm as (rm & Hrm & Km & Em).
  exists rm. repeat split; auto.
  - destruct H as [H|H]; [lia|].
    pose proof (ids_head_smallest _ _ _ E H). lia.
  - unfold is_oldest. apply forallb_forall. intros r' Hr'.
    rewrite (shares_key_of_group _ _ Km).
    destruct (sql_eq (row_inchi_key r') key) eqn:K'; [|reflexivity].
    cbn. apply Z.leb_le.
    assert (H' : In (compound_id r') (m :: rest))
      by (rewrite <- E; apply ids_spec; eauto).
    destruct H' as [H'|H']; [lia|].
    pose proof (ids_head_smallest _ _ _ E H'). lia.
Qed.

End OneKey.

Lemma is_oldest_in_part p catalog r :
  is_oldest catalog r = true -> is_oldest (filter p catalog) r = true.
Proof.
  unfold is_oldest. rewrite !forallb_forall. intros H r' Hr'.
  apply filter_In in Hr' as [Hr' _]. auto.
Qed.

Lemma after_keys_step catalog done key :
  unique_ids catalog ->
  delete_extra_rows (after_keys catalog done) key
  = after_keys catalog (done ++ [key]).
Proof.
  intros U.
  assert (U' : unique_ids (after_keys catalog done))
    by apply unique_ids_filter, U.
  rewrite (delete_extra_rows_filter _ key U').
  unfold after_keys. rewrite filter_twice.
  apply filter_ext_in. intros r Hr.
  rewrite existsb_app. cbn [existsb]. rewrite orb_false_r.
  destruct (is_oldest catalog r) eqn:O.
  - rewrite (is_oldest_in_part _ _ _ O). rewrite !orb_true_r. reflexivity.
  - rewrite !orb_false_r.
    destruct (existsb (sql_eq (row_inchi_key r)) done) eqn:D; cbn;
      [reflexivity|].
    destruct (sql_eq (row_inchi_key r) key) eqn:K; cbn; [|reflexivity].
    apply not_oldest. apply not_oldest in O as (r' & Hr' & S & Hlt).
    exists r'. split; [|auto].
    apply filter_In. split; [assumption|].
    assert (E : row_inchi_key r' = row_inchi_key r).
    { unfold shares_key in S. apply sql_eq_spec in S. tauto. }
    rewrite E, D. reflexivity.
Qed.

Lemma fold_delete catalog keys done :
  unique_ids catalog ->
  fold_left delete_extra_rows keys (after_keys catalog done)
  = after_keys catalog (done ++ keys).
Proof.
  intros U. revert done. induction keys as [|k keys IH]; intros done; cbn.
  - rewrite app_nil_r. reflexivity.
  - rewrite (after_keys_step _ _ _ U), IH, <- app_assoc. reflexivity.
Qed.

Lemma group_keys_complete k l :
  In k l -> In k (group_keys l).
Proof.
  induction l as [|a l IH]; cbn; [tauto|].
  intros [->|H]; [left; reflexivity|].
  destruct (sqlval_eqb a k) eqn:E.
  - left. apply sqlval_eqb_eq, E.
  - right. apply filter_In. split; [apply IH, H|]. rewrite E. reflexivity.
Qed.

Lemma two_in_list (A : Type) (a b : A) (l : list A) :
  In a l -> In b l -> a <> b -> (2 <= List.length l)%nat.
Proof.
  destruct l as [|x [|y l]]; cbn; try tauto; try lia.
  intros [->|[]] [->|[]] N. congruence.
Qed.

Lemma not_oldest_duplicate_key catalog r :
  In r catalog -> is_oldest catalog r = false ->
  existsb (sql_eq (row_inchi_key r)) (duplicate_keys catalog) = true.
Proof.
  intros Hr O. apply not_oldest in O as (r' & Hr' & S & Hlt).
  unfold shares_key in S. apply sql_eq_spec in S as [Hn E].
  apply existsb_exists. exists (row_inchi_key r). split.
  - unfold duplicate_keys. apply filter_In. split.
    + apply group_keys_complete, in_map, Hr.
    + apply Z.ltb_lt. unfold count_key.
      assert (G : forall x, In x catalog ->
                  row_inchi_key x = row_inchi_key r ->
                  In x (filter (fun r0 =>
                          negb (sql_is_null (row_inchi_key r0))
                          && sqlval_eqb (row_inchi_key r0) (row_inchi_key r))
                        catalog)).
      { intros x Hx Ex. apply filter_In. split; [assumption|].
        rewrite Ex. apply andb_true_iff. split.
        - rewrite <- E. destruct (row_inchi_key r'); cbn; congruence.
        - apply sqlval_eqb_eq. reflexivity. }
      pose proof (two_in_list _ _ _ _ (G r Hr eq_refl) (G r' Hr' E)) as T.
      assert (r <> r') by (intros ->; lia). specialize (T H). lia.
  - apply sql_eq_spec. split; [congruence | reflexivity].
Qed.

Lemma remove_duplicates_filter catalog :
  unique_ids catalog ->
  remove_duplicates catalog = filter (is_oldest catalog) catalog.
Proof.
  intros U. unfold remove_duplicates.
  assert (E : fold_left delete_extra_rows (duplicate_keys catalog) catalog
              = filter (is_oldest catalog) catalog).
  { assert (E0 : after_keys catalog [] = catalog)
      by (apply filter_all; reflexivity).
    rewrite <- E0 at 2. rewrite (fold_delete _ _ _ U). cbn [app].
    apply filter_ext_in. intros r Hr.
    destruct (is_oldest catalog r) eqn:O; [apply orb_true_r|].
    rewrite (not_oldest_duplicate_key _ _ Hr O). reflexivity. }
  destruct (duplicate_keys catalog) eqn:D; cbn [list_truthy negb].
  - cbn in E. exact E.
  - exact E.
Qed.

(** C10.  On a table whose ids identify the rows, the script keeps a row
    exactly when no row with the same non-null key has a smaller id.
    Hence it only deletes; a deleted row has a non-null key that a
    surviving row with a smaller id shares, so it comes from a group of two
    or more; a row with a null key or with a key of its own survives; and
    the survivors of one key are one row, the one with the smallest id of
    the group. *)
Theorem remove_duplicates_keeps_oldest (catalog : Catalog) :
  unique_ids catalog ->
  remove_duplicates catalog = filter (is_oldest catalog) catalog
  /\ (forall r, In r (remove_duplicates catalog) -> In r catalog)
  /\ (forall r, In r catalog -> ~ In r (remove_duplicates catalog) ->
       row_inchi_key r <> SqlNull
       /\ exists m, In m (remove_duplicates catalog) /\ m <> r
                    /\ row_inchi_key m = row_inchi_key r
                    /\ compound_id m < compound_id r)
  /\ (forall r, In r catalog -> row_inchi_key r = SqlNull ->
       In r (remove_duplicates catalog))
  /\ (forall r, In r catalog ->
       (forall r', In r' catalog ->
                   row_inchi_key r' = row_inchi_key r -> r' = r) ->
       In r (remove_duplicates catalog))
  /\ (forall r r', In r (remove_duplicates catalog) -> In r' catalog ->
       row_inchi_key r <> SqlNull ->
       row_inchi_key r' = row_inchi_key r ->
       compound_id r <= compound_id r'
       /\ (In r' (remove_duplicates catalog) -> r' = r)).
Proof.
  intros U. pose proof (remove_duplicates_filter _ U) as E.
  split; [exact E|]. rewrite E.
  assert (Keep : forall r, In r catalog -> is_oldest catalog r = true ->
                 In r (filter (is_oldest catalog) catalog))
    by (intros; apply filter_In; auto).
  assert (Old : forall r r', In r (filter (is_oldest catalog) catalog) ->
                In r' catalog -> row_inchi_key r <> SqlNull ->
                row_inchi_key r' = row_inchi_key r ->
                compound_id r <= compound_id r').
  { intros r r' Hr Hr' Hn Ek. apply filter_In in Hr as [_ O].
    unfold is_oldest in O. rewrite forallb_forall in O.
    specialize (O r' Hr').
    assert (S : shares_key r r' = true)
      by (apply sql_eq_spec; split; congruence).
    rewrite S in O. cbn in O. apply Z.leb_le, O. }
  split; [|split; [|split; [|split]]].
  - intros r Hr. apply filter_In in Hr. tauto.
  - intros r Hr Hdel.
    assert (O : is_oldest catalog r = false).
    { destruct (is_oldest catalog r) eqn:O; [|reflexivity].
      exfalso. apply Hdel, Keep; assumption. }
    apply not_oldest in O as (r' & Hr' & S & Hlt).
    unfold shares_key in S. apply sql_eq_spec in S as [Hn Ek].
    split; [congruence|].
    assert (K : sql_eq (row_inchi_key r') (row_inchi_key r') = true)
      by (apply sql_eq_spec; auto).
    destruct (group_has_oldest catalog (row_inchi_key r') U r' Hr' K)
      as (m & Hm & Km & Hle & Om).
    apply sql_eq_spec in Km as [_ Km].
    exists m. repeat split.
    + apply Keep; assumption.
    + intros ->. lia.
    + congruence.
    + lia.
  - intros r Hr Hn. apply Keep; [assumption|].
    unfold is_oldest. apply forallb_forall. intros r' _.
    unfold shares_key. rewrite Hn.
    assert (S : sql_eq (row_inchi_key r') SqlNull = false).
    { destruct (sql_eq (row_inchi_key r') SqlNull) eqn:S; [|reflexivity].
      apply sql_eq_spec in S. tauto. }
    rewrite S. reflexivity.
  - intros r Hr Hu. apply Keep; [assumption|].
    unfold is_oldest. apply forallb_forall. intros r' Hr'.
    destruct (shares_key r r') eqn:S; [|reflexivity].
    unfold shares_key in S. apply sql_eq_spec in S as [_ Ek].
    rewrite (Hu r' Hr' Ek). cbn. apply Z.leb_refl.
  - intros r r' Hr Hr' Hn Ek. split; [apply Old; assumption|].
    intros Hr'2.
    assert (Hrc : In r catalog) by (apply filter_In in Hr; tauto).
    apply (unique_ids_inj catalog r' r U Hr' Hrc).
    pose proof (Old r r' Hr Hr' Hn Ek).
    assert (compound_id r' <= compound_id r).
    { apply Old; auto; congruence. }
    lia.
Qed.

Lemma remove_duplicates_keeps_oldest_witness :
  map compound_id (remove_duplicates crowded_catalog) = [2; 3; 4; 8].
Proof.
  assert (U : unique_ids crowded_catalog).
  { unfold unique_ids. cbn. repeat constructor; cbn; intuition lia. }
  rewrite (proj1 (remove_duplicates_keeps_oldest crowded_catalog U)).
  reflexivity.
Defined.

(* ================================================================== *)
(** ** Further properties of the adapters *)

Lemma try_except_never_caught (A : Type) (body : result A) (fallback : A) e :
  try_except caught_by_adapter body fallback = Raise e ->
  caught_by_adapter e = false.
Proof.
  unfold try_except. destruct body as [e'|a]; [|discriminate].
  destruct (caught_by_adapter e') eqn:C; [discriminate|].
  intros [= <-]. exact C.
Qed.

(** X1.  A request that fails in transport, or that is answered with a
    status other than 200, makes every adapter return None (for the names:
    None for both), whatever the argument. *)
Theorem adapters_none_when_unavailable (w : World) :
  (forall identifier, service_down (pubchem_name_cids w identifier) ->
     get_cid_from_pubchem w identifier = Ret JNull)
  /\ (forall key, service_down (pubchem_inchikey_cids w key) ->
        get_cid_from_inchikey w key = Ret JNull)
  /\ (forall cid, service_down (pubchem_cid_smiles w cid) ->
        get_smiles_from_pubchem w cid = Ret JNull)
  /\ (forall cid, service_down (pubchem_cid_inchikey w cid) ->
        get_inchikey_from_pubchem w cid = Ret JNull)
  /\ (forall cid, service_down (pubchem_cid_synonyms w cid) ->
        service_down (pubchem_cid_iupac w cid) ->
        get_names_from_pubchem w cid
        = Ret {| names_iupac_name := JNull; names_common_name := JNull |})
  /\ (forall identifier, service_down (chembl_molecule_search w identifier) ->
        get_smiles_from_chembl w identifier = Ret JNull).
Proof.
  unfold service_down.
  assert (D : forall h,
            (exists e, h = GetRaises e /\ is_RequestException e = true)
            \/ (exists sc j, h = Response sc j /\ sc <> 200) ->
            forall (k : Z * result value -> result value),
              (forall sc j, sc <> 200 -> k (sc, j) = Ret JNull) ->
              try_except caught_by_adapter (bind (requests_get h) k) JNull
              = Ret JNull).
  { intros h [(e & -> & He) | (sc & j & -> & Hsc)] k Hk; cbn.
    - unfold caught_by_adapter. rewrite He. reflexivity.
    - rewrite (Hk sc j Hsc). reflexivity. }
  assert (K : forall sc (a : result value), sc <> 200 ->
              (if sc =? 200 then a else Ret JNull) = Ret JNull).
  { intros sc a Hsc. destruct (Z.eqb_spec sc 200); [contradiction|reflexivity]. }
  repeat split.
  - intros identifier H. unfold get_cid_from_pubchem, first_cid.
    apply D; [exact H|]. intros sc j Hsc. cbn. apply K, Hsc.
  - intros key H. unfold get_cid_from_inchikey, first_cid.
    apply D; [exact H|]. intros sc j Hsc. cbn. apply K, Hsc.
  - intros cid H. unfold get_smiles_from_pubchem.
    apply D; [exact H|]. intros sc j Hsc. cbn. apply K, Hsc.
  - intros cid H. unfold get_inchikey_from_pubchem.
    apply D; [exact H|]. intros sc j Hsc. cbn. apply K, Hsc.
  - intros cid H1 H2. unfold get_names_from_pubchem.
    assert (S : names_synonyms_part w cid = Ret JNull
                \/ exists e, names_synonyms_part w cid = Raise e
                             /\ caught_by_adapter e = true).
    { unfold names_synonyms_part.
      destruct H1 as [(e & -> & He) | (sc & j & -> & Hsc)]; cbn.
      - right. exists e. split; [reflexivity|].
        unfold caught_by_adapter. rewrite He. reflexivity.
      - left. apply K, Hsc. }
    assert (I : names_iupac_part w cid = Ret JNull
                \/ exists e, names_iupac_part w cid = Raise e
                             /\ caught_by_adapter e = true).
    { unfold names_iupac_part.
      destruct H2 as [(e & -> & He) | (sc & j & -> & Hsc)]; cbn.
      - right. exists e. split; [reflexivity|].
        unfold caught_by_adapter. rewrite He. reflexivity.
      - left. apply K, Hsc. }
    destruct S as [-> | (e & -> & ->)]; [|reflexivity].
    destruct I as [-> | (e & -> & ->)]; reflexivity.
  - intros identifier H. unfold get_smiles_from_chembl.
    apply D; [exact H|]. intros sc j Hsc. cbn. apply K, Hsc.
Qed.

Lemma adapters_none_when_unavailable_witness :
  get_smiles_from_pubchem offline (JNum 2244) = Ret JNull
  /\ get_names_from_pubchem offline (JNum 2244)
     = Ret {| names_iupac_name := JNull; names_common_name := JNull |}.
Proof.
  destruct (adapters_none_when_unavailable offline)
    as (_ & _ & H3 & _ & H5 & _).
  assert (D : service_down (GetRaises ConnectionError)).
  { left. exists ConnectionError. split; reflexivity. }
  split; [apply H3; exact D | apply H5; exact D].
Defined.

(** X2.  The two name requests share one [try]: when the synonyms request
    fails in transport, or its body has no "InformationList", the IUPAC
    name is lost as well, whatever PubChem would answer to the IUPAC
    request; when only the IUPAC request fails in transport, the common
    name already read is kept. *)
Theorem names_share_one_try (w : World) (cid : value) :
  (forall e, pubchem_cid_synonyms w cid = GetRaises e ->
             is_RequestException e = true ->
             get_names_from_pubchem w cid
             = Ret {| names_iupac_name := JNull;
                      names_common_name := JNull |})
  /\ (forall fields, pubchem_cid_synonyms w cid
                     = Response 200 (Ret (JObj fields)) ->
                     Py.assoc "InformationList" fields = None ->
                     get_names_from_pubchem w cid
                     = Ret {| names_iupac_name := JNull;
                              names_common_name := JNull |})
  /\ (forall first more e,
        pubchem_cid_synonyms w cid
        = Response 200
            (Ret (JObj [("InformationList",
                    JObj [("Information",
                      JList [JObj [("Synonym", JList (first :: more))]])])])) ->
        pubchem_cid_iupac w cid = GetRaises e ->
        is_RequestException e = true ->
        get_names_from_pubchem w cid
        = Ret {| names_iupac_name := JNull; names_common_name := first |}).
Proof.
  unfold get_names_from_pubchem, names_synonyms_part, names_iupac_part.
  split; [|split].
  - intros e -> He. cbn. unfold caught_by_adapter. rewrite He. reflexivity.
  - intros fields -> Hf. cbn. rewrite Hf. reflexivity.
  - intros first more e -> -> He. cbn.
    unfold caught_by_adapter. rewrite He. reflexivity.
Qed.

Lemma names_share_one_try_witness :
  get_names_from_pubchem
    (with_pubchem (fun _ => GetRaises ConnectionError)
       unavailable unavailable unavailable
       (pubchem_cid_iupac ethanol_world)) (JNum 702)
  = Ret {| names_iupac_name := JNull; names_common_name := JNull |}.
Proof.
  apply (proj1 (names_share_one_try _ (JNum 702)) ConnectionError);
    reflexivity.
Defined.

(** X3.  On a well-formed answer, [get_smiles_from_pubchem] returns the
    "CanonicalSMILES" of the first property entry when that key is there,
    whatever it holds; the "ConnectivitySMILES" only when the first key is
    missing; and None when both are missing.  Further entries are never
    looked at. *)
Theorem canonical_smiles_preferred (w : World) (cid : value)
    (fields : list (string * value)) (more : list value) :
  pubchem_cid_smiles w cid = Response 200 (Ret (property_table fields more)) ->
  get_smiles_from_pubchem w cid
  = Ret match Py.assoc "CanonicalSMILES" fields with
        | Some v => v
        | None =>
            match Py.assoc "ConnectivitySMILES" fields with
            | Some v => v
            | None => JNull
            end
        end.
Proof.
  intros H. unfold get_smiles_from_pubchem. rewrite H. cbn.
  destruct (Py.assoc "CanonicalSMILES" fields) eqn:C; cbn;
    [reflexivity|].
  destruct (Py.assoc "ConnectivitySMILES" fields) eqn:D; cbn; reflexivity.
Qed.

Lemma canonical_smiles_preferred_witness :
  get_smiles_from_pubchem ethanol_world (JNum 702) = Ret (JStr "CCO").
Proof.
  apply (canonical_smiles_preferred ethanol_world (JNum 702)
           [("CID", JNum 702); ("ConnectivitySMILES", JStr "CCO")] []).
  reflexivity.
Defined.

(* ================================================================== *)
(** ** Further properties of the returned record *)

Lemma get_compound_data_record (w : World) (identifier : string)
    (c : Compound) :
  get_compound_data w identifier = Ret (CompoundDict c) ->
  PyStr.is_empty identifier = false
  /\ exists st, run_pipeline w identifier = Ret st /\ c = to_dict st.
Proof.
  unfold get_compound_data.
  destruct (PyStr.is_empty identifier); [discriminate|].
  unfold bind. destruct (run_pipeline w identifier) as [|st]; [discriminate|].
  intros [= <-]. eauto.
Qed.

Lemma run_pipeline_stages (w : World) (identifier : string) (st : Locals.t) :
  run_pipeline w identifier = Ret st ->
  exists st2 st4 st5 st7 st7b,
    resolve_cid w identifier = Ret st2
    /\ pubchem_by_cid w st2 = Ret st4
    /\ chembl_by_name w identifier st4 = Ret st5
    /\ drugbank_via_unichem w (depict_and_derive_inchi w st5) = Ret st7
    /\ drugbank_via_pubchem w st7 = Ret st7b
    /\ st = normalize_and_fingerprint w (formula_and_weight w st7b).
Proof.
  unfold run_pipeline, bind. intros E.
  destruct (resolve_cid w identifier) as [|st2] eqn:E2; [discriminate|].
  destruct (pubchem_by_cid w st2) as [|st4] eqn:E4; [discriminate|].
  destruct (chembl_by_name w identifier st4) as [|st5] eqn:E5;
    [discriminate|].
  destruct (drugbank_via_unichem _ _) as [|st7] eqn:E7; [discriminate|].
  destruct (drugbank_via_pubchem _ _) as [|st7b] eqn:E7b; [discriminate|].
  injection E as <-. exists st2, st4, st5, st7, st7b.
  repeat (split; [first [assumption | reflexivity]|]). reflexivity.
Qed.

Lemma names_of_add_source n u l :
  names_of (add_source n u l)
  = if existsb (fun x => String.eqb x n) (names_of l) then names_of l
    else (names_of l ++ [n])%list.
Proof.
  assert (E : existsb (fun x => String.eqb x n) (names_of l)
              = existsb (fun s => String.eqb (db_name s) n) l).
  { unfold names_of. induction l as [|a l IH]; cbn; [reflexivity|].
    rewrite IH. reflexivity. }
  rewrite E. unfold add_source, names_of.
  destruct (existsb _ l); cbn; [reflexivity|].
  rewrite map_app. reflexivity.
Qed.

Lemma add_source_In s n u l : In s l -> In s (add_source n u l).
Proof.
  unfold add_source. destruct (existsb _ l); cbn; auto.
  intros H. apply in_or_app. auto.
Qed.

Lemma add_source_new n u l :
  ~ In n (names_of l) -> In {| db_name := n; url := u |} (add_source n u l).
Proof.
  intros H. unfold add_source.
  destruct (existsb _ l) eqn:E; cbn.
  - apply existsb_name_In in E. contradiction.
  - apply in_or_app. right. left. reflexivity.
Qed.

Lemma add_source_name_inv m n u l :
  In m (names_of (add_source n u l)) -> m = n \/ In m (names_of l).
Proof.
  rewrite names_of_add_source. destruct (existsb _ _); auto.
  intros H. apply in_app_or in H as [H|[<-|[]]]; auto.
Qed.

Lemma add_source_not_empty n u l : add_source n u l <> [].
Proof.
  unfold add_source. destruct (existsb _ l) eqn:E; cbn.
  - destruct l; [discriminate E | discriminate].
  - destruct l; discriminate.
Qed.

Lemma grows_by_names n l l' names :
  grows_by n l l' -> names_of l = names ->
  names_of l' = names
  \/ names_of l' = (if existsb (fun x => String.eqb x n) names then names
                    else (names ++ [n])%list).
Proof.
  intros [-> | (u & ->)] <-; [left; reflexivity|].
  right. apply names_of_add_source.
Qed.

Section Stages.
Variable w : World.
Variable identifier : string.

(** How each stage treats the links, the registry id and the names. *)

Lemma resolve_cid_frame st :
resolve_cid w identifier = Ret st ->
Locals.sources st
= Locals.sources (parse_identifier_as_smiles w identifier Locals.init)
/\ Locals.pubchem_cid st = JNull
/\ Locals.iupac_name st = JNull /\ Locals.common_name st = JNull.
Proof.
unfold resolve_cid, cid_from_name, cid_from_smiles_inchikey,
  cid_from_given_inchikey, cid_from_digits.
assert (P : Locals.pubchem_cid
              (parse_identifier_as_smiles w identifier Locals.init) = JNull
            /\ Locals.iupac_name
                 (parse_identifier_as_smiles w identifier Locals.init)
               = JNull
            /\ Locals.common_name
                 (parse_identifier_as_smiles w identifier Locals.init)
               = JNull).
{ unfold parse_identifier_as_smiles, add_source_st.
  destruct (MolFromSmiles w (JStr identifier)) as [|[|]]; cbn; auto. }
revert P. generalize (parse_identifier_as_smiles w identifier Locals.init).
intros st0 (P1 & P2 & P3) H. step_cases; auto.
Qed.

Lemma parse_sources :
Locals.sources (parse_identifier_as_smiles w identifier Locals.init) = []
/\ structure_from_user w identifier = JNull
\/ Locals.sources (parse_identifier_as_smiles w identifier Locals.init)
   = [{| db_name := "User-provided"; url := UrlLiteral "#" |}]
   /\ structure_from_user w identifier = JStr identifier.
Proof.
unfold structure_from_user, parse_identifier_as_smiles, add_source_st.
destruct (MolFromSmiles w (JStr identifier)) as [|[|]]; cbn; auto.
Qed.

Lemma pubchem_frame st st' :
pubchem_by_cid w st = Ret st' ->
Locals.pubchem_cid st = JNull ->
Locals.iupac_name st = JNull -> Locals.common_name st = JNull ->
~ In "PubChem" (names_of (Locals.sources st)) ->
grows_by "PubChem" (Locals.sources st) (Locals.sources st')
/\ cid_linked st' /\ names_from_pubchem w st'
/\ (Py.truthy (Locals.current_pubchem_cid st) = true ->
    Locals.pubchem_cid st' = Locals.current_pubchem_cid st).
Proof.
unfold pubchem_by_cid, fetch_inchikey_by_cid,
  fetch_smiles_and_names_by_cid, add_source_st, grows_by, cid_linked,
  names_from_pubchem.
intros H C I N P.
step_cases; norm_bool; try congruence.
all: repeat match goal with
     | E : _ = JNull |- _ => rewrite E in *
     end.
all: split; [eauto|].
all: split; [split; [auto|split; intros; auto; try discriminate;
                     try (apply add_source_new; assumption)]|].
all: try (split; [|intros; congruence]).
all: first [ intros [X|X]; congruence
           | intros _; split; [assumption|]; eexists; split; eassumption ].
Qed.

Ltac solve_later :=
unfold later_step, grows_by; step_cases; repeat split; eauto.

Lemma chembl_later st st' :
chembl_by_name w identifier st = Ret st' -> later_step "ChEMBL" st st'.
Proof. unfold chembl_by_name, add_source_st. intros H. solve_later. Qed.

Lemma depict_later st :
later_step "ChEMBL" st (depict_and_derive_inchi w st).
Proof. unfold depict_and_derive_inchi. solve_later. Qed.

Lemma unichem_later st st' :
drugbank_via_unichem w st = Ret st' -> later_step "DrugBank" st st'.
Proof. unfold drugbank_via_unichem, add_source_st. intros H. solve_later. Qed.

Lemma xrefs_later st st' :
drugbank_via_pubchem w st = Ret st' -> later_step "DrugBank" st st'.
Proof. unfold drugbank_via_pubchem, add_source_st. intros H. solve_later. Qed.

Lemma formula_later st : later_step "DrugBank" st (formula_and_weight w st).
Proof. unfold formula_and_weight. solve_later. Qed.

Lemma fingerprint_later st :
later_step "DrugBank" st (normalize_and_fingerprint w st).
Proof. unfold normalize_and_fingerprint. solve_later. Qed.

Lemma later_step_cid_linked n st st' :
n <> "PubChem" -> later_step n st st' -> cid_linked st -> cid_linked st'.
Proof.
unfold later_step, cid_linked.
intros Hn (-> & _ & _ & G) (A & B & C). split; [exact A|]. split.
- intros T. destruct G as [-> | (u & ->)]; auto using add_source_In.
- intros H. destruct G as [G | (u & G)]; rewrite G in H; auto.
  apply add_source_name_inv in H as [H|H]; [congruence | auto].
Qed.

Lemma later_step_names n st st' :
later_step n st st' -> names_from_pubchem w st -> names_from_pubchem w st'.
Proof.
unfold later_step, names_from_pubchem. intros (-> & -> & -> & _) H. exact H.
Qed.

Lemma grows_by_not_empty n l l' : grows_by n l l' -> l <> [] -> l' <> [].
Proof.
intros [-> | (u & ->)] H; [exact H | apply add_source_not_empty].
Qed.

Lemma pubchem_structure_link st st' :
pubchem_by_cid w st = Ret st' ->
structure_has_link st -> structure_has_link st'.
Proof.
unfold pubchem_by_cid, fetch_inchikey_by_cid,
  fetch_smiles_and_names_by_cid, add_source_st, structure_has_link.
intros H L. step_cases; auto; intros _; apply add_source_not_empty.
Qed.

Lemma chembl_structure_link st st' :
chembl_by_name w identifier st = Ret st' ->
structure_has_link st -> structure_has_link st'.
Proof.
unfold chembl_by_name, add_source_st, structure_has_link.
intros H L. step_cases; auto; intros _; apply add_source_not_empty.
Qed.

Lemma resolve_cid_structure_link st :
resolve_cid w identifier = Ret st -> structure_has_link st.
Proof.
intros H. unfold structure_has_link.
rewrite (resolve_cid_smiles _ _ _ H).
destruct (resolve_cid_frame _ H) as (-> & _).
destruct parse_sources as [(_ & ->) | (-> & _)]; [congruence | discriminate].
Qed.

(** The whole pipeline, stage by stage. *)
Lemma pipeline_summary st :
run_pipeline w identifier = Ret st ->
In (names_of (Locals.sources st)) names_at_end
/\ cid_linked st /\ names_from_pubchem w st /\ structure_has_link st.
Proof.
intros E.
destruct (run_pipeline_stages _ _ _ E)
  as (st2 & st4 & st5 & st7 & st7b & E2 & E4 & E5 & E7 & E7b & ->).
destruct (resolve_cid_frame _ E2) as (S2 & C2 & I2 & N2).
assert (P2 : In (names_of (Locals.sources st2)) names_after_parse).
{ rewrite S2. destruct parse_sources as [(-> & _) | (-> & _)]; cbn; auto. }
assert (NP : ~ In "PubChem" (names_of (Locals.sources st2))).
{ intros H. cbn in P2. destruct P2 as [P2|[P2|[]]]; rewrite <- P2 in H;
    cbn in H; intuition discriminate. }
destruct (pubchem_frame _ _ E4 C2 I2 N2 NP) as (G4 & L4 & M4 & _).
pose proof (chembl_later _ _ E5) as T5.
pose proof (depict_later st5) as T6.
pose proof (unichem_later _ _ E7) as T7.
pose proof (xrefs_later _ _ E7b) as T7b.
pose proof (formula_later st7b) as T8.
pose proof (fingerprint_later (formula_and_weight w st7b)) as T9.
split; [|split; [|split]].
- assert (P4 : In (names_of (Locals.sources st4)) names_after_pubchem).
  { cbn in P2. destruct P2 as [P2|[P2|[]]];
      destruct (grows_by_names _ _ _ _ G4 (eq_sym P2)) as [R|R];
      rewrite R; cbn; auto 10. }
  assert (Step : forall n a b S S',
            later_step n a b ->
            In (names_of (Locals.sources a)) S ->
            (forall x, In x S -> In x S'
               /\ In (if existsb (fun y => String.eqb y n) x then x
                      else (x ++ [n])%list) S') ->
            In (names_of (Locals.sources b)) S').
  { intros n a b S S' (_ & _ & _ & G) Ha HS.
    destruct (grows_by_names _ _ _ _ G eq_refl) as [R|R]; rewrite R;
      apply HS, Ha. }
  assert (C4 : forall x, In x names_after_pubchem ->
            In x names_after_chembl
            /\ In (if existsb (fun y => String.eqb y "ChEMBL") x then x
                   else (x ++ ["ChEMBL"])%list) names_after_chembl).
  { intros x Hx. cbn in Hx.
    repeat (destruct Hx as [<-|Hx]; [cbn; auto 20|]). contradiction. }
  assert (C5 : forall x, In x names_after_chembl ->
            In x names_after_chembl
            /\ In (if existsb (fun y => String.eqb y "ChEMBL") x then x
                   else (x ++ ["ChEMBL"])%list) names_after_chembl).
  { intros x Hx. cbn in Hx.
    repeat (destruct Hx as [<-|Hx]; [cbn; auto 20|]). contradiction. }
  assert (C6 : forall x, In x names_after_chembl ->
            In x names_at_end
            /\ In (if existsb (fun y => String.eqb y "DrugBank") x then x
                   else (x ++ ["DrugBank"])%list) names_at_end).
  { intros x Hx. cbn in Hx.
    repeat (destruct Hx as [<-|Hx]; [cbn; auto 40|]). contradiction. }
  assert (C7 : forall x, In x names_at_end ->
            In x names_at_end
            /\ In (if existsb (fun y => String.eqb y "DrugBank") x then x
                   else (x ++ ["DrugBank"])%list) names_at_end).
  { intros x Hx. cbn in Hx.
    repeat (destruct Hx as [<-|Hx]; [cbn; auto 40|]). contradiction. }
  pose proof (Step _ _ _ _ _ T5 P4 C4) as P5.
  pose proof (Step _ _ _ _ _ T6 P5 C5) as P6.
  pose proof (Step _ _ _ _ _ T7 P6 C6) as P7.
  pose proof (Step _ _ _ _ _ T7b P7 C7) as P7b.
  pose proof (Step _ _ _ _ _ T8 P7b C7) as P8.
  exact (Step _ _ _ _ _ T9 P8 C7).
- assert (X : "ChEMBL" <> "PubChem") by discriminate.
  assert (Y : "DrugBank" <> "PubChem") by discriminate.
  eauto 10 using later_step_cid_linked.
- eauto 10 using later_step_names.
- pose proof (resolve_cid_structure_link _ E2) as L2.
  pose proof (pubchem_structure_link _ _ E4 L2) as K4.
  pose proof (chembl_structure_link _ _ E5 K4) as K5.
  unfold structure_has_link in *.
  rewrite fingerprint_smiles, formula_smiles, (xrefs_smiles _ _ _ E7b),
    (unichem_smiles _ _ _ E7), depict_smiles.
  intros H. specialize (K5 H).
  destruct T6 as (_ & _ & _ & G6). destruct T7 as (_ & _ & _ & G7).
  destruct T7b as (_ & _ & _ & G7b). destruct T8 as (_ & _ & _ & G8).
  destruct T9 as (_ & _ & _ & G9).
  eauto 10 using grows_by_not_empty.
Qed.

End Stages.

(** X4.  The links of a returned record come in the order in which the
    code reaches them: its names are "User-provided", "PubChem", "ChEMBL",
    "DrugBank" with some of them left out, so a record has at most four
    links. *)
Theorem links_in_discovery_order (w : World) (identifier : string)
    (c : Compound) :
  get_compound_data w identifier = Ret (CompoundDict c) ->
  is_subsequence (names_of (sources c)) link_order = true
  /\ (List.length (sources c) <= 4)%nat.
Proof.
  intros H. destruct (get_compound_data_record _ _ _ H) as (_ & st & E & ->).
  destruct (pipeline_summary _ _ _ E) as (P & _). cbn [to_dict sources].
  assert (L : List.length (Locals.sources st)
              = List.length (names_of (Locals.sources st)))
    by (unfold names_of; rewrite length_map; reflexivity).
  rewrite L. cbn in P.
  repeat (destruct P as [<-|P]; [split; [reflexivity | cbn; lia]|]).
  contradiction.
Qed.

Lemma links_in_discovery_order_witness :
  names_of (sources (resolved ethanol_world "OCC")) = link_order
  /\ is_subsequence (names_of (sources (resolved ethanol_world "OCC")))
       link_order = true.
Proof.
  split; [vm_compute; reflexivity|].
  apply (links_in_discovery_order ethanol_world "OCC"
           (resolved ethanol_world "OCC")).
  vm_compute. reflexivity.
Defined.

(** X5.  The registry id of a returned record is null or truthy; when it is
    truthy the record holds the PubChem link made from that id; and a
    record holds a link named "PubChem" only when its registry id is
    truthy. *)
Theorem pubchem_link_iff_registry_id (w : World) (identifier : string)
    (c : Compound) :
  get_compound_data w identifier = Ret (CompoundDict c) ->
  (pubchem_cid c = JNull \/ Py.truthy (pubchem_cid c) = true)
  /\ (Py.truthy (pubchem_cid c) = true ->
      In (pubchem_link (pubchem_cid c)) (sources c))
  /\ (In "PubChem" (names_of (sources c)) ->
      Py.truthy (pubchem_cid c) = true).
Proof.
  intros H. destruct (get_compound_data_record _ _ _ H) as (_ & st & E & ->).
  destruct (pipeline_summary _ _ _ E) as (_ & L & _). exact L.
Qed.

Lemma pubchem_link_iff_registry_id_witness :
  Py.truthy (pubchem_cid (resolved ethanol_world "OCC")) = true
  /\ In (pubchem_link (pubchem_cid (resolved ethanol_world "OCC")))
       (sources (resolved ethanol_world "OCC")).
Proof.
  assert (T : Py.truthy (pubchem_cid (resolved ethanol_world "OCC")) = true)
    by (vm_compute; reflexivity).
  split; [exact T|].
  refine (proj1 (proj2 (pubchem_link_iff_registry_id ethanol_world "OCC"
                          (resolved ethanol_world "OCC") _)) T).
  vm_compute. reflexivity.
Defined.

(** X6.  A returned record that has a structure notation has a link: every
    place that sets the notation also records where it came from.  So the
    test of the upload route for a record with neither notation nor link
    holds exactly when the record has no link. *)
Theorem structure_comes_with_link (w : World) (identifier : string)
    (c : Compound) :
  get_compound_data w identifier = Ret (CompoundDict c) ->
  (sources c = [] -> smiles_raw c = JNull)
  /\ negb (Py.truthy (smiles_raw c)) && negb (list_truthy (sources c))
     = negb (list_truthy (sources c)).
Proof.
  intros H. destruct (get_compound_data_record _ _ _ H) as (_ & st & E & ->).
  destruct (pipeline_summary _ _ _ E) as (_ & _ & _ & L).
  unfold structure_has_link in L. cbn [to_dict sources smiles_raw].
  assert (A : Locals.sources st = [] -> Locals.smiles st = JNull).
  { intros S. destruct (Locals.smiles st) eqn:V; try reflexivity;
      exfalso; (apply L; [discriminate | exact S]). }
  split; [exact A|].
  destruct (Locals.sources st); cbn; [|apply andb_false_r].
  rewrite (A eq_refl). reflexivity.
Qed.

Lemma structure_comes_with_link_witness :
  sources (resolved offline "xyz") = []
  /\ smiles_raw (resolved offline "xyz") = JNull.
Proof.
  assert (S : sources (resolved offline "xyz") = [])
    by (vm_compute; reflexivity).
  split; [exact S|].
  refine (proj1 (structure_comes_with_link offline "xyz"
                   (resolved offline "xyz") _) S).
  vm_compute. reflexivity.
Defined.

(** X7.  A returned record that carries a systematic or a common name has a
    truthy registry id, and PubChem returned a structure for that id: the
    names are never taken from anywhere else. *)
Theorem names_only_with_pubchem_structure (w : World) (identifier : string)
    (c : Compound) :
  get_compound_data w identifier = Ret (CompoundDict c) ->
  iupac_name c <> JNull \/ common_name c <> JNull ->
  Py.truthy (pubchem_cid c) = true
  /\ exists p, get_smiles_from_pubchem w (pubchem_cid c) = Ret p
               /\ Py.truthy p = true.
Proof.
  intros H. destruct (get_compound_data_record _ _ _ H) as (_ & st & E & ->).
  destruct (pipeline_summary _ _ _ E) as (_ & _ & N & _). exact N.
Qed.

Lemma names_only_with_pubchem_structure_witness :
  Py.truthy (pubchem_cid (resolved ethanol_world "OCC")) = true
  /\ exists p,
       get_smiles_from_pubchem ethanol_world
         (pubchem_cid (resolved ethanol_world "OCC")) = Ret p
       /\ Py.truthy p = true.
Proof.
  apply (names_only_with_pubchem_structure ethanol_world "OCC"
           (resolved ethanol_world "OCC")).
  - vm_compute. reflexivity.
  - left. vm_compute. discriminate.
Defined.

Section Keys.
Variable w : World.
Variable identifier : string.


(** What the derivation of lines 369-379 leaves in the state. *)
Lemma depict_derives st m i k :
Py.truthy (Locals.smiles st) = true ->
MolFromSmiles w (Locals.smiles st) = Ret (Some m) ->
MolToInchi w m = Ret i -> InchiToInchiKey w i = Ret k ->
Locals.inchi (depict_and_derive_inchi w st) = i
/\ Locals.inchi_key (depict_and_derive_inchi w st) = k.
Proof.
intros T M I K. unfold depict_and_derive_inchi. rewrite T. cbn.
rewrite M, I. cbn. rewrite K. cbn. auto.
Qed.

Lemma after_depict_keys st7 st7b a :
drugbank_via_unichem w a = Ret st7 ->
drugbank_via_pubchem w st7 = Ret st7b ->
Locals.inchi (normalize_and_fingerprint w (formula_and_weight w st7b))
= Locals.inchi a
/\ Locals.inchi_key
     (normalize_and_fingerprint w (formula_and_weight w st7b))
   = Locals.inchi_key a.
Proof.
intros E7 E7b.
assert (A : Locals.inchi st7 = Locals.inchi a
            /\ Locals.inchi_key st7 = Locals.inchi_key a).
{ revert E7. unfold drugbank_via_unichem, add_source_st. intros H.
  step_cases; auto. }
assert (B : Locals.inchi st7b = Locals.inchi st7
            /\ Locals.inchi_key st7b = Locals.inchi_key st7).
{ revert E7b. unfold drugbank_via_pubchem, add_source_st. intros H.
  step_cases; auto. }
assert (C : forall s, Locals.inchi (formula_and_weight w s) = Locals.inchi s
            /\ Locals.inchi_key (formula_and_weight w s)
               = Locals.inchi_key s).
{ intros s. unfold formula_and_weight. step_cases; auto. }
assert (D : forall s,
            Locals.inchi (normalize_and_fingerprint w s) = Locals.inchi s
            /\ Locals.inchi_key (normalize_and_fingerprint w s)
               = Locals.inchi_key s).
{ intros s. unfold normalize_and_fingerprint. step_cases; auto. }
destruct A as [A1 A2], B as [B1 B2].
destruct (C st7b) as [C1 C2].
destruct (D (formula_and_weight w st7b)) as [D1 D2].
split; congruence.
Qed.

End Keys.



(** X9.  When the returned record has a structure notation from which RDKit
    derives an InChI and a key, the record carries exactly these two: the
    derived key replaces a key given as the identifier or fetched from
    PubChem. *)
Theorem derived_key_replaces_fetched (w : World) (identifier : string)
    (c : Compound) (m : Mol) (i k : value) :
  get_compound_data w identifier = Ret (CompoundDict c) ->
  Py.truthy (smiles_raw c) = true ->
  MolFromSmiles w (smiles_raw c) = Ret (Some m) ->
  MolToInchi w m = Ret i -> InchiToInchiKey w i = Ret k ->
  inchi c = i /\ inchi_key c = k.
Proof.
  intros H T M I K.
  destruct (get_compound_data_record _ _ _ H) as (_ & st & E & ->).
  destruct (run_pipeline_stages _ _ _ E)
    as (st2 & st4 & st5 & st7 & st7b & E2 & E4 & E5 & E7 & E7b & ->).
  cbn [to_dict smiles_raw inchi inchi_key] in *.
  rewrite fingerprint_smiles, formula_smiles, (xrefs_smiles _ _ _ E7b),
    (unichem_smiles _ _ _ E7), depict_smiles in T, M.
  destruct (after_depict_keys _ _ _ _ E7 E7b) as (-> & ->).
  apply (depict_derives w st5 m i k); assumption.
Qed.

Lemma derived_key_replaces_fetched_witness :
  inchi (resolved ethanol_world "OCC")
  = JStr "InChI=1S/C2H6O/c1-2-3/h3H,2H2,1H3"
  /\ inchi_key (resolved ethanol_world "OCC")
     = JStr "LFQSCWFLJHTTHZ-UHFFFAOYSA-N".
Proof.
  apply (derived_key_replaces_fetched ethanol_world "OCC"
           (resolved ethanol_world "OCC") (MolHandle 2));
    vm_compute; reflexivity.
Defined.

Lemma names_before_drugbank (w : World) (identifier : string)
    (st2 st4 st5 : Locals.t) :
  resolve_cid w identifier = Ret st2 ->
  pubchem_by_cid w st2 = Ret st4 ->
  chembl_by_name w identifier st4 = Ret st5 ->
  ~ In "DrugBank"
      (names_of (Locals.sources (depict_and_derive_inchi w st5))).
Proof.
  intros E2 E4 E5.
  destruct (resolve_cid_frame _ _ _ E2) as (S2 & C2 & I2 & N2).
  assert (NP : ~ In "PubChem" (names_of (Locals.sources st2))).
  { rewrite S2. destruct (parse_sources w identifier)
      as [(-> & _) | (-> & _)]; cbn; intuition discriminate. }
  assert (D2 : ~ In "DrugBank" (names_of (Locals.sources st2))).
  { rewrite S2. destruct (parse_sources w identifier)
      as [(-> & _) | (-> & _)]; cbn; intuition discriminate. }
  destruct (pubchem_frame _ _ _ E4 C2 I2 N2 NP) as (G4 & _).
  destruct (chembl_later _ _ _ _ E5) as (_ & _ & _ & G5).
  destruct (depict_later w st5) as (_ & _ & _ & G6).
  assert (K : forall n l l', n <> "DrugBank" -> grows_by n l l' ->
              ~ In "DrugBank" (names_of l) -> ~ In "DrugBank" (names_of l')).
  { intros n l l' Hn [-> | (u & ->)] Hl; [exact Hl|].
    intros H. apply add_source_name_inv in H as [H|H]; congruence. }
  refine (K _ _ _ _ G6 _); [discriminate|].
  refine (K _ _ _ _ G5 _); [discriminate|].
  refine (K _ _ _ _ G4 _); [discriminate|]. exact D2.
Qed.

(** X10.  The first DrugBank lookup that succeeds wins: when the lookup by
    key gives a link for the key of the returned record, the record holds
    that link, and the fallback lookup by registry id is not made, so the
    record is the same whatever that lookup would do. *)
Theorem unichem_link_wins (w : World) (identifier : string) (c : Compound)
    (u : value) (fallback : value -> result value) :
  get_compound_data w identifier = Ret (CompoundDict c) ->
  Py.truthy (inchi_key c) = true ->
  get_drugbank_url_from_inchikey w (inchi_key c) = Ret u ->
  Py.truthy u = true ->
  In {| db_name := "DrugBank"; url := UrlValue u |} (sources c)
  /\ get_compound_data (with_fallback w fallback) identifier
     = Ret (CompoundDict c).
Proof.
  intros H T U Tu.
  destruct (get_compound_data_record _ _ _ H) as (Hne & st & E & ->).
  destruct (run_pipeline_stages _ _ _ E)
    as (st2 & st4 & st5 & st7 & st7b & E2 & E4 & E5 & E7 & E7b & ->).
  pose proof (names_before_drugbank _ _ _ _ _ E2 E4 E5) as ND.
  cbn [to_dict inchi_key sources] in *.
  destruct (after_depict_keys _ _ _ _ E7 E7b) as (_ & K).
  rewrite K in T, U.
  assert (S7 : st7 = add_source_st "DrugBank" (UrlValue u)
                       (depict_and_derive_inchi w st5)).
  { revert E7. unfold drugbank_via_unichem, bind. rewrite T, U, Tu.
    intros [= <-]. reflexivity. }
  assert (In7 : In {| db_name := "DrugBank"; url := UrlValue u |}
                  (Locals.sources st7)).
  { rewrite S7. cbn. apply add_source_new, ND. }
  assert (X7 : forall w', drugbank_via_pubchem w' st7 = Ret st7).
  { intros w'. unfold drugbank_via_pubchem.
    assert (Ex : existsb (fun s => String.eqb (db_name s) "DrugBank")
                   (Locals.sources st7) = true).
    { apply existsb_exists. eexists. split; [exact In7 | reflexivity]. }
    rewrite Ex. reflexivity. }
  rewrite X7 in E7b. injection E7b as <-.
  split.
  - destruct (fingerprint_later w (formula_and_weight w st7))
      as (_ & _ & _ & G9).
    destruct (formula_later w st7) as (_ & _ & _ & G8).
    destruct G9 as [-> | (x & ->)]; [|apply add_source_In];
      (destruct G8 as [-> | (y & ->)]; [|apply add_source_In]); exact In7.
  - unfold get_compound_data. rewrite Hne.
    change (run_pipeline (with_fallback w fallback) identifier)
      with (bind (resolve_cid w identifier) (fun s2 =>
            bind (pubchem_by_cid w s2) (fun s4 =>
            bind (chembl_by_name w identifier s4) (fun s5 =>
            bind (drugbank_via_unichem w (depict_and_derive_inchi w s5))
              (fun s7 =>
            bind (drugbank_via_pubchem (with_fallback w fallback) s7)
              (fun s7b =>
            Ret (normalize_and_fingerprint w
                   (formula_and_weight w s7b)))))))).
    rewrite E2. cbn [bind]. rewrite E4. cbn [bind]. rewrite E5. cbn [bind].
    rewrite E7. cbn [bind]. rewrite X7. reflexivity.
Qed.

Lemma unichem_link_wins_witness :
  In {| db_name := "DrugBank";
        url := UrlValue (JStr "https://go.drugbank.com/drugs/DB00898") |}
     (sources (resolved ethanol_world "OCC"))
  /\ get_compound_data
       (with_fallback ethanol_world (fun _ => Raise TypeError)) "OCC"
     = Ret (CompoundDict (resolved ethanol_world "OCC")).
Proof.
  apply (unichem_link_wins ethanol_world "OCC"
           (resolved ethanol_world "OCC")); vm_compute; reflexivity.
Defined.
(* ================================================================== *)
(** ** The upload route as a whole *)

Lemma fold_max_ge (ids : list Z) (id x : Z) :
  x = id \/ In x ids -> x <= fold_right Z.max id ids.
Proof.
  induction ids as [|a l IH]; cbn [fold_right In].
  - intros [->|[]]. lia.
  - intros [->|[->|H]].
    + specialize (IH (or_introl eq_refl)). lia.
    + lia.
    + specialize (IH (or_intror H)). lia.
Qed.


Lemma next_id_fresh catalog r :
  In r catalog -> compound_id r < next_id catalog.
Proof.
  unfold next_id. intros H. apply (in_map compound_id) in H.
  destruct (map compound_id catalog) as [|id ids]; [destruct H|].
  pose proof (fold_max_ge ids id (compound_id r)) as G.
  cbn [In] in H.
  assert (H' : compound_id r = id \/ In (compound_id r) ids)
    by (destruct H; auto).
  specialize (G H'). lia.
Qed.

Lemma is_rowid_spec n : is_rowid n = true <-> - 2 ^ 63 <= n < 2 ^ 63.
Proof.
  unfold is_rowid. rewrite andb_true_iff, Z.leb_le, Z.ltb_lt. tauto.
Qed.

(** In a table whose largest key is below 2^63-1 the next key is a
    rowid. *)
Lemma next_id_is_rowid catalog :
  rowids_below_max catalog = true -> is_rowid (next_id catalog) = true.
Proof.
  unfold rowids_below_max. rewrite forallb_forall. intros B.
  apply is_rowid_spec. unfold next_id.
  assert (M : forall ids id,
              (forall x, x = id \/ In x ids -> - 2 ^ 63 <= x < 2 ^ 63 - 1) ->
              - 2 ^ 63 <= fold_right Z.max id ids < 2 ^ 63 - 1).
  { induction ids as [|a l IH]; intros id H; cbn [fold_right].
    - apply H. left. reflexivity.
    - assert (Ha : - 2 ^ 63 <= a < 2 ^ 63 - 1)
        by (apply H; right; left; reflexivity).
      assert (Hl : - 2 ^ 63 <= fold_right Z.max id l < 2 ^ 63 - 1).
      { apply IH. intros x [->|Hx]; apply H; [left | right; right];
          auto. }
      lia. }
  destruct (map compound_id catalog) as [|id ids] eqn:E; [lia|].
  assert (G : - 2 ^ 63 <= fold_right Z.max id ids < 2 ^ 63 - 1).
  { apply M. intros x Hx.
    assert (Hin : In x (map compound_id catalog))
      by (rewrite E; cbn [In]; destruct Hx; auto).
    apply in_map_iff in Hin as (r & <- & Hr). specialize (B r Hr).
    apply andb_prop in B as [B1 B2].
    apply Z.leb_le in B1. apply Z.ltb_lt in B2. lia. }
  lia.
Qed.

Lemma unique_ids_app catalog row :
  unique_ids catalog -> compound_id row = next_id catalog ->
  unique_ids (catalog ++ [row])%list.
Proof.
  unfold unique_ids. intros U E. rewrite map_app. cbn.
  apply NoDup_app; [exact U | repeat constructor; intros [] |].
  intros x Hx [<-|[]]. apply in_map_iff in Hx as (r & Hr & Hin).
  apply next_id_fresh in Hin. lia.
Qed.

Lemma find_app_last (A : Type) (f : A -> bool) (l : list A) (x : A) :
  find f (l ++ [x])%list
  = match find f l with
    | Some y => Some y
    | None => if f x then Some x else None
    end.
Proof.
  induction l as [|a l IH]; cbn; [reflexivity|].
  destruct (f a); [reflexivity | exact IH].
Qed.

Lemma find_by_id catalog r :
  unique_ids catalog -> In r catalog ->
  find (fun x => sqlval_eqb (SqlInteger (compound_id x))
                   (SqlInteger (compound_id r))) catalog = Some r.
Proof.
  intros U Hin.
  destruct (find _ catalog) as [y|] eqn:F.
  - apply find_some in F as [Hy E]. cbn in E. apply Z.eqb_eq in E.
    f_equal. exact (unique_ids_inj _ _ _ U Hy Hin E).
  - apply (find_none _ _ F) in Hin. cbn in Hin.
    rewrite Z.eqb_refl in Hin. discriminate.
Qed.

(** An upload ends before the database is looked at, or is the duplicate
    check and insert for the record that was resolved. *)
Lemma upload_cases w catalog form_identifier :
  (snd (upload w catalog form_identifier) = catalog
   /\ match fst (upload w catalog form_identifier) with
      | IdentifierRequired | ProcessingFailed _ | IdentifierError _
      | Unresolvable => True
      | _ => False
      end)
  \/ (exists c,
        PyStr.is_empty (PyStr.strip form_identifier) = false
        /\ get_compound_data w (PyStr.strip form_identifier)
           = Ret (CompoundDict c)
        /\ upload w catalog form_identifier
           = check_and_insert (CompoundDict c) catalog).
Proof.
  unfold upload.
  destruct (PyStr.is_empty (PyStr.strip form_identifier)) eqn:Ne;
    [left; split; [reflexivity | exact I]|].
  destruct (get_compound_data w (PyStr.strip form_identifier))
    as [e|data] eqn:G; [left; split; [reflexivity | exact I]|].
  destruct (Get.has_error data && negb (Py.truthy (Get.field smiles_raw data))
            && negb (list_truthy (Get.sources_of data))) eqn:B1;
    [left; split; [reflexivity | exact I]|].
  destruct (negb (Py.truthy (Get.field smiles_raw data))
            && negb (list_truthy (Get.sources_of data))) eqn:B2;
    [left; split; [reflexivity | exact I]|].
  destruct data as [m|c].
  { cbn in B1, B2. congruence. }
  right. exists c. auto.
Qed.

(** The row an insert adds holds the four values the duplicate check
    compares, bound as parameters. *)
Lemma inserted_row data catalog catalog' :
  insert_compound data catalog = DbRet catalog' ->
  exists row,
    catalog' = (catalog ++ [row])%list
    /\ compound_id row = next_id catalog
    /\ row_metadata row = Get.sources_of data
    /\ bind_param (Get.field inchi_key data) = DbRet (row_inchi_key row)
    /\ bind_param (Get.field smiles_normalized data)
       = DbRet (row_smiles_normalized row)
    /\ bind_param (Get.field smiles_raw data) = DbRet (row_smiles_raw row)
    /\ bind_param (Get.field common_name data)
       = DbRet (row_common_name row).
Proof.
  unfold insert_compound, db_bind. intros H.
  repeat match type of H with
         | match ?x with _ => _ end = _ =>
             destruct x eqn:?; [discriminate|]
         end.
  destruct (is_rowid (next_id catalog)); [|discriminate].
  injection H as <-. eexists. split; [reflexivity|]. cbn. auto 10.
Qed.

(** An insert succeeds only under a key that is a rowid. *)
Lemma inserted_rowid data catalog catalog' :
  insert_compound data catalog = DbRet catalog' ->
  is_rowid (next_id catalog) = true.
Proof.
  unfold insert_compound, db_bind. intros H.
  repeat match type of H with
         | match ?x with _ => _ end = _ =>
             destruct x eqn:?; [discriminate|]
         end.
  destruct (is_rowid (next_id catalog)); [reflexivity | discriminate].
Qed.

(** What an upload that ends with an insert has done. *)
Lemma upload_added w catalog form_identifier catalog' :
  upload w catalog form_identifier = (Added, catalog') ->
  exists c row,
    get_compound_data w (PyStr.strip form_identifier) = Ret (CompoundDict c)
    /\ PyStr.is_empty (PyStr.strip form_identifier) = false
    /\ (negb (Py.truthy (smiles_raw c)) && negb (list_truthy (sources c))
        = false)
    /\ find_existing (CompoundDict c) catalog = DbRet None
    /\ insert_compound (CompoundDict c) catalog = DbRet catalog'
    /\ catalog' = (catalog ++ [row])%list
    /\ compound_id row = next_id catalog
    /\ row_metadata row = sources c
    /\ bind_param (inchi_key c) = DbRet (row_inchi_key row)
    /\ bind_param (smiles_normalized c) = DbRet (row_smiles_normalized row)
    /\ bind_param (smiles_raw c) = DbRet (row_smiles_raw row)
    /\ bind_param (common_name c) = DbRet (row_common_name row).
Proof.
  intros U.
  destruct (upload_cases w catalog form_identifier)
    as [(_ & M) | (c & Ne & G & E)].
  { rewrite U in M. contradiction. }
  assert (B : negb (Py.truthy (smiles_raw c))
              && negb (list_truthy (sources c)) = false).
  { revert U. unfold upload. rewrite Ne, G.
    cbn [Get.has_error Get.field Get.sources_of andb].
    destruct (negb (Py.truthy (smiles_raw c))
              && negb (list_truthy (sources c))); [discriminate|reflexivity]. }
  rewrite U in E.
  pose proof (check_and_insert_outcome (CompoundDict c) catalog) as O.
  rewrite <- E in O. destruct O as (F & Ins).
  destruct (inserted_row _ _ _ Ins)
    as (row & -> & Hid & Hm & K1 & K2 & K3 & K4).
  exists c, row. cbn [Get.field Get.sources_of] in *. auto 15.
Qed.

(** An upload that does not end with an insert leaves the table alone. *)
Lemma upload_not_added w catalog form_identifier :
  fst (upload w catalog form_identifier) <> Added ->
  snd (upload w catalog form_identifier) = catalog.
Proof.
  intros H.
  destruct (upload_cases w catalog form_identifier)
    as [(S & _) | (c & _ & _ & E)]; [exact S|].
  pose proof (check_and_insert_outcome (CompoundDict c) catalog) as O.
  rewrite E in H |- *.
  destruct (check_and_insert (CompoundDict c) catalog) as [o catalog'].
  cbn [fst snd] in *.
  destruct o; try contradiction; try congruence; try exact O.
  exact (proj1 O).
Qed.

(** X11.  In a table whose keys are rowids below the largest one, 2^63-1,
    an upload never changes or removes a stored row: the table is left as
    it was unless the outcome is [Added], and then exactly one row is
    appended, under the key that follows the largest key of the table,
    which is a rowid and larger than every key in the table; so keys that
    were distinct stay distinct. *)
Theorem upload_appends_with_fresh_id (w : World) (catalog : Catalog)
    (form_identifier : string) :
  rowids_below_max catalog = true ->
  (fst (upload w catalog form_identifier) <> Added ->
   snd (upload w catalog form_identifier) = catalog)
  /\ (fst (upload w catalog form_identifier) = Added ->
      exists row,
        snd (upload w catalog form_identifier) = (catalog ++ [row])%list
        /\ compound_id row = next_id catalog
        /\ is_rowid (compound_id row) = true
        /\ forall r, In r catalog -> compound_id r < compound_id row)
  /\ (unique_ids catalog ->
      unique_ids (snd (upload w catalog form_identifier))).
Proof.
  intros Below.
  assert (A : fst (upload w catalog form_identifier) = Added ->
              exists row,
                snd (upload w catalog form_identifier)
                = (catalog ++ [row])%list
                /\ compound_id row = next_id catalog).
  { intros H.
    destruct (upload w catalog form_identifier) as [o catalog'] eqn:U.
    cbn in H. subst o.
    destruct (upload_added _ _ _ _ U)
      as (c & row & _ & _ & _ & _ & _ & -> & Hid & _).
    exists row. auto. }
  pose proof (upload_not_added w catalog form_identifier) as B.
  split; [exact B|]. split.
  - intros H. destruct (A H) as (row & S & Hid). exists row.
    split; [exact S|]. split; [exact Hid|].
    split; [rewrite Hid; apply next_id_is_rowid, Below|].
    intros r Hr. rewrite Hid. apply next_id_fresh, Hr.
  - intros U.
    destruct (upload w catalog form_identifier) as [o catalog'] eqn:E.
    cbn [fst snd] in *.
    assert (D : o = Added \/ o <> Added)
      by (destruct o; auto; right; discriminate).
    destruct D as [D|D].
    + destruct (A D) as (row & -> & Hid). apply unique_ids_app; assumption.
    + rewrite (B D). exact U.
Qed.

Lemma upload_appends_with_fresh_id_witness :
  fst (upload ethanol_world water_catalog "OCC") = Added
  /\ exists row,
       snd (upload ethanol_world water_catalog "OCC")
       = (water_catalog ++ [row])%list
       /\ compound_id row = next_id water_catalog
       /\ is_rowid (compound_id row) = true
       /\ forall r, In r water_catalog -> compound_id r < compound_id row.
Proof.
  split; [vm_compute; reflexivity|].
  apply (upload_appends_with_fresh_id ethanol_world water_catalog "OCC").
  - vm_compute. reflexivity.
  - vm_compute. reflexivity.
Defined.

Lemma keys_unique_app catalog row :
  keys_unique catalog ->
  (row_inchi_key row = SqlNull
   \/ forall r, In r catalog -> row_inchi_key r <> row_inchi_key row) ->
  keys_unique (catalog ++ [row])%list.
Proof.
  unfold keys_unique. intros U H. rewrite map_app, filter_app. cbn.
  destruct H as [->|H]; cbn; [rewrite app_nil_r; exact U|].
  destruct (sql_is_null (row_inchi_key row)); cbn;
    [rewrite app_nil_r; exact U|].
  apply NoDup_app; [exact U | repeat constructor; intros [] |].
  intros k Hk [<-|[]]. apply filter_In in Hk as [Hk _].
  apply in_map_iff in Hk as (r & E & Hr). exact (H r Hr E).
Qed.

(** When nothing is found, every block of the check was skipped or its
    query found no row. *)
Lemma nothing_found data catalog p :
  find_existing data catalog = DbRet None -> In p cascade_order ->
  run_step data catalog p = Skipped \/ run_step data catalog p = Missed.
Proof.
  rewrite find_existing_is_cascade. unfold cascade, cascade_order.
  cbn [map first_match p_step]. intros H Hp.
  repeat match type of H with
         | context [run_step ?d ?c ?q] =>
             let E := fresh "E" in
             destruct (run_step d c q) eqn:E; try discriminate H
         end;
    cbn [In] in Hp; intuition (subst; eauto).
Qed.

Lemma run_step_truthy data catalog p :
  Py.truthy (Get.field (p_field p) data) = true ->
  run_step data catalog p <> Skipped.
Proof.
  unfold run_step. intros ->.
  destruct (bind_param _); [discriminate|]. destruct (find _ _); discriminate.
Qed.

Lemma run_step_falsy data catalog p :
  Py.truthy (Get.field (p_field p) data) = false ->
  run_step data catalog p = Skipped.
Proof. unfold run_step. intros ->. reflexivity. Qed.

(** A block whose query found nothing finds the appended row, if that row
    matches. *)
Lemma run_step_app data catalog p row v :
  run_step data catalog p = Missed ->
  bind_param (Get.field (p_field p) data) = DbRet v ->
  run_step data (catalog ++ [row])%list p
  = if p_eq p (p_column p row) v then Hit row else Missed.
Proof.
  unfold run_step. intros H B. rewrite B in *.
  destruct (Py.truthy _); [|discriminate].
  rewrite find_app_last. destruct (find _ catalog); [discriminate|].
  destruct (p_eq p (p_column p row) v); reflexivity.
Qed.

(** X12.  An upload that runs alone on the table, with no other request
    writing between its duplicate check and its insert, keeps the keys of
    the table distinct: when the record resolved for the identifier has no
    key or a non-empty text key, a table in which no two rows share a key
    is still such a table after the upload. *)
Theorem upload_keeps_keys_unique (w : World) (catalog : Catalog)
    (form_identifier : string) :
  resolves_to_text_key w (PyStr.strip form_identifier) = true ->
  keys_unique catalog ->
  keys_unique (snd (upload w catalog form_identifier)).
Proof.
  intros K U.
  destruct (upload w catalog form_identifier) as [o catalog'] eqn:E.
  assert (D : o = Added \/ o <> Added)
    by (destruct o; auto; right; discriminate).
  destruct D as [->|D].
  - destruct (upload_added _ _ _ _ E)
      as (c & row & G & _ & _ & F & _ & -> & _ & _ & B & _).
    cbn [snd]. apply keys_unique_app; [exact U|].
    unfold resolves_to_text_key in K. rewrite G in K.
    destruct (inchi_key c) as [| | | |s| |] eqn:Ek; try discriminate K.
    + left. cbn in B. congruence.
    + right. intros r Hr Heq. cbn in K, B. injection B as B.
      set (p := {| p_step := ByInchiKey; p_eq := sql_eq;
                   p_column := row_inchi_key; p_field := inchi_key |}).
      assert (T : Py.truthy (Get.field (p_field p) (CompoundDict c)) = true)
        by (cbn; rewrite Ek; exact K).
      destruct (nothing_found _ _ p F) as [S|M]; [cbn; auto | |].
      * exact (run_step_truthy _ catalog _ T S).
      * assert (Bp : bind_param (Get.field (p_field p) (CompoundDict c))
                     = DbRet (SqlText s)) by (cbn; rewrite Ek; reflexivity).
        pose proof (run_step_missed _ _ _ M _ _ Bp Hr) as N. cbn in N.
        rewrite Heq, <- B in N. cbn in N. rewrite String.eqb_refl in N.
        discriminate.
  - pose proof (upload_not_added w catalog form_identifier) as S.
    rewrite E in S. cbn [fst snd] in *. rewrite (S D). exact U.
Qed.

Lemma upload_keeps_keys_unique_witness :
  keys_unique (snd (upload ethanol_world water_catalog " OCC ")).
Proof.
  apply (upload_keeps_keys_unique ethanol_world water_catalog " OCC ").
  - vm_compute. reflexivity.
  - unfold keys_unique. cbn. repeat constructor. intros [].
Defined.

(** The query of line 159 after an insert of a record with a text key. *)
Lemma select_new_row c catalog row k :
  find_existing (CompoundDict c) catalog = DbRet None ->
  inchi_key c = JStr k -> k <> "" ->
  row_inchi_key row = SqlText k ->
  select_one sql_eq row_inchi_key (inchi_key c) (catalog ++ [row])%list
  = DbRet (Some row).
Proof.
  intros F Ek Hk Er.
  set (p := {| p_step := ByInchiKey; p_eq := sql_eq;
               p_column := row_inchi_key; p_field := inchi_key |}).
  assert (T : Py.truthy (Get.field (p_field p) (CompoundDict c)) = true).
  { cbn. rewrite Ek. cbn. destruct k; [contradiction | reflexivity]. }
  assert (Bp : bind_param (Get.field (p_field p) (CompoundDict c))
               = DbRet (SqlText k)) by (cbn; rewrite Ek; reflexivity).
  destruct (nothing_found _ _ p F) as [S|M]; [cbn; auto | |].
  { destruct (run_step_truthy _ catalog _ T S). }
  pose proof (run_step_app _ _ _ row _ M Bp) as R.
  unfold run_step in R. rewrite T, Bp in R. cbn [p_eq p_column p] in R.
  unfold select_one, db_bind. cbn [Get.field p_field p] in Bp. rewrite Bp.
  rewrite Er in R. cbn [sql_eq sql_is_null negb andb sqlval_eqb] in R.
  rewrite String.eqb_refl in R.
  destruct (find _ (catalog ++ [row])%list) as [x|]; [|discriminate].
  injection R as ->. reflexivity.
Qed.

Lemma details_of_new_row catalog row :
  compound_id row = next_id catalog -> is_rowid (next_id catalog) = true ->
  compound_details (catalog ++ [row])%list (next_id catalog)
  = RenderCompound row (row_metadata row).
Proof.
  intros Hid Hr. unfold compound_details, bind_param.
  unfold is_rowid in Hr. rewrite Hr.
  rewrite find_app_last.
  destruct (find _ catalog) as [y|] eqn:F.
  - apply find_some in F as [Hy E]. cbn [sqlval_eqb] in E.
    apply Z.eqb_eq in E. apply next_id_fresh in Hy. lia.
  - cbn [sqlval_eqb]. rewrite Hid, Z.eqb_refl. reflexivity.
Qed.

(** X13.  After an insert the browser is sent to the new row.  When an
    upload ends with an insert, the appended row carries the links of the
    resolved record; if that record has a non-empty text key, the answer
    is a redirect to the details page of the new id, and that page, asked
    for on the new table, shows the new row with the record's links; if
    the record has no key, the answer is a redirect to the index. *)
Theorem added_compound_is_shown (w : World) (catalog catalog' : Catalog)
    (form_identifier : string) :
  upload w catalog form_identifier = (Added, catalog') ->
  exists c row,
    get_compound_data w (PyStr.strip form_identifier) = Ret (CompoundDict c)
    /\ catalog' = (catalog ++ [row])%list
    /\ compound_id row = next_id catalog
    /\ row_metadata row = sources c
    /\ (forall k, inchi_key c = JStr k -> k <> "" ->
        row_inchi_key row = SqlText k
        /\ upload_reply w catalog form_identifier
           = (RedirectCompound (next_id catalog), catalog')
        /\ (next_id catalog < 2 ^ 63 ->
            compound_details catalog' (next_id catalog)
            = RenderCompound row (sources c)))
    /\ (Py.truthy (inchi_key c) = false ->
        upload_reply w catalog form_identifier = (RedirectIndex, catalog')).
Proof.
  intros U.
  destruct (upload_added _ _ _ _ U)
    as (c & row & G & _ & _ & F & Ins & -> & Hid & Hm & B & _).
  apply inserted_rowid in Ins.
  exists c, row. repeat (split; [first [assumption | reflexivity]|]).
  unfold upload_reply. rewrite U, G. unfold redirect_after_insert.
  cbn [Get.field]. split.
  - intros k Ek Hk.
    assert (Er : row_inchi_key row = SqlText k)
      by (rewrite Ek in B; cbn in B; congruence).
    split; [exact Er|]. split.
    + rewrite (select_new_row _ _ _ _ F Ek Hk Er).
      rewrite Ek. cbn. destruct k; [contradiction|]. cbn.
      rewrite Hid. reflexivity.
    + intros _. rewrite <- Hm. apply details_of_new_row; assumption.
  - intros ->. reflexivity.
Qed.

Lemma added_compound_is_shown_witness :
  exists c row,
    get_compound_data ethanol_world (PyStr.strip " OCC ")
    = Ret (CompoundDict c)
    /\ snd (upload ethanol_world water_catalog " OCC ")
       = (water_catalog ++ [row])%list
    /\ compound_id row = next_id water_catalog
    /\ row_metadata row = sources c
    /\ (forall k, inchi_key c = JStr k -> k <> "" ->
        row_inchi_key row = SqlText k
        /\ upload_reply ethanol_world water_catalog " OCC "
           = (RedirectCompound (next_id water_catalog),
              snd (upload ethanol_world water_catalog " OCC "))
        /\ (next_id water_catalog < 2 ^ 63 ->
            compound_details (snd (upload ethanol_world water_catalog " OCC "))
              (next_id water_catalog)
            = RenderCompound row (sources c)))
    /\ (Py.truthy (inchi_key c) = false ->
        upload_reply ethanol_world water_catalog " OCC "
        = (RedirectIndex, snd (upload ethanol_world water_catalog " OCC "))).
Proof.
  apply (added_compound_is_shown ethanol_world water_catalog
           (snd (upload ethanol_world water_catalog " OCC ")) " OCC ").
  vm_compute. reflexivity.
Defined.

(** X14.  A redirect to a details page always names a stored row: if the
    answer to an upload is a redirect to the details page of [id], the
    table the upload leaves has a row with that id; and when the ids of
    the table were distinct and [id] fits 64 bits, the details page shows
    that row with its links. *)
Theorem upload_redirects_to_stored_row (w : World) (catalog : Catalog)
    (form_identifier : string) (id : Z) :
  fst (upload_reply w catalog form_identifier) = RedirectCompound id ->
  exists r,
    In r (snd (upload_reply w catalog form_identifier))
    /\ compound_id r = id
    /\ (unique_ids catalog -> - 2 ^ 63 <= id < 2 ^ 63 ->
        compound_details (snd (upload_reply w catalog form_identifier)) id
        = RenderCompound r (row_metadata r)).
Proof.
  intros H.
  assert (S : snd (upload_reply w catalog form_identifier)
              = snd (upload w catalog form_identifier)).
  { unfold upload_reply.
    destruct (upload w catalog form_identifier) as [o c'].
    destruct o; try reflexivity;
      destruct (get_compound_data _ _); reflexivity. }
  assert (Ex : exists r, In r (snd (upload w catalog form_identifier))
                         /\ compound_id r = id).
  { revert H. unfold upload_reply.
    destruct (upload_cases w catalog form_identifier)
      as [(_ & M) | (c & _ & G & E)].
    { destruct (upload w catalog form_identifier) as [o c'].
      cbn [fst] in M. destruct o; try contradiction; discriminate. }
    pose proof (check_and_insert_outcome (CompoundDict c) catalog) as O.
    rewrite G, E.
    destruct (check_and_insert (CompoundDict c) catalog) as [o c'].
    assert (R : fst (redirect_after_insert (CompoundDict c) c', c')
                = RedirectCompound id ->
                exists r, In r c' /\ compound_id r = id).
    { cbn [fst]. unfold redirect_after_insert.
      destruct (Py.truthy _); [|discriminate].
      destruct (select_one _ _ _ _) as [e|[x|]] eqn:Q; try discriminate.
      intros [= <-]. exists x. split; [|reflexivity].
      unfold select_one, db_bind in Q.
      destruct (bind_param _); [discriminate|]. injection Q as Q.
      apply find_some in Q. tauto. }
    destruct o; try contradiction; try discriminate; try exact R.
    destruct O as (-> & r & F & Hid). cbn. intros [= <-].
    destruct (find_existing_hit _ _ _ _ F) as (p & _ & _ & Hit).
    apply run_step_hit in Hit as (Hin & _). exists r. auto. }
  destruct Ex as (r & Hin & Hid). exists r. rewrite S.
  split; [exact Hin|]. split; [exact Hid|].
  intros U R.
  assert (U' : unique_ids (snd (upload w catalog form_identifier))).
  { destruct (upload w catalog form_identifier) as [o c'] eqn:E.
    assert (D : o = Added \/ o <> Added)
      by (destruct o; auto; right; discriminate).
    destruct D as [->|D].
    - destruct (upload_added _ _ _ _ E)
        as (c & row & _ & _ & _ & _ & _ & -> & Hrow & _).
      apply unique_ids_app; assumption.
    - pose proof (upload_not_added w catalog form_identifier) as N.
      rewrite E in N. cbn [fst snd] in *. rewrite (N D). exact U. }
  unfold compound_details, bind_param.
  replace ((- 2 ^ 63 <=? id) && (id <? 2 ^ 63))
    with true by (symmetry; apply andb_true_intro; split;
                  [apply Z.leb_le | apply Z.ltb_lt]; lia).
  rewrite <- Hid. rewrite (find_by_id _ _ U' Hin). reflexivity.
Qed.

Lemma upload_redirects_to_stored_row_witness :
  exists r,
    In r (snd (upload_reply ethanol_world water_catalog "CCO"))
    /\ compound_id r = 4
    /\ (unique_ids water_catalog -> - 2 ^ 63 <= 4 < 2 ^ 63 ->
        compound_details (snd (upload_reply ethanol_world water_catalog "CCO"))
          4
        = RenderCompound r (row_metadata r)).
Proof.
  apply (upload_redirects_to_stored_row ethanol_world water_catalog "CCO" 4).
  vm_compute. reflexivity.
Defined.

(** After the insert of a record, each block of the check is skipped or
    finds the new row. *)
Lemma run_step_after_insert c catalog row p :
  find_existing (CompoundDict c) catalog = DbRet None ->
  In p cascade_order ->
  text_or_null (p_field p c) = true ->
  bind_param (p_field p c) = DbRet (p_column p row) ->
  run_step (CompoundDict c) (catalog ++ [row])%list p
  = if Py.truthy (p_field p c) then Hit row else Skipped.
Proof.
  intros F Hp Tx B.
  destruct (Py.truthy (p_field p c)) eqn:T;
    [|apply run_step_falsy; exact T].
  destruct (nothing_found _ _ p F Hp) as [S|M].
  { destruct (run_step_truthy (CompoundDict c) catalog p T S). }
  rewrite (run_step_app _ _ _ row _ M B).
  destruct (p_field p c) as [| | | |s| |]; try discriminate Tx;
    [cbn in T; discriminate T|].
  cbn in B. injection B as <-.
  assert (E1 : sql_eq (SqlText s) (SqlText s) = true)
    by (apply sql_eq_spec; split; [discriminate | reflexivity]).
  assert (E2 : sql_eq_nocase (SqlText s) (SqlText s) = true)
    by (unfold sql_eq_nocase; apply String.eqb_refl).
  cbn [In cascade_order] in Hp.
  destruct Hp as [<-|[<-|[<-|[<-|[]]]]]; cbn [p_eq];
    first [rewrite E1 | rewrite E2]; reflexivity.
Qed.

(** X15.  Uploading the same identifier again after an insert adds
    nothing: when one of the four compared fields of the record is set
    (the fields being text), the second upload reports the row added by
    the first as a duplicate, found by the first block whose field is set,
    and leaves the table as it is. *)
Theorem second_upload_is_duplicate (w : World) (catalog catalog' : Catalog)
    (form_identifier : string) (c : Compound) (step : DedupStep) :
  upload w catalog form_identifier = (Added, catalog') ->
  get_compound_data w (PyStr.strip form_identifier) = Ret (CompoundDict c) ->
  text_fields c = true ->
  first_set_step c = Some step ->
  upload w catalog' form_identifier
  = (AlreadyExists step (next_id catalog), catalog').
Proof.
  intros U G Tx St.
  destruct (upload_added _ _ _ _ U)
    as (c' & row & G' & Ne & B & F & _ & -> & Hid & _ & K1 & K2 & K3 & K4).
  rewrite G in G'. injection G' as <-.
  unfold text_fields in Tx.
  apply andb_prop in Tx as [Tx T4]. apply andb_prop in Tx as [Tx T3].
  apply andb_prop in Tx as [T1 T2].
  unfold upload. rewrite Ne, G. cbn [Get.has_error Get.field Get.sources_of
                                      andb]. rewrite B.
  unfold check_and_insert. rewrite find_existing_is_cascade.
  unfold cascade, cascade_order. cbn [map p_step].
  rewrite !(run_step_after_insert c catalog row) by
    (first [exact F | cbn; tauto | assumption]).
  cbn [p_field]. unfold first_set_step in St.
  destruct (Py.truthy (inchi_key c));
    [injection St as <-; cbn; rewrite Hid; reflexivity|].
  destruct (Py.truthy (smiles_normalized c));
    [injection St as <-; cbn; rewrite Hid; reflexivity|].
  destruct (Py.truthy (smiles_raw c));
    [injection St as <-; cbn; rewrite Hid; reflexivity|].
  destruct (Py.truthy (common_name c));
    [injection St as <-; cbn; rewrite Hid; reflexivity|].
  discriminate.
Qed.

Lemma second_upload_is_duplicate_witness :
  upload ethanol_world (snd (upload ethanol_world water_catalog "OCC")) "OCC"
  = (AlreadyExists ByInchiKey (next_id water_catalog),
     snd (upload ethanol_world water_catalog "OCC")).
Proof.
  apply (second_upload_is_duplicate ethanol_world water_catalog
           (snd (upload ethanol_world water_catalog "OCC")) "OCC"
           (resolved ethanol_world "OCC") ByInchiKey);
    vm_compute; reflexivity.
Defined.





Lemma rstrip_empty s :
  PyStr.is_empty (PyStr.rstrip s) = PyStr.all_chars PyStr.isspace s.
Proof.
  induction s as [|a s IH]; cbn; [reflexivity|].
  rewrite <- IH.
  destruct (PyStr.isspace a); cbn; [|reflexivity].
  destruct (PyStr.is_empty (PyStr.rstrip s)); reflexivity.
Qed.

Lemma lstrip_spaces s :
  PyStr.all_chars PyStr.isspace (PyStr.lstrip s)
  = PyStr.all_chars PyStr.isspace s.
Proof.
  induction s as [|a s IH]; cbn; [reflexivity|].
  destruct (PyStr.isspace a) eqn:E; cbn; [exact IH|].
  rewrite E. reflexivity.
Qed.

Lemma strip_empty s :
  PyStr.is_empty (PyStr.strip s) = PyStr.all_chars PyStr.isspace s.
Proof. unfold PyStr.strip. rewrite rstrip_empty. apply lstrip_spaces. Qed.

(** X17.  The outcome "identifier required" is reached exactly for a form
    field made of white space only (or empty); the upload page is then
    shown again and the table is left alone, whatever the services would
    answer. *)
Theorem blank_identifier_is_required (w : World) (catalog : Catalog)
    (form_identifier : string) :
  (fst (upload w catalog form_identifier) = IdentifierRequired
   <-> PyStr.all_chars PyStr.isspace form_identifier = true)
  /\ (PyStr.all_chars PyStr.isspace form_identifier = true ->
      upload_reply w catalog form_identifier = (RenderUpload, catalog)).
Proof.
  rewrite <- strip_empty. split; [split|].
  - intros H.
    destruct (PyStr.is_empty (PyStr.strip form_identifier)) eqn:Ne;
      [reflexivity|].
    destruct (upload_cases w catalog form_identifier)
      as [(_ & _) | (c & _ & _ & E)].
    + revert H. unfold upload. rewrite Ne.
      destruct (get_compound_data _ _) as [e|data]; [discriminate|].
      destruct (_ && _ && _); [discriminate|].
      destruct (_ && _); [discriminate|].
      pose proof (check_and_insert_outcome data catalog) as O.
      destruct (check_and_insert data catalog) as [o c'].
      cbn. intros ->. contradiction.
    + pose proof (check_and_insert_outcome (CompoundDict c) catalog) as O.
      rewrite E in H.
      destruct (check_and_insert (CompoundDict c) catalog) as [o c'].
      cbn in H. subst o. contradiction.
  - intros Ne. unfold upload. rewrite Ne. reflexivity.
  - intros Ne. unfold upload_reply, upload. rewrite Ne. reflexivity.
Qed.
(* ================================================================== *)
(** ** The seeding script *)

(** What the loop of [fetch_compounds_by_name_list] adds to the list it
    has. *)
Lemma fetch_loop_spec w compound_names limit compounds l :
  fetch_loop w compound_names limit compounds = Ret l ->
  exists new,
    l = (compounds ++ new)%list
    /\ (forall c, In c new ->
          Py.truthy (inchi_key c) = true
          /\ exists name, In name compound_names
                          /\ get_compound_data w name = Ret (CompoundDict c))
    /\ (new <> [] -> Z.of_nat (List.length l) <= limit).
Proof.
  revert compounds.
  induction compound_names as [|name rest IH]; intros compounds; cbn.
  - intros [= <-]. exists []. rewrite app_nil_r.
    split; [reflexivity|]. split; [intros c []|congruence].
  - destruct (Z.of_nat (List.length compounds) >=? limit) eqn:L.
    { intros [= <-]. exists []. rewrite app_nil_r.
      split; [reflexivity|]. split; [intros c []|congruence]. }
    unfold bind. destruct (get_compound_data w name) as [e|data] eqn:G;
      [discriminate|].
    assert (Skip : fetch_loop w rest limit compounds = Ret l ->
                   exists new,
                     l = (compounds ++ new)%list
                     /\ (forall c, In c new ->
                           Py.truthy (inchi_key c) = true
                           /\ exists name0,
                                (name = name0 \/ In name0 rest)
                                /\ get_compound_data w name0
                                   = Ret (CompoundDict c))
                     /\ (new <> [] -> Z.of_nat (List.length l) <= limit)).
    { intros H. destruct (IH _ H) as (new & -> & P & Q).
      exists new. split; [reflexivity|]. split; [|exact Q].
      intros c Hc. destruct (P c Hc) as (T & n & Hn & Gn). eauto. }
    destruct data as [m|c]; [exact Skip|].
    destruct (Py.truthy (inchi_key c)) eqn:T; [|exact Skip].
    intros H. destruct (IH _ H) as (new & -> & P & Q).
    exists (c :: new). rewrite <- app_assoc. split; [reflexivity|]. split.
    + intros c' [<-|Hc]; [eauto|].
      destruct (P c' Hc) as (T' & n & Hn & Gn). eauto.
    + intros _. destruct new as [|c' new'].
      * rewrite app_nil_r, length_app. cbn.
        rewrite Z.geb_leb in L. apply Z.leb_gt in L. lia.
      * rewrite <- app_assoc in Q. apply Q. discriminate.
Qed.

(** X18.  [fetch_compounds_by_name_list] returns at most [limit] records
    (none when [limit] is not positive); each of them was resolved from
    one of the names and has an InChIKey, so the seeding loop can look
    each of them up by key. *)
Theorem fetched_compounds_have_keys (w : World) (compound_names : list string)
    (limit : Z) (l : list Compound) :
  fetch_compounds_by_name_list w compound_names limit = Ret l ->
  Z.of_nat (List.length l) <= Z.max 0 limit
  /\ forall c, In c l ->
       Py.truthy (inchi_key c) = true
       /\ exists name, In name compound_names
                       /\ get_compound_data w name = Ret (CompoundDict c).
Proof.
  intros H. destruct (fetch_loop_spec _ _ _ _ _ H) as (new & -> & P & Q).
  cbn [app] in *. split; [|exact P].
  destruct new as [|c new]; [cbn; lia|].
  assert (Z.of_nat (List.length (c :: new)) <= limit)
    by (apply Q; discriminate). lia.
Qed.

Lemma fetched_compounds_have_keys_witness :
  Z.of_nat (List.length [resolved ethanol_world "ethanol"]) <= Z.max 0 1
  /\ forall c, In c [resolved ethanol_world "ethanol"] ->
       Py.truthy (inchi_key c) = true
       /\ exists name, In name ["ethanol"; "OCC"]
                       /\ get_compound_data ethanol_world name
                          = Ret (CompoundDict c).
Proof.
  apply (fetched_compounds_have_keys ethanol_world ["ethanol"; "OCC"] 1).
  vm_compute. reflexivity.
Defined.

(** X19.  Once [limit] records have been collected no further name is
    resolved: names added after that point do not change the result,
    whatever resolving them would return or raise. *)
Theorem limit_stops_fetching (w : World) (compound_names more : list string)
    (limit : Z) (l : list Compound) :
  fetch_compounds_by_name_list w compound_names limit = Ret l ->
  limit <= Z.of_nat (List.length l) ->
  fetch_compounds_by_name_list w (compound_names ++ more) limit = Ret l.
Proof.
  unfold fetch_compounds_by_name_list. generalize (@nil Compound).
  induction compound_names as [|name rest IH]; intros compounds; cbn [app].
  - cbn. intros [= <-] L. destruct more as [|n more]; [reflexivity|].
    cbn. replace (Z.of_nat (List.length compounds) >=? limit) with true;
      [reflexivity|].
    symmetry. rewrite Z.geb_leb. apply Z.leb_le. exact L.
  - cbn. destruct (Z.of_nat (List.length compounds) >=? limit);
      [auto|].
    unfold bind. destruct (get_compound_data w name) as [e|data];
      [discriminate|].
    destruct data as [m|c]; [apply IH|].
    destruct (Py.truthy (inchi_key c)); apply IH.
Qed.

Lemma limit_stops_fetching_witness :
  get_compound_data aspirin_raises_world "aspirin" = Raise IndexError
  /\ fetch_compounds_by_name_list aspirin_raises_world
       (["ethanol"] ++ ["aspirin"]) 1
     = Ret [resolved aspirin_raises_world "ethanol"].
Proof.
  split; [vm_compute; reflexivity|].
  apply (limit_stops_fetching aspirin_raises_world ["ethanol"] ["aspirin"] 1).
  - vm_compute. reflexivity.
  - vm_compute. discriminate.
Defined.


(** The loop of [seed_database]: rows are only appended, the counter of
    inserts counts the appended rows, and the two counters together count
    the records handled; all records are handled unless a statement
    raises. *)
Lemma seed_loop_spec compounds_to_insert s s' r :
  seed_loop compounds_to_insert s = (s', r) ->
  exists rows,
    seed_table s' = (seed_table s ++ rows)%list
    /\ inserted_count s' = inserted_count s + Z.of_nat (List.length rows)
    /\ skipped_count s <= skipped_count s'
    /\ (inserted_count s' + skipped_count s'
        <= inserted_count s + skipped_count s
           + Z.of_nat (List.length compounds_to_insert))
    /\ (r = None <->
        inserted_count s' + skipped_count s'
        = inserted_count s + skipped_count s
          + Z.of_nat (List.length compounds_to_insert)).
Proof.
  revert s. induction compounds_to_insert as [|data rest IH]; intros s.
  - cbn. intros [= <- <-]. exists []. rewrite app_nil_r.
    cbn [List.length]. repeat split; try lia; reflexivity.
  - cbn [seed_loop].
    assert (Stop : forall e, (s, Some e) = (s', r) ->
              exists rows,
                seed_table s' = (seed_table s ++ rows)%list
                /\ inserted_count s'
                   = inserted_count s + Z.of_nat (List.length rows)
                /\ skipped_count s <= skipped_count s'
                /\ (inserted_count s' + skipped_count s'
                    <= inserted_count s + skipped_count s
                       + Z.of_nat (List.length (data :: rest)))
                /\ (r = None <->
                    inserted_count s' + skipped_count s'
                    = inserted_count s + skipped_count s
                      + Z.of_nat (List.length (data :: rest)))).
    { intros e [= <- <-]. exists []. rewrite app_nil_r.
      cbn [List.length]. repeat split; try lia; try discriminate. }
    destruct (select_one _ _ _ _) as [e|[x|]]; [exact (Stop e) | |].
    + intros H. destruct (IH _ H) as (rows & T & I & S & L & R).
      cbn [seed_table inserted_count skipped_count] in *.
      exists rows. cbn [List.length]. repeat split; try lia; try assumption;
        intros X; [apply R in X | apply R]; lia.
    + destruct (insert_compound _ _) as [e|table'] eqn:Ins;
        [exact (Stop e)|].
      destruct (inserted_row _ _ _ Ins) as (row & -> & _).
      intros H. destruct (IH _ H) as (rows & T & I & S & L & R).
      cbn [seed_table inserted_count skipped_count] in *.
      exists (row :: rows). rewrite T, <- app_assoc. cbn [List.length app].
      repeat split; try lia;
        intros X; [apply R in X | apply R]; lia.
Qed.



(** With text keys, every fetched record has a non-empty text key. *)
Lemma fetched_text_keys w compound_names limit l :
  forallb (resolves_to_text_key w) compound_names = true ->
  fetch_compounds_by_name_list w compound_names limit = Ret l ->
  forall c, In c l -> exists k, inchi_key c = JStr k /\ k <> "".
Proof.
  intros K F c Hc.
  destruct (fetch_loop_spec _ _ _ _ _ F) as (new & -> & P & _).
  destruct (P c Hc) as (T & name & Hn & G).
  rewrite forallb_forall in K. specialize (K name Hn).
  unfold resolves_to_text_key in K. rewrite G in K.
  destruct (inchi_key c) as [| | | |k| |]; try discriminate.
  exists k. split; [reflexivity|]. intros ->. discriminate.
Qed.

Lemma select_text_key k catalog :
  select_one sql_eq row_inchi_key (JStr k) catalog
  = DbRet (find (fun r => sql_eq (row_inchi_key r) (SqlText k)) catalog).
Proof. reflexivity. Qed.

Lemma seed_loop_keys compounds_to_insert s s' r :
  (forall c, In c compounds_to_insert ->
     exists k, inchi_key c = JStr k /\ k <> "") ->
  keys_unique (seed_table s) ->
  seed_loop compounds_to_insert s = (s', r) ->
  keys_unique (seed_table s').
Proof.
  revert s. induction compounds_to_insert as [|data rest IH]; intros s K U.
  - cbn. intros [= <- <-]. exact U.
  - cbn [seed_loop].
    destruct (K data (or_introl eq_refl)) as (k & Ek & _).
    rewrite Ek, select_text_key.
    assert (K' : forall c, In c rest ->
                   exists k, inchi_key c = JStr k /\ k <> "")
      by (intros c Hc; apply K; right; exact Hc).
    destruct (find _ (seed_table s)) as [x|] eqn:F.
    + apply (IH _ K'). exact U.
    + destruct (insert_compound _ _) as [e|table'] eqn:Ins.
      { intros [= <- <-]. exact U. }
      destruct (inserted_row _ _ _ Ins) as (row & -> & _ & _ & B & _).
      cbn [Get.field] in B. rewrite Ek in B. cbn in B. injection B as B.
      apply (IH _ K'). cbn [seed_table].
      apply keys_unique_app; [exact U|]. right. intros x Hx E.
      pose proof (find_none _ _ F x Hx) as N. cbn beta in N.
      rewrite E, <- B in N.
      assert (sql_eq (SqlText k) (SqlText k) = true)
        by (apply sql_eq_spec; split; [discriminate | reflexivity]).
      congruence.
Qed.

(** X21.  Seeding keeps the keys of the table distinct: when the records
    resolved for the names have text keys, a table in which no two rows
    share a key is still such a table after the run, committed or not. *)
Theorem seeding_keeps_keys_unique (w : World) (compound_names : list string)
    (catalog : Catalog) (e : SeedEnd) (s : SeedState) :
  forallb (resolves_to_text_key w) compound_names = true ->
  keys_unique catalog ->
  seed_database w compound_names catalog = Ret (e, s) ->
  keys_unique (seed_table s).
Proof.
  intros K U. unfold seed_database, bind.
  destruct (fetch_compounds_by_name_list w compound_names 100)
    as [x|l] eqn:F; [discriminate|].
  destruct (seed_loop l _) as [s1 r] eqn:L.
  pose proof (seed_loop_keys l
                {| seed_table := catalog; inserted_count := 0;
                   skipped_count := 0 |} s1 r
                (fetched_text_keys _ _ _ _ K F) U L) as U1.
  destruct r as [[|]|]; intros [= <- <-]; cbn [seed_table]; assumption.
Qed.

Lemma seeding_keeps_keys_unique_witness :
  keys_unique
    (seed_table (seeded ethanol_world ["ethanol"; "OCC"] water_catalog)).
Proof.
  apply (seeding_keeps_keys_unique ethanol_world ["ethanol"; "OCC"]
           water_catalog Committed).
  - vm_compute. reflexivity.
  - unfold keys_unique. cbn. repeat constructor. intros [].
  - vm_compute. reflexivity.
Defined.

(** After a loop that went through, every record has a row under its key. *)
Lemma seed_loop_present compounds_to_insert s s' :
  (forall c, In c compounds_to_insert ->
     exists k, inchi_key c = JStr k /\ k <> "") ->
  seed_loop compounds_to_insert s = (s', None) ->
  forall c k, In c compounds_to_insert -> inchi_key c = JStr k ->
    exists row, In row (seed_table s')
                /\ sql_eq (row_inchi_key row) (SqlText k) = true.
Proof.
  revert s. induction compounds_to_insert as [|data rest IH]; intros s K.
  - intros _ c k [].
  - cbn [seed_loop].
    destruct (K data (or_introl eq_refl)) as (k0 & Ek & _).
    rewrite Ek, select_text_key.
    assert (K' : forall c, In c rest ->
                   exists k, inchi_key c = JStr k /\ k <> "")
      by (intros c Hc; apply K; right; exact Hc).
    destruct (find _ (seed_table s)) as [x|] eqn:F.
    + intros L c k [<-|Hc] Ec; [|exact (IH _ K' L c k Hc Ec)].
      rewrite Ek in Ec. injection Ec as <-.
      apply find_some in F as [Hx Ex].
      destruct (seed_loop_spec _ _ _ _ L) as (rows & T & _).
      cbn [seed_table] in T. exists x. rewrite T.
      split; [apply in_or_app; left; exact Hx | exact Ex].
    + destruct (insert_compound _ _) as [e|table'] eqn:Ins; [discriminate|].
      destruct (inserted_row _ _ _ Ins) as (row & -> & _ & _ & B & _).
      cbn [Get.field] in B. rewrite Ek in B. cbn in B. injection B as B.
      intros L c k [<-|Hc] Ec; [|exact (IH _ K' L c k Hc Ec)].
      rewrite Ek in Ec. injection Ec as <-.
      destruct (seed_loop_spec _ _ _ _ L) as (rows & T & _).
      cbn [seed_table] in T. exists row. rewrite T, <- B.
      split; [apply in_or_app; left; apply in_or_app; right; left;
              reflexivity|].
      apply sql_eq_spec; split; [discriminate | reflexivity].
Qed.

(** A loop over records that all have a row under their key only skips. *)
Lemma seed_loop_all_skipped compounds_to_insert s :
  (forall c, In c compounds_to_insert ->
     exists k row, inchi_key c = JStr k /\ In row (seed_table s)
                   /\ sql_eq (row_inchi_key row) (SqlText k) = true) ->
  seed_loop compounds_to_insert s
  = ({| seed_table := seed_table s;
        inserted_count := inserted_count s;
        skipped_count :=
          skipped_count s + Z.of_nat (List.length compounds_to_insert) |},
     None).
Proof.
  revert s. induction compounds_to_insert as [|data rest IH]; intros s K.
  - cbn. rewrite Z.add_0_r. destruct s; reflexivity.
  - cbn [seed_loop].
    destruct (K data (or_introl eq_refl)) as (k & row & Ek & Hrow & Erow).
    rewrite Ek, select_text_key.
    destruct (find _ (seed_table s)) as [x|] eqn:F.
    + rewrite IH.
      * cbn [seed_table inserted_count skipped_count List.length].
        do 2 f_equal. lia.
      * intros c Hc. apply K. right. exact Hc.
    + apply (find_none _ _ F) in Hrow. cbn beta in Hrow. congruence.
Qed.

(** X22.  Seeding twice adds nothing the second time: after a run that
    committed, a second run over the same names (the services answering
    as before, keys being text) commits too, inserts no row and skips
    every fetched record. *)
Theorem second_seeding_inserts_nothing (w : World)
    (compound_names : list string) (catalog : Catalog) (s : SeedState) :
  forallb (resolves_to_text_key w) compound_names = true ->
  seed_database w compound_names catalog = Ret (Committed, s) ->
  seed_database w compound_names (seed_table s)
  = Ret (Committed,
         {| seed_table := seed_table s;
            inserted_count := 0;
            skipped_count := inserted_count s + skipped_count s |}).
Proof.
  intros K. unfold seed_database, bind.
  destruct (fetch_compounds_by_name_list w compound_names 100)
    as [x|l] eqn:F; [discriminate|].
  pose proof (fetched_text_keys _ _ _ _ K F) as Kl.
  destruct (seed_loop l _) as [s1 r] eqn:L.
  destruct r as [[|]|]; try discriminate. intros [= <-].
  pose proof (seed_loop_present _ _ _ Kl L) as P.
  destruct (seed_loop_spec _ _ _ _ L) as (_ & _ & _ & _ & _ & R).
  cbn [inserted_count skipped_count] in R.
  rewrite seed_loop_all_skipped.
  - cbn [seed_table inserted_count skipped_count].
    rewrite (proj1 R eq_refl). reflexivity.
  - intros c Hc. destruct (Kl c Hc) as (k & Ek & _).
    destruct (P c k Hc Ek) as (row & Hrow & Erow).
    exists k, row. cbn [seed_table]. auto.
Qed.

Lemma second_seeding_inserts_nothing_witness :
  seed_database ethanol_world ["ethanol"; "OCC"]
    (seed_table (seeded ethanol_world ["ethanol"; "OCC"] water_catalog))
  = Ret (Committed,
         {| seed_table :=
              seed_table (seeded ethanol_world ["ethanol"; "OCC"]
                            water_catalog);
            inserted_count := 0;
            skipped_count :=
              inserted_count (seeded ethanol_world ["ethanol"; "OCC"]
                                water_catalog)
              + skipped_count (seeded ethanol_world ["ethanol"; "OCC"]
                                 water_catalog) |}).
Proof.
  apply (second_seeding_inserts_nothing ethanol_world ["ethanol"; "OCC"]
           water_catalog); vm_compute; reflexivity.
Defined.

Lemma fetch_loop_short w compound_names limit limit' compounds :
  Z.of_nat (List.length compounds) + Z.of_nat (List.length compound_names)
  <= limit ->
  limit <= limit' ->
  fetch_loop w compound_names limit' compounds
  = fetch_loop w compound_names limit compounds.
Proof.
  revert compounds.
  induction compound_names as [|name rest IH]; intros compounds L L';
    [reflexivity|].
  cbn [fetch_loop]. cbn [List.length] in L.
  replace (Z.of_nat (List.length compounds) >=? limit) with false
    by (symmetry; rewrite Z.geb_leb; apply Z.leb_gt; lia).
  replace (Z.of_nat (List.length compounds) >=? limit') with false
    by (symmetry; rewrite Z.geb_leb; apply Z.leb_gt; lia).
  unfold bind. destruct (get_compound_data w name) as [e|data];
    [reflexivity|].
  assert (K : fetch_loop w rest limit' compounds
              = fetch_loop w rest limit compounds) by (apply IH; lia).
  destruct data as [m|c]; [exact K|].
  destruct (Py.truthy (inchi_key c)); [|exact K].
  apply IH; [|exact L']. rewrite length_app. cbn [List.length]. lia.
Qed.

(** X23.  A list with no more names than [limit] is fetched whole: the
    limit is never reached, so the result is the one any larger limit
    gives.  The built-in list has 99 names and is fetched with the limit
    100. *)
Theorem short_list_is_fetched_whole (w : World) (compound_names : list string)
    (limit limit' : Z) :
  Z.of_nat (List.length compound_names) <= limit ->
  limit <= limit' ->
  fetch_compounds_by_name_list w compound_names limit'
  = fetch_compounds_by_name_list w compound_names limit.
Proof.
  intros L L'. apply fetch_loop_short; [cbn [List.length]; lia | exact L'].
Qed.

Lemma short_list_is_fetched_whole_witness :
  fetch_compounds_by_name_list ethanol_world ANTIBIOTICS_TO_ADD 1000
  = fetch_compounds_by_name_list ethanol_world ANTIBIOTICS_TO_ADD 100.
Proof.
  apply (short_list_is_fetched_whole ethanol_world ANTIBIOTICS_TO_ADD
           100 1000); vm_compute; discriminate.
Defined.
(* ================================================================== *)
(** ** The maintenance script on a table without duplicates *)

Lemma filter_map_length (A B : Type) (f : A -> B) (p : B -> bool)
    (l : list A) :
  List.length (filter (fun x => p (f x)) l)
  = List.length (filter p (map f l)).
Proof.
  induction l as [|a l IH]; cbn; [reflexivity|].
  destruct (p (f a)); cbn; rewrite IH; reflexivity.
Qed.

Lemma NoDup_count k (l : list sqlval) :
  NoDup l ->
  (List.length (filter (fun x => sqlval_eqb x k) l) <= 1)%nat.
Proof.
  induction 1 as [|a l Ha _ IH]; cbn; [lia|].
  destruct (sqlval_eqb a k) eqn:E; [|exact IH].
  apply sqlval_eqb_eq in E. subst a. cbn.
  assert (Z : filter (fun x => sqlval_eqb x k) l = []).
  { destruct (filter _ l) as [|y r] eqn:F; [reflexivity|].
    assert (Hy : In y (filter (fun x => sqlval_eqb x k) l))
      by (rewrite F; left; reflexivity).
    apply filter_In in Hy as [Hy Ey]. apply sqlval_eqb_eq in Ey.
    subst y. contradiction. }
  rewrite Z. cbn. lia.
Qed.

(** In a table whose keys are distinct no key is counted twice. *)
Lemma count_key_unique k catalog :
  keys_unique catalog -> count_key k catalog <= 1.
Proof.
  unfold keys_unique, count_key. intros U.
  rewrite (filter_map_length _ _ row_inchi_key
             (fun x => negb (sql_is_null x) && sqlval_eqb x k)).
  rewrite <- filter_twice.
  pose proof (NoDup_count k _ U). lia.
Qed.

Lemma no_duplicate_keys catalog :
  keys_unique catalog -> duplicate_keys catalog = [].
Proof.
  intros U. unfold duplicate_keys.
  induction (group_keys (map row_inchi_key catalog)) as [|k l IH];
    cbn; [reflexivity|].
  pose proof (count_key_unique k catalog U) as C.
  destruct (1 <? count_key k catalog) eqn:E; [|exact IH].
  apply Z.ltb_lt in E. lia.
Qed.

(** X24.  On a table in which no two rows share a key the maintenance
    script deletes nothing: the table is returned as it is. *)
Theorem remove_duplicates_leaves_clean_table (catalog : Catalog) :
  keys_unique catalog -> remove_duplicates catalog = catalog.
Proof.
  intros U. unfold remove_duplicates.
  rewrite (no_duplicate_keys catalog U). reflexivity.
Qed.

Lemma remove_duplicates_leaves_clean_table_witness :
  remove_duplicates
    (snd (upload ethanol_world water_catalog "OCC"))
  = snd (upload ethanol_world water_catalog "OCC").
Proof.
  apply remove_duplicates_leaves_clean_table.
  vm_compute. repeat constructor; cbn; intuition discriminate.
Defined.

Lemma keys_unique_of_rows (l : Catalog) :
  NoDup l ->
  (forall r r', In r l -> In r' l -> row_inchi_key r <> SqlNull ->
                row_inchi_key r = row_inchi_key r' -> r = r') ->
  keys_unique l.
Proof.
  unfold keys_unique. induction 1 as [|a l Ha Hl IH]; intros K; cbn;
    [constructor|].
  assert (IH' : NoDup (filter (fun k => negb (sql_is_null k))
                         (map row_inchi_key l))).
  { apply IH. intros r r' Hr Hr'. apply K; right; assumption. }
  destruct (sql_is_null (row_inchi_key a)) eqn:N; cbn; [exact IH'|].
  constructor; [|exact IH'].
  intros H. apply filter_In in H as [H _].
  apply in_map_iff in H as (r & E & Hr).
  assert (a = r).
  { apply K; [left; reflexivity | right; exact Hr | | symmetry; exact E].
    intros X. rewrite X in N. discriminate. }
  subst r. contradiction.
Qed.

Lemma oldest_rows_differ_in_key catalog r r' :
  unique_ids catalog -> In r catalog -> In r' catalog ->
  is_oldest catalog r = true -> is_oldest catalog r' = true ->
  row_inchi_key r <> SqlNull -> row_inchi_key r = row_inchi_key r' ->
  r = r'.
Proof.
  intros U Hr Hr' O O' N E.
  unfold is_oldest in O, O'. rewrite forallb_forall in O, O'.
  pose proof (O r' Hr') as A. pose proof (O' r Hr) as B.
  assert (S : shares_key r r' = true).
  { unfold shares_key. apply sql_eq_spec. split; congruence. }
  assert (S' : shares_key r' r = true).
  { unfold shares_key. apply sql_eq_spec. split; congruence. }
  rewrite S in A. rewrite S' in B. cbn in A, B.
  apply Z.leb_le in A, B.
  apply (unique_ids_inj _ _ _ U Hr Hr'). lia.
Qed.

Lemma remove_duplicates_keys_unique catalog :
  unique_ids catalog -> keys_unique (remove_duplicates catalog).
Proof.
  intros U. rewrite (remove_duplicates_filter _ U).
  apply keys_unique_of_rows.
  - apply NoDup_filter. exact (NoDup_map_inv _ _ U).
  - intros r r' Hr Hr' N E.
    apply filter_In in Hr as [Hr O]. apply filter_In in Hr' as [Hr' O'].
    exact (oldest_rows_differ_in_key _ _ _ U Hr Hr' O O' N E).
Qed.

(** X25.  Running the maintenance script once is enough: on a table with
    distinct ids, the table it leaves has no two rows with the same key,
    and running it again on that table changes nothing. *)
Theorem remove_duplicates_is_idempotent (catalog : Catalog) :
  unique_ids catalog ->
  keys_unique (remove_duplicates catalog)
  /\ remove_duplicates (remove_duplicates catalog)
     = remove_duplicates catalog.
Proof.
  intros U. pose proof (remove_duplicates_keys_unique _ U) as K.
  split; [exact K|]. unfold remove_duplicates at 1.
  rewrite (no_duplicate_keys _ K). reflexivity.
Qed.

Lemma remove_duplicates_is_idempotent_witness :
  keys_unique (remove_duplicates crowded_catalog)
  /\ remove_duplicates (remove_duplicates crowded_catalog)
     = remove_duplicates crowded_catalog.
Proof.
  apply remove_duplicates_is_idempotent.
  unfold unique_ids. cbn. repeat constructor; cbn; intuition lia.
Defined.
(* ================================================================== *)
(** ** The DrugBank lookups *)

Lemma try_except_ret (A : Type) (caught : exn -> bool) (body : result A)
    (fallback v : A) :
  try_except caught body fallback = Ret v ->
  body = Ret v \/ v = fallback.
Proof.
  unfold try_except. destruct body as [e|a]; [|auto].
  destruct (caught e); [|discriminate]. intros [= <-]. auto.
Qed.

Lemma try_except_raise (A : Type) (caught : exn -> bool) (body : result A)
    (fallback : A) (e : exn) :
  try_except caught body fallback = Raise e -> caught e = false.
Proof.
  unfold try_except. destruct body as [e'|a]; [|discriminate].
  destruct (caught e') eqn:C; [discriminate|]. intros [= <-]. exact C.
Qed.

(** A request that is down makes a guarded block fall through. *)
Lemma block_down (caught : exn -> bool) (h : http)
    (k : Z * result value -> result value) :
  (forall e, is_RequestException e = true -> caught e = true) ->
  service_down h ->
  (forall sc j, sc <> 200 -> k (sc, j) = Ret JNull) ->
  try_except caught (bind (requests_get h) k) JNull = Ret JNull.
Proof.
  intros C [(e & -> & He) | (sc & j & -> & Hsc)] Hk; cbn.
  - rewrite (C e He). reflexivity.
  - rewrite (Hk sc j Hsc). reflexivity.
Qed.

Lemma not_200 sc (a : result value) :
  sc <> 200 -> (if sc =? 200 then a else Ret JNull) = Ret JNull.
Proof.
  intros H. destruct (Z.eqb_spec sc 200); [contradiction | reflexivity].
Qed.

Lemma xrefs_drugbank_block_shape repr x cid v :
  xrefs_drugbank_block repr x cid = Ret v -> v = JNull \/ is_drugbank_url v.
Proof.
  unfold xrefs_drugbank_block. intros H.
  apply try_except_ret in H as [H|H]; [|auto].
  unfold bind in H.
  repeat match type of H with
         | match ?m with _ => _ end = _ => destruct m; try discriminate H
         | (if ?b then _ else _) = _ => destruct b; try discriminate H
         | (let _ := _ in _) = _ => cbv zeta in H
         end;
    injection H as <-; auto; right; eexists; reflexivity.
Qed.

Lemma xrefs_registry_block_shape x cid v :
  xrefs_registry_block x cid = Ret v -> v = JNull \/ is_drugbank_url v.
Proof.
  unfold xrefs_registry_block. intros H.
  apply try_except_ret in H as [H|H]; [|auto].
  unfold bind in H.
  repeat match type of H with
         | match ?m with _ => _ end = _ => destruct m; try discriminate H
         | (if ?b then _ else _) = _ => destruct b; try discriminate H
         end;
    injection H as <-; auto; right; eexists; reflexivity.
Qed.

Lemma xrefs_lookup_shape repr x cid v :
  drugbank_url_from_pubchem_cid repr x cid = Ret v ->
  v = JNull \/ is_drugbank_url v.
Proof.
  unfold drugbank_url_from_pubchem_cid, bind.
  destruct (xrefs_drugbank_block repr x cid) as [e|first] eqn:B1;
    [discriminate|].
  destruct (Py.is_None first).
  - apply xrefs_registry_block_shape.
  - intros [= <-]. exact (xrefs_drugbank_block_shape _ _ _ _ B1).
Qed.

(** X26.  The fallback lookup by registry id is guarded: it returns None
    or a link made of the DrugBank address and an id, never another
    value; an exception that leaves it is not one of the classes its
    [except] clauses list; and it returns None when both requests fail in
    transport or are answered with a status other than 200. *)
Theorem xrefs_lookup_is_guarded (repr : value -> string) (x : Xrefs)
    (cid : value) :
  (forall v, drugbank_url_from_pubchem_cid repr x cid = Ret v ->
     v = JNull \/ is_drugbank_url v)
  /\ (forall e, drugbank_url_from_pubchem_cid repr x cid = Raise e ->
        caught_by_xrefs e = false)
  /\ (service_down (pubchem_xrefs_drugbank x cid) ->
      service_down (pubchem_xrefs_registry x cid) ->
      drugbank_url_from_pubchem_cid repr x cid = Ret JNull).
Proof.
  split; [exact (xrefs_lookup_shape repr x cid)|].
  unfold drugbank_url_from_pubchem_cid, bind. split.
  - intros e.
    destruct (xrefs_drugbank_block repr x cid) as [e1|first] eqn:B1.
    + intros [= <-]. exact (try_except_raise _ _ _ _ _ B1).
    + destruct (Py.is_None first); [|discriminate].
      apply try_except_raise.
  - intros D1 D2.
    assert (C : forall e, is_RequestException e = true ->
                          caught_by_xrefs e = true)
      by (intros e He; unfold caught_by_xrefs; rewrite He; reflexivity).
    unfold xrefs_drugbank_block.
    rewrite (block_down _ _ _ C D1)
      by (intros sc j Hsc; cbn [fst snd]; apply not_200, Hsc).
    cbn [Py.is_None]. unfold xrefs_registry_block.
    apply (block_down _ _ _ C D2).
    intros sc j Hsc; cbn [fst snd]; apply not_200, Hsc.
Qed.

Lemma first_accession_found pre reg post :
  PyLatin1.upper_startswith_DB reg = true ->
  (forall r, In (JStr r) pre -> PyLatin1.upper_startswith_DB r = false) ->
  first_accession (pre ++ JStr reg :: post)%list = Some reg.
Proof.
  intros Hreg. induction pre as [|a pre IH]; intros Hpre; cbn.
  - rewrite Hreg. reflexivity.
  - assert (IH' : first_accession (pre ++ JStr reg :: post)%list = Some reg)
      by (apply IH; intros r Hr; apply Hpre; right; exact Hr).
    destruct a; try exact IH'.
    rewrite (Hpre s (or_introl eq_refl)). exact IH'.
Qed.

Lemma first_accession_none ids :
  (forall r, In (JStr r) ids -> PyLatin1.upper_startswith_DB r = false) ->
  first_accession ids = None.
Proof.
  induction ids as [|a ids IH]; intros H; cbn; [reflexivity|].
  assert (IH' : first_accession ids = None)
    by (apply IH; intros r Hr; apply H; right; exact Hr).
  destruct a; try exact IH'.
  rewrite (H s (or_introl eq_refl)). exact IH'.
Qed.

Lemma information_first fields more :
  information_list (information fields more)
  = Ret (JList (JObj fields :: more)).
Proof. reflexivity. Qed.

Lemma iterate_list ids : iterate (or_empty_list (JList ids)) = Ret ids.
Proof. destruct ids; reflexivity. Qed.

(** X27.  When the DrugBank cross-reference request gives nothing, the
    registry ids decide: of the ids of the first entry of a status-200
    answer, the first one that is a string beginning with "DB" (in any
    case) makes the link, whatever comes before or after it; and with no
    such id the lookup returns None. *)
Theorem registry_fallback_picks_first_accession (repr : value -> string)
    (x : Xrefs) (cid : value) (fields : list (string * value))
    (more ids : list value) :
  xrefs_drugbank_block repr x cid = Ret JNull ->
  pubchem_xrefs_registry x cid = ok (information fields more) ->
  Py.assoc "RegistryID" fields = Some (JList ids) ->
  (forall pre reg post,
     ids = (pre ++ JStr reg :: post)%list ->
     PyLatin1.upper_startswith_DB reg = true ->
     (forall r, In (JStr r) pre -> PyLatin1.upper_startswith_DB r = false) ->
     drugbank_url_from_pubchem_cid repr x cid
     = Ret (JStr (DRUGBANK_URL ++ reg)))
  /\ ((forall r, In (JStr r) ids -> PyLatin1.upper_startswith_DB r = false) ->
      drugbank_url_from_pubchem_cid repr x cid = Ret JNull).
Proof.
  intros B1 R A.
  assert (E : drugbank_url_from_pubchem_cid repr x cid
              = Ret match first_accession ids with
                    | Some reg => JStr (DRUGBANK_URL ++ reg)
                    | None => JNull
                    end).
  { unfold drugbank_url_from_pubchem_cid. rewrite B1. cbn [bind Py.is_None].
    unfold xrefs_registry_block. rewrite R. unfold ok.
    cbn [requests_get bind fst snd]. change (200 =? 200) with true.
    cbv iota. rewrite information_first.
    cbn [bind Py.truthy Py.getitem0 Py.dict_get]. rewrite A.
    rewrite iterate_list. cbn [bind].
    destruct (first_accession ids); reflexivity. }
  split.
  - intros pre reg post -> Hreg Hpre.
    rewrite E, (first_accession_found _ _ _ Hreg Hpre). reflexivity.
  - intros H. rewrite E, (first_accession_none _ H). reflexivity.
Qed.

Lemma registry_fallback_picks_first_accession_witness :
  drugbank_url_from_pubchem_cid no_numbers sample_xrefs (JNum 702)
  = Ret (JStr (DRUGBANK_URL ++ "db00898")).
Proof.
  refine (proj1 (registry_fallback_picks_first_accession no_numbers
                   sample_xrefs (JNum 702)
                   [("CID", JNum 702);
                    ("RegistryID",
                     JList [JStr "64-17-5"; JNum 702; JStr "db00898";
                            JStr "DB99999"])] []
                   [JStr "64-17-5"; JNum 702; JStr "db00898";
                    JStr "DB99999"] _ _ _)
            [JStr "64-17-5"; JNum 702] "db00898" [JStr "DB99999"] _ _ _);
    try (vm_compute; reflexivity).
  intros r [H|[H|[]]]; [injection H as <-; reflexivity | discriminate H].
Defined.

(** The lookup by key once the source id is known. *)
Lemma unichem_url_shape repr x src_id inchikey v :
  try_except caught_by_unichem
    (if negb (str_truthy src_id) then Ret JNull
     else
       resp <- requests_get (unichem_inchikey x inchikey) ;;
       if negb (fst resp =? 200) then Ret JNull
       else
         body <- snd resp ;;
         items <- iterate (or_empty_list body) ;;
         db_id <-
           find_mapping repr
             (match src_id with Some s => s | None => "" end) items JNull ;;
         if negb (Py.truthy db_id) then Ret JNull
         else Ret (JStr (DRUGBANK_URL ++ py_str repr db_id)))
    JNull = Ret v ->
  v = JNull \/ is_drugbank_url v.
Proof.
  intros H. apply try_except_ret in H as [H|H]; [|auto].
  unfold bind in H.
  repeat match type of H with
         | match ?m with _ => _ end = _ => destruct m; try discriminate H
         | (if ?b then _ else _) = _ => destruct b; try discriminate H
         end;
    injection H as <-; auto; right; eexists; reflexivity.
Qed.

Lemma unichem_lookup_shape repr x cache inchikey v :
  fst (drugbank_url_from_inchikey repr x cache inchikey) = Ret v ->
  v = JNull \/ is_drugbank_url v.
Proof.
  unfold drugbank_url_from_inchikey.
  destruct (_get_unichem_drugbank_src_id repr x cache) as [e|src_id];
    cbn [fst].
  - destruct (caught_by_unichem e); [|discriminate].
    intros [= <-]. auto.
  - apply unichem_url_shape.
Qed.

(** X28.  The lookup by key is guarded: it returns None or a link made of
    the DrugBank address and an id; an exception that leaves it is not a
    RequestException or a ValueError; and when the list of sources cannot
    be fetched it returns None and leaves the cache empty, so that the
    next call asks again. *)
Theorem unichem_lookup_is_guarded (repr : value -> string) (x : Xrefs)
    (cache : option string) (inchikey : value) :
  (forall v, fst (drugbank_url_from_inchikey repr x cache inchikey) = Ret v ->
     v = JNull \/ is_drugbank_url v)
  /\ (forall e,
        fst (drugbank_url_from_inchikey repr x cache inchikey) = Raise e ->
        caught_by_unichem e = false)
  /\ (cache = None -> service_down (unichem_sources x) ->
      drugbank_url_from_inchikey repr x cache inchikey = (Ret JNull, None)).
Proof.
  split; [exact (unichem_lookup_shape repr x cache inchikey)|].
  unfold drugbank_url_from_inchikey. split.
  - intros e.
    destruct (_get_unichem_drugbank_src_id repr x cache) as [e'|src_id];
      cbn [fst].
    + destruct (caught_by_unichem e') eqn:C; [discriminate|].
      intros [= <-]. exact C.
    + apply try_except_raise.
  - intros -> D. unfold _get_unichem_drugbank_src_id.
    assert (E : try_except is_RequestException
                  (resp <- requests_get (unichem_sources x) ;;
                   (if negb (fst resp =? 200) then Ret None
                    else
                      sources <- snd resp ;;
                      items <- iterate sources ;;
                      find_drugbank_source repr items)) None = Ret None).
    { destruct D as [(e & -> & He) | (sc & j & -> & Hsc)]; cbn.
      - rewrite He. reflexivity.
      - destruct (Z.eqb_spec sc 200); [contradiction | reflexivity]. }
    rewrite E. reflexivity.
Qed.

Lemma unichem_lookup_is_guarded_witness :
  drugbank_url_from_inchikey no_numbers sample_xrefs_without_unichem None
    (JStr "LFQSCWFLJHTTHZ-UHFFFAOYSA-N")
  = (Ret JNull, None).
Proof.
  apply (proj2 (proj2 (unichem_lookup_is_guarded no_numbers
                         sample_xrefs_without_unichem None
                         (JStr "LFQSCWFLJHTTHZ-UHFFFAOYSA-N")))).
  - reflexivity.
  - left. exists ConnectionError. split; reflexivity.
Defined.

(** X29.  The cache of the source id does not change what a lookup
    returns as long as UniChem answers as before: a lookup made with the
    cache left by an earlier lookup gives what a lookup with an empty
    cache gives.  A cached id is kept for good, and with it the list of
    sources is not requested: the outcome is the same whatever that
    request would give. *)
Theorem source_id_cache_is_transparent (repr : value -> string) (x : Xrefs)
    (key1 key2 : value) :
  drugbank_url_from_inchikey repr x
    (snd (drugbank_url_from_inchikey repr x None key1)) key2
  = drugbank_url_from_inchikey repr x None key2
  /\ (forall id x',
        unichem_inchikey x' = unichem_inchikey x ->
        drugbank_url_from_inchikey repr x' (Some id) key2
        = drugbank_url_from_inchikey repr x (Some id) key2
        /\ snd (drugbank_url_from_inchikey repr x (Some id) key2) = Some id).
Proof.
  split.
  - unfold drugbank_url_from_inchikey at 2.
    destruct (_get_unichem_drugbank_src_id repr x None) as [e|src_id] eqn:G;
      cbn [snd]; [reflexivity|].
    destruct src_id as [id|]; [|reflexivity].
    unfold drugbank_url_from_inchikey. rewrite G. reflexivity.
  - intros id x' E. unfold drugbank_url_from_inchikey.
    cbn [_get_unichem_drugbank_src_id snd]. rewrite E. auto.
Qed.

Lemma add_source_inv s n u l :
  In s (add_source n u l) -> In s l \/ s = {| db_name := n; url := u |}.
Proof.
  unfold add_source. destruct (existsb _ l); [auto|].
  intros H. apply in_app_or in H as [H|[<-|[]]]; auto.
Qed.

Lemma drugbank_links_added u l :
  drugbank_links_ok l -> is_drugbank_url u ->
  drugbank_links_ok (add_source "DrugBank" (UrlValue u) l).
Proof.
  intros L (id & ->) s Hs Hn.
  apply add_source_inv in Hs as [Hs| ->]; [exact (L s Hs Hn)|].
  exists id. reflexivity.
Qed.

Lemma formula_sources w st :
  Locals.sources (formula_and_weight w st) = Locals.sources st.
Proof.
  unfold formula_and_weight.
  repeat match goal with
         | |- context [match ?m with _ => _ end] => destruct m
         end; reflexivity.
Qed.

Lemma fingerprint_sources w st :
  Locals.sources (normalize_and_fingerprint w st) = Locals.sources st.
Proof.
  unfold normalize_and_fingerprint.
  repeat match goal with
         | |- context [match ?m with _ => _ end] => destruct m
         end; reflexivity.
Qed.

(** X30.  With the two lookups in place of the calls, every link named
    "DrugBank" in a record returned by [get_compound_data] is the DrugBank
    address followed by an id. *)
Theorem drugbank_links_are_well_formed (repr : value -> string) (x : Xrefs)
    (w : World) (cache : option string) (identifier : string)
    (c : Compound) :
  get_compound_data (with_drugbank_lookups repr x w cache) identifier
  = Ret (CompoundDict c) ->
  drugbank_links_ok (sources c).
Proof.
  intros H. destruct (get_compound_data_record _ _ _ H) as (_ & st & E & ->).
  destruct (run_pipeline_stages _ _ _ E)
    as (st2 & st4 & st5 & st7 & st7b & E2 & E4 & E5 & E7 & E7b & ->).
  pose proof (names_before_drugbank _ _ _ _ _ E2 E4 E5) as ND.
  cbn [to_dict sources]. rewrite fingerprint_sources, formula_sources.
  set (w' := with_drugbank_lookups repr x w cache) in *.
  assert (L6 : drugbank_links_ok
                 (Locals.sources (depict_and_derive_inchi w' st5))).
  { intros s Hs Hn. exfalso. apply ND. rewrite <- Hn.
    unfold names_of. apply in_map. exact Hs. }
  assert (L7 : drugbank_links_ok (Locals.sources st7)).
  { revert E7. unfold drugbank_via_unichem, bind.
    destruct (Py.truthy (Locals.inchi_key _)); [|intros [= <-]; exact L6].
    destruct (get_drugbank_url_from_inchikey w' _) as [e|u] eqn:U;
      [discriminate|].
    destruct (Py.truthy u) eqn:T; intros [= <-]; [|exact L6].
    cbn. apply drugbank_links_added; [exact L6|].
    unfold w' in U. cbn [get_drugbank_url_from_inchikey
                          with_drugbank_lookups] in U.
    destruct (unichem_lookup_shape repr x cache _ u U) as [->|P];
      [discriminate T | exact P]. }
  revert E7b. unfold drugbank_via_pubchem, bind.
  destruct (_ && _); [|intros [= <-]; exact L7].
  destruct (get_drugbank_url_from_pubchem_cid w' _) as [e|u] eqn:U;
    [discriminate|].
  destruct (Py.truthy u) eqn:T; intros [= <-]; [|exact L7].
  cbn. apply drugbank_links_added; [exact L7|].
  unfold w' in U. cbn [get_drugbank_url_from_pubchem_cid
                        with_drugbank_lookups] in U.
  destruct (xrefs_lookup_shape repr x _ u U) as [->|P];
    [discriminate T | exact P].
Qed.

Lemma drugbank_links_are_well_formed_witness :
  In {| db_name := "DrugBank";
        url := UrlValue (JStr (DRUGBANK_URL ++ "DB00898")) |}
     (sources
        (resolved
           (with_drugbank_lookups no_numbers sample_xrefs ethanol_world None)
           "OCC"))
  /\ drugbank_links_ok
       (sources
          (resolved
             (with_drugbank_lookups no_numbers sample_xrefs ethanol_world None)
             "OCC")).
Proof.
  split; [vm_compute; repeat (first [left; reflexivity | right])|].
  apply (drugbank_links_are_well_formed no_numbers sample_xrefs ethanol_world
           None "OCC").
  vm_compute. reflexivity.
Defined.
